(** * MetroCity equation engine: a shallow embedding and its properties

    The development follows the TypeScript sources of the equation engine:
    - [Parser.ts] (class [AlgebraicParser]): tokenizer, term parser, type classifier;
    - [Evaluator.ts] (class [ExpressionEvaluator]): substitution and like-term collection;
    - [StepGenerator.ts] (class [StepGenerator]): pedagogical step sequences;
    - [Validator.ts] (class [EquationValidator]): the pre-parse input checks;
    - [EquationEngine.ts] (frontend): parse / solve / verify / confidence;
    - [backend/src/engines/EquationEngine.ts]: the simplified backend solver;
    - [backend/src/services/EquationService.ts]: the cache key of an input.

    JavaScript numbers are IEEE-754 binary64 values and are modelled by Rocq's
    primitive floats, so every concrete evaluation below is bit-exact.
    Strings are lists of 8-bit characters (code units below 256).  Exceptions
    are values of a [Result] type.  The parser's [errors] and [warnings] arrays
    are only ever pushed to, so a function that pushes returns what it pushed
    (type [Logged]) and its caller appends.

    Fields that only carry display text or depend on the clock or on
    [Math.random] (ids, timestamps, messages, descriptions, hints,
    [parseTime]) are left out of the records; no property below reads them. *)

From Stdlib Require Import Ascii String.
From Stdlib Require Import Floats ZArith List Bool Arith Lia.
From Stdlib Require Import Permutation.
From Stdlib Require Import DecimalString.
Import ListNotations.
Local Open Scope list_scope.

Set Warnings "-inexact-float".

(* ====================================================================== *)
(** * JavaScript primitives                                                *)
(* ====================================================================== *)

Module JS.

(** A JavaScript string, one [ascii] per code unit. *)
Definition str := list ascii.

Definition lit (s : string) : str := list_ascii_of_string s.

Fixpoint str_eqb (a b : str) : bool :=
  match a, b with
  | [], [] => true
  | x :: a', y :: b' => Ascii.eqb x y && str_eqb a' b'
  | _, _ => false
  end.

Definition code (c : ascii) : nat := nat_of_ascii c.

(** [/\d/] *)
Definition isDigit (c : ascii) : bool :=
  (48 <=? code c) && (code c <=? 57).

(** [/[a-zA-Z]/] *)
Definition isLetter (c : ascii) : bool :=
  ((65 <=? code c) && (code c <=? 90)) || ((97 <=? code c) && (code c <=? 122)).

(** [/\s/] restricted to code units below 256: TAB, LF, VT, FF, CR, space, NBSP. *)
Definition isSpace (c : ascii) : bool :=
  ((9 <=? code c) && (code c <=? 13)) || (code c =? 32) || (code c =? 160).

(** Truthiness of an optional string: [undefined] and [''] are falsy. *)
Definition truthy (o : option str) : bool :=
  match o with
  | Some (_ :: _) => true
  | _ => false
  end.

(** [o || dflt] for an optional string. *)
Definition orElse (o : option str) (dflt : str) : str :=
  match o with
  | Some (c :: s) => c :: s
  | _ => dflt
  end.

(** [a === b] on values that are a string or [undefined]. *)
Definition opt_str_eqb (a b : option str) : bool :=
  match a, b with
  | Some x, Some y => str_eqb x y
  | None, None => true
  | _, _ => false
  end.

(** ** Numbers *)

Definition Math_abs (x : float) : float := PrimFloat.abs x.

(** [Math.min] on two numbers: NaN is contagious and [-0] is below [+0]. *)
Definition Math_min (x y : float) : float :=
  if PrimFloat.is_nan x then x
  else if PrimFloat.is_nan y then y
  else if PrimFloat.ltb x y then x
  else if PrimFloat.ltb y x then y
  else if PrimFloat.get_sign x then x else y.

(** [Math.pow(v, n)] for the exponents a term can carry (non-negative
    integers); [Math.pow(v, 1)] is [v] itself. *)
Fixpoint Math_pow (v : float) (n : nat) : float :=
  match n with
  | O => PrimFloat.one
  | S O => v
  | S n' => PrimFloat.mul v (Math_pow v n')
  end.

(** [Math.round]: the integer nearest to [x], ties towards +infinity; the
    result of a negative argument that rounds to zero is [-0]. *)
Definition Math_round (x : float) : float :=
  match Prim2SF x with
  | S754_finite s m e =>
      if (0 <=? e)%Z then x
      else
        let d := Z.pow 2 (- e) in
        let n := if s then Z.neg m else Z.pos m in
        let r := Z.div (2 * n + d) (2 * d) in
        if (r =? 0)%Z then (if s then PrimFloat.neg_zero else PrimFloat.zero)
        else SF2Prim (binary_normalize prec emax r 0 false)
  | _ => x
  end.

(** Decimal value of a run of digit characters. *)
Definition digitVal (c : ascii) : Z := Z.of_nat (code c - 48).

Definition decimalValue (ds : str) : Z :=
  fold_left (fun acc c => (10 * acc + digitVal c)%Z) ds 0%Z.

Fixpoint takeDigits (s : str) : str * str :=
  match s with
  | c :: s' =>
      if isDigit c then let (ds, r) := takeDigits s' in (c :: ds, r)
      else ([], s)
  | [] => ([], [])
  end.

(** The double nearest to [n / 10^k] (round to nearest, ties to even). *)
Definition decimalToDouble (n : Z) (k : nat) : float :=
  match n with
  | Zpos p =>
      SF2Prim (SFdiv prec emax (S754_finite false p 0)
                 (S754_finite false (Z.to_pos (10 ^ Z.of_nat k)) 0))
  | _ => PrimFloat.zero
  end.

(** [parseFloat] on the strings the tokenizer hands to it: a run of digits,
    optionally followed by a point and a run of digits.  Parsing stops at the
    first character that does not continue that shape; a string that does
    not start with a digit gives NaN. *)
Definition parseFloat (s : str) : float :=
  let (ds, r) := takeDigits s in
  match ds with
  | [] => PrimFloat.nan
  | _ :: _ =>
      match r with
      | c :: r' =>
          if Ascii.eqb c "."%char
          then let (fs, _) := takeDigits r' in
               decimalToDouble (decimalValue (ds ++ fs)) (length fs)
          else decimalToDouble (decimalValue ds) 0
      | [] => decimalToDouble (decimalValue ds) 0
      end
  end.

(** ** Exceptions *)

Inductive Result (E A : Type) : Type :=
| Ok (a : A)
| Throw (e : E).
Arguments Ok {E A} a.
Arguments Throw {E A} e.

Definition bind {E A B} (m : Result E A) (k : A -> Result E B) : Result E B :=
  match m with
  | Ok a => k a
  | Throw e => Throw e
  end.

(** [try { body } catch (error) { handler(error) }] *)
Definition tryCatch {E A} (body : Result E A) (handler : E -> Result E A) : Result E A :=
  match body with
  | Ok a => Ok a
  | Throw e => handler e
  end.

(** ** Plain objects used as dictionaries

    [const o: { [key: string]: V } = {}] keeps its own properties in
    creation order, but [o[key]] also finds what [Object.prototype]
    provides, and [Object.values] lists array-index keys first, in
    ascending numeric order. *)

Definition Dict (V : Type) := list (str * V).

Definition objectPrototypeKeys : list str :=
  map lit [ "constructor"; "__defineGetter__"; "__defineSetter__"; "hasOwnProperty";
            "__lookupGetter__"; "__lookupSetter__"; "isPrototypeOf";
            "propertyIsEnumerable"; "toString"; "valueOf"; "__proto__";
            "toLocaleString" ]%string.

Definition inherited (k : str) : bool := existsb (str_eqb k) objectPrototypeKeys.

Fixpoint own {V} (o : Dict V) (k : str) : option V :=
  match o with
  | [] => None
  | (k', v) :: o' => if str_eqb k k' then Some v else own o' k
  end.

Fixpoint update {V} (o : Dict V) (k : str) (f : V -> V) : Dict V :=
  match o with
  | [] => []
  | (k', v) :: o' => if str_eqb k k' then (k', f v) :: o' else (k', v) :: update o' k f
  end.

(** A canonical array index: ["0"], or digits without a leading zero whose
    value is at most 2^32 - 2. *)
Definition isArrayIndex (k : str) : bool :=
  match k with
  | [] => false
  | c :: r =>
      forallb isDigit k
      && (negb (Ascii.eqb c "0"%char) || match r with [] => true | _ => false end)
      && (length k <=? 10)
      && (decimalValue k <=? 4294967294)%Z
  end.

Fixpoint insertByIndex {V} (kv : str * V) (l : Dict V) : Dict V :=
  match l with
  | [] => [kv]
  | kv' :: l' =>
      if (decimalValue (fst kv) <? decimalValue (fst kv'))%Z
      then kv :: l
      else kv' :: insertByIndex kv l'
  end.

Definition Object_values {V} (o : Dict V) : list V :=
  map snd (fold_right insertByIndex [] (filter (fun kv => isArrayIndex (fst kv)) o)
           ++ filter (fun kv => negb (isArrayIndex (fst kv))) o).

(** ** Letter case

    [String.prototype.toLowerCase] on one code unit below 256: the capital
    letters of ASCII and of Latin-1 (not the multiplication sign) move up
    by 32. *)
Definition toLowerCase (c : ascii) : ascii :=
  if ((65 <=? code c) && (code c <=? 90))
     || ((192 <=? code c) && (code c <=? 222) && negb (code c =? 215))
  then ascii_of_nat (code c + 32) else c.

(** [String.prototype.toUpperCase] on an ASCII letter. *)
Definition toUpperCase (c : ascii) : ascii :=
  if (97 <=? code c) && (code c <=? 122) then ascii_of_nat (code c - 32) else c.

(** [s.split(sep)] for a separator of one character; [current] is the
    piece being read. *)
Fixpoint splitFrom (sep : ascii) (s : str) (current : str) : list str :=
  match s with
  | [] => [current]
  | c :: s' =>
      if Ascii.eqb c sep then current :: splitFrom sep s' []
      else splitFrom sep s' (current ++ [c])
  end.

Definition split (sep : ascii) (s : str) : list str := splitFrom sep s [].

End JS.

Import JS.

(* ====================================================================== *)
(** * Data model ([EquationTypes.ts])                                      *)
(* ====================================================================== *)

Inductive EquationType :=
| basic | standard | distributive | complex | fractional | multi_step.

Inductive OperationType :=
| addition | subtraction | multiplication | division
| distribution | combination | transposition | isolation.

Inductive NodeType :=
| nt_number | nt_variable | binary_operation | unary_operation | parentheses | fraction.

Inductive TokenType :=
| NUMBER | VARIABLE | OPERATOR | EQUALS | LPAREN | RPAREN
| FRACTION_BAR | WHITESPACE | EOF.

Inductive ErrorType :=
| syntax_error | invalid_character | missing_operator | mismatched_parentheses
| division_by_zero | invalid_variable | empty_expression.

Inductive WarningType :=
| unnecessary_parentheses | can_be_simplified | unusual_format | high_complexity.

Inductive Severity := low | medium | high | critical.

Inductive DifficultyLevel := beginner | intermediate | advanced | expert.

Inductive SolutionMethod :=
| direct_isolation | distribution_first | combination_first
| cross_multiplication | elimination.

Record Span := { span_start : nat; span_end : nat }.

Record Token := {
  tok_type : TokenType;
  tok_value : str;
  tok_position : Span
}.

Record Term := {
  coefficient : float;
  variable : option str;
  exponent : option nat;
  isConstant : bool;
  position : Span
}.

(** [Expression extends ASTNode]; of the node fields only [type] is ever set. *)
Record Expression := {
  expr_type : NodeType;
  terms : option (list Term);
  simplified : option bool
}.

Record EquationMetadata := {
  originalInput : str;
  difficultyLevel : DifficultyLevel;
  estimatedSteps : nat;
  requiredOperations : list OperationType
}.

Record EquationAST := {
  left : Expression;
  right : Expression;
  metadata : EquationMetadata;
  equationType : EquationType;
  variables : list str;
  complexity : nat
}.

Record EquationError := {
  err_type : ErrorType;
  err_severity : Severity;
  err_position : option Span
}.

Record EquationWarning := { warn_type : WarningType }.

Record ParseResult := {
  ast : option EquationAST;
  tokens : list Token;
  errors : list EquationError;
  warnings : list EquationWarning
}.

Record Step := {
  step_type : OperationType;
  fromExpression : Expression;
  toExpression : Expression;
  difficulty : nat
}.

Record StepSequence := {
  steps : list Step;
  isOptimal : bool;
  estimatedTime : nat;
  alternativeExists : bool
}.

Record VerificationStep := {
  leftSideResult : float;
  rightSideResult : float;
  isValid : bool
}.

Record Solution := {
  sol_variable : str;
  value : float;
  sol_steps : list Step;
  verificationsSteps : list VerificationStep;
  solutionMethod : SolutionMethod;
  confidence : float
}.

Record ValidationResult := {
  vr_isValid : bool;
  vr_errors : list EquationError;
  vr_warnings : list EquationWarning
}.

Record EngineConfig := {
  supportedTypes : list EquationType;
  maxComplexity : nat;
  allowFractions : bool;
  allowDecimals : bool;
  maxSteps : nat;
  timeoutMs : nat;
  generateAlternatives : bool
}.

Definition DEFAULT_ENGINE_CONFIG : EngineConfig := {|
  supportedTypes := [basic; standard; distributive];
  maxComplexity := 10;
  allowFractions := true;
  allowDecimals := true;
  maxSteps := 20;
  timeoutMs := 5000;
  generateAlternatives := true
|}.

Definition SUPPORTED_VARIABLES : list str :=
  map lit ["x"; "y"; "z"; "a"; "b"; "c"; "n"; "t"]%string.

(** [SUPPORTED_VARIABLES.includes(value)] *)
Definition isSupportedVariable (v : str) : bool := existsb (str_eqb v) SUPPORTED_VARIABLES.

Definition EquationType_eqb (a b : EquationType) : bool :=
  match a, b with
  | basic, basic | standard, standard | distributive, distributive
  | complex, complex | fractional, fractional | multi_step, multi_step => true
  | _, _ => false
  end.

Definition TokenType_eqb (a b : TokenType) : bool :=
  match a, b with
  | NUMBER, NUMBER | VARIABLE, VARIABLE | OPERATOR, OPERATOR | EQUALS, EQUALS
  | LPAREN, LPAREN | RPAREN, RPAREN | FRACTION_BAR, FRACTION_BAR
  | WHITESPACE, WHITESPACE | EOF, EOF => true
  | _, _ => false
  end.

Definition ErrorType_eqb (a b : ErrorType) : bool :=
  match a, b with
  | syntax_error, syntax_error | invalid_character, invalid_character
  | missing_operator, missing_operator
  | mismatched_parentheses, mismatched_parentheses
  | division_by_zero, division_by_zero | invalid_variable, invalid_variable
  | empty_expression, empty_expression => true
  | _, _ => false
  end.

(** [expr.terms || []] *)
Definition termsOf (e : Expression) : list Term :=
  match terms e with
  | Some ts => ts
  | None => []
  end.

(** The tolerance [1e-10] that the sources compare against. *)
Definition EPSILON : float := 1e-10%float.

(** ** The push-only logs of a parser instance *)

Record Log := { log_errors : list EquationError; log_warnings : list EquationWarning }.

Definition Logged (A : Type) : Type := A * Log.

Definition noLog : Log := {| log_errors := []; log_warnings := [] |}.

Definition appLog (a b : Log) : Log :=
  {| log_errors := log_errors a ++ log_errors b;
     log_warnings := log_warnings a ++ log_warnings b |}.

(** [this.addError(type, message, severity, start?, end?)] *)
Definition addError (t : ErrorType) (s : Severity) (p : option Span) : Log :=
  {| log_errors := [ {| err_type := t; err_severity := s; err_position := p |} ];
     log_warnings := [] |}.

(** [this.addWarning(type, message, suggestion)] *)
Definition addWarning (t : WarningType) : Log :=
  {| log_errors := []; log_warnings := [ {| warn_type := t |} ] |}.

(** ** Grouping like terms in a dictionary

    [Parser.combineAndSimplifyTerms] and [Evaluator.simplifyExpression] run
    the same loop over a fresh object [{}]:
<<
      const key = term.variable || 'constant';
      if (groups[key]) { groups[key].coefficient += term.coefficient; }
      else             { groups[key] = { ...term }; }
>>
    When [key] names a property of [Object.prototype] the test succeeds on
    the inherited value, the addition lands on that value, and [groups]
    keeps no entry for the term. *)

Definition termKey (t : Term) : str := orElse (variable t) (lit "constant").

Definition addCoefficient (c : float) (t : Term) : Term :=
  {| coefficient := PrimFloat.add (coefficient t) c;
     variable := variable t;
     exponent := exponent t;
     isConstant := isConstant t;
     position := position t |}.

Definition groupTerm (groups : Dict Term) (term : Term) : Dict Term :=
  let key := termKey term in
  match own groups key with
  | Some _ => update groups key (addCoefficient (coefficient term))
  | None => if inherited key then groups else groups ++ [(key, term)]
  end.

(** [term => Math.abs(term.coefficient) > 1e-10] *)
Definition keepsTerm (t : Term) : bool :=
  PrimFloat.ltb EPSILON (Math_abs (coefficient t)).

Definition collectLikeTerms (ts : list Term) : list Term :=
  filter keepsTerm (Object_values (fold_left groupTerm ts [])).

(* ====================================================================== *)
(** * [Parser.ts]: class [AlgebraicParser]                                 *)
(* ====================================================================== *)

Module Parser.

Section WithConfig.

Variable config : EngineConfig.

(** *** Tokenizer

    The scanning functions receive [rest], the part of [input] from
    [position] on, in place of the pair [(input, position)]. *)

(** The loop of [parseNumber]: how many characters the number takes. *)
Fixpoint scanNumber (rest : str) (hasDecimal : bool) : nat :=
  match rest with
  | char :: rest' =>
      if isDigit char then S (scanNumber rest' hasDecimal)
      else if Ascii.eqb char "."%char && negb hasDecimal && allowDecimals config
           then S (scanNumber rest' true)
           else 0
  | [] => 0
  end.

Definition parseNumber (rest : str) (start : nat) : Token * nat :=
  let n := scanNumber rest false in
  ({| tok_type := NUMBER;
      tok_value := firstn n rest;
      tok_position := {| span_start := start; span_end := start + n |} |},
   start + n).

(** The loop of [parseVariable]: it runs over every letter that follows. *)
Fixpoint scanLetters (rest : str) : nat :=
  match rest with
  | char :: rest' => if isLetter char then S (scanLetters rest') else 0
  | [] => 0
  end.

Definition parseVariable (rest : str) (start : nat) : Logged (Token * nat) :=
  let n := scanLetters rest in
  let value := firstn n rest in
  (({| tok_type := VARIABLE;
       tok_value := value;
       tok_position := {| span_start := start; span_end := start + n |} |},
    start + n),
   if isSupportedVariable value then noLog else addWarning unusual_format).

Definition symbolMap (char : ascii) : option TokenType :=
  if Ascii.eqb char "+"%char then Some OPERATOR
  else if Ascii.eqb char "-"%char then Some OPERATOR
  else if Ascii.eqb char "*"%char then Some OPERATOR
  else if Ascii.eqb char "/"%char then Some OPERATOR
  else if Ascii.eqb char "="%char then Some EQUALS
  else if Ascii.eqb char "("%char then Some LPAREN
  else if Ascii.eqb char ")"%char then Some RPAREN
  else None.

Definition parseSymbol (char : ascii) (position : nat) : option Token :=
  match symbolMap char with
  | None => None
  | Some tokenType =>
      Some {| tok_type := tokenType;
              tok_value := [char];
              tok_position := {| span_start := position; span_end := position + 1 |} |}
  end.

(** The [while (position < input.length)] loop of [tokenize].  Every turn
    consumes at least one character, so [length rest] turns suffice
    ([tokenizeFrom_fuel] below). *)
Fixpoint tokenizeFrom (fuel : nat) (rest : str) (position : nat) : Logged (list Token) :=
  match fuel with
  | O => ([], noLog)
  | S fuel' =>
      match rest with
      | [] => ([], noLog)
      | char :: rest' =>
          if isSpace char then tokenizeFrom fuel' rest' (S position)
          else if isDigit char then
            let (token, newPosition) := parseNumber rest position in
            let (toks, lg) :=
              tokenizeFrom fuel' (skipn (newPosition - position) rest) newPosition in
            (token :: toks, lg)
          else if isLetter char then
            let '((token, newPosition), w) := parseVariable rest position in
            let (toks, lg) :=
              tokenizeFrom fuel' (skipn (newPosition - position) rest) newPosition in
            (token :: toks, appLog w lg)
          else
            match parseSymbol char position with
            | Some symbol =>
                let (toks, lg) := tokenizeFrom fuel' rest' (S position) in
                (symbol :: toks, lg)
            | None =>
                let (toks, lg) := tokenizeFrom fuel' rest' (S position) in
                (toks,
                 appLog (addError invalid_character medium
                           (Some {| span_start := position; span_end := position + 1 |}))
                        lg)
            end
      end
  end.

Definition tokenize (input : str) : Logged (list Token) :=
  tokenizeFrom (length input) input 0.

(** *** Terms *)

Definition hasType (ty : TokenType) (t : option Token) : bool :=
  match t with
  | Some tok => TokenType_eqb (tok_type tok) ty
  | None => false
  end.

Definition valueOf (t : option Token) : str :=
  match t with
  | Some tok => tok_value tok
  | None => []
  end.

(** [tokens[i]?.position.start || 0] and [tokens[i]?.position.end || 0] *)
Definition startOf (t : option Token) : nat :=
  match t with Some tok => span_start (tok_position tok) | None => 0 end.
Definition endOf (t : option Token) : nat :=
  match t with Some tok => span_end (tok_position tok) | None => 0 end.

Definition parseSingleTerm (tokens : list Token) (startIndex : nat)
  : Logged (option Term * nat) :=
  let index := startIndex in
  (* leading sign: any OPERATOR token is consumed, only '-' changes the sign *)
  let '(sign, index) :=
    if hasType OPERATOR (nth_error tokens index)
    then ((if str_eqb (valueOf (nth_error tokens index)) (lit "-")
           then (-1)%float else 1%float), S index)
    else (1%float, index) in
  (* numeric coefficient *)
  let '(coefficient, hasCoefficient, index) :=
    if hasType NUMBER (nth_error tokens index)
    then (parseFloat (valueOf (nth_error tokens index)), true, S index)
    else (0%float, false, index) in
  (* variable *)
  let finish (coefficient : float) (variable : option str) (index : nat)
    : Logged (option Term * nat) :=
    if negb hasCoefficient && negb (truthy variable)
    then ((None, index + 1), noLog)
    else
      ((Some {| coefficient := PrimFloat.mul sign coefficient;
                variable := variable;
                exponent := if truthy variable then Some 1 else None;
                isConstant := negb (truthy variable);
                position :=
                  {| span_start := startOf (nth_error tokens startIndex);
                     span_end := endOf (nth_error tokens (index - 1)) |} |},
        index), noLog) in
  if hasType VARIABLE (nth_error tokens index)
  then finish (if hasCoefficient then coefficient else 1%float)
              (Some (valueOf (nth_error tokens index))) (S index)
  else if hasCoefficient then finish coefficient None index
  else if PrimFloat.eqb sign (-1)%float
       then ((None, index), addError syntax_error medium None)
       else finish coefficient None index.

(** The [while (i < tokens.length)] loop of [parseTerms]. *)
Fixpoint parseTermsFrom (fuel : nat) (tokens : list Token) (i : nat)
  : Logged (list Term) :=
  match fuel with
  | O => ([], noLog)
  | S fuel' =>
      if i <? length tokens then
        let '((term, nextIndex), lg) := parseSingleTerm tokens i in
        let (rest, lg') := parseTermsFrom fuel' tokens nextIndex in
        (match term with Some t => t :: rest | None => rest end, appLog lg lg')
      else ([], noLog)
  end.

Definition combineAndSimplifyTerms (ts : list Term) : list Term :=
  collectLikeTerms ts.

Definition parseTerms (tokens : list Token) : Logged (list Term) :=
  let (ts, lg) := parseTermsFrom (length tokens) tokens 0 in
  (combineAndSimplifyTerms ts, lg).

Definition createEmptyExpression : Expression :=
  {| expr_type := binary_operation; terms := Some []; simplified := Some true |}.

(** [parseTerms] raises nothing, so the [catch] clause of
    [parseExpression] is never entered. *)
Definition parseExpression (tokens : list Token) : Logged Expression :=
  match tokens with
  | [] => (createEmptyExpression, addError empty_expression high None)
  | _ :: _ =>
      let (ts, lg) := parseTerms tokens in
      ({| expr_type := binary_operation; terms := Some ts; simplified := Some false |}, lg)
  end.

(** [findEqualsSign]: the index of the first EQUALS token; [None] is [-1]. *)
Fixpoint findEqualsSign (tokens : list Token) : option nat :=
  match tokens with
  | [] => None
  | t :: tokens' =>
      if TokenType_eqb (tok_type t) EQUALS then Some 0
      else option_map S (findEqualsSign tokens')
  end.

(** *** Type detection *)

Definition allTermsOf (l r : Expression) : list Term := termsOf l ++ termsOf r.

Definition hasDistributivePattern (a : EquationAST) : bool :=
  let allTerms := allTermsOf (left a) (right a) in
  (3 <=? length allTerms)
  && existsb (fun term => PrimFloat.ltb 1 (Math_abs (coefficient term))
                          && negb (isConstant term)) allTerms.

Definition detectEquationType (a : EquationAST) : Logged EquationType :=
  let allTerms := allTermsOf (left a) (right a) in
  let variableTerms := filter (fun term => negb (isConstant term)) allTerms in
  let hasMultipleTerms := 1 <? length variableTerms in
  if length variableTerms =? 0 then (basic, addWarning unusual_format)
  else if (length variableTerms =? 1) && (length allTerms <=? 2) then (basic, noLog)
  else if hasMultipleTerms && (length allTerms <=? 4) then (standard, noLog)
  else if hasDistributivePattern a then (distributive, noLog)
  else if 4 <? length allTerms then (complex, noLog)
  else (standard, noLog).

(** *** Building the result *)

(** [new Set<string>()] filled in order, then [Array.from]. *)
Definition setAdd (s : list str) (v : str) : list str :=
  if existsb (str_eqb v) s then s else s ++ [v].

Definition extractVariablesFromExpressions (expressions : list Expression) : list str :=
  fold_left
    (fun vars expr =>
       fold_left
         (fun vars term =>
            if truthy (variable term) then setAdd vars (orElse (variable term) []) else vars)
         (termsOf expr) vars)
    expressions [].

Definition createEquationAST (l r : Expression) (input : str) : EquationAST :=
  {| left := l;
     right := r;
     metadata := {| originalInput := input;
                    difficultyLevel := beginner;
                    estimatedSteps := 0;
                    requiredOperations := [] |};
     equationType := basic;
     variables := extractVariablesFromExpressions [l; r];
     complexity := 0 |}.

Definition createParseResult (a : option EquationAST) (toks : list Token) (lg : Log)
  : ParseResult :=
  {| ast := a; tokens := toks; errors := log_errors lg; warnings := log_warnings lg |}.

(** [parseEquation].  Nothing inside its [try] block raises, so the
    [catch] clause is never entered. *)
Definition parseEquation (input : str) : ParseResult :=
  let (toks, lg0) := tokenize input in
  match toks with
  | [] => createParseResult None toks (appLog lg0 (addError empty_expression high None))
  | _ :: _ =>
      match findEqualsSign toks with
      | None => createParseResult None toks (appLog lg0 (addError syntax_error high None))
      | Some equalsIndex =>
          let leftTokens := firstn equalsIndex toks in
          let (leftExpression, lg1) := parseExpression leftTokens in
          let rightTokens := skipn (equalsIndex + 1) toks in
          let (rightExpression, lg2) := parseExpression rightTokens in
          let a := createEquationAST leftExpression rightExpression input in
          createParseResult (Some a) toks (appLog lg0 (appLog lg1 lg2))
      end
  end.

End WithConfig.

End Parser.

(* ====================================================================== *)
(** * [Evaluator.ts]: class [ExpressionEvaluator]                          *)
(* ====================================================================== *)

(** What the engine can raise.  [CannotEvaluateTerm v] is the error of
    [evaluateTerm] on a term whose variable [v] has no value;
    [NoVariablesFound] and [NoUniqueSolution] are the two errors of the
    solver; [SolveFailed e] is the error that [solve] raises from its
    [catch] clause around an error [e]. *)
Inductive Exn :=
| CannotEvaluateTerm (v : option str)
| NoVariablesFound
| NoUniqueSolution
| SolveFailed (e : Exn)
| InternalFailure.

Module Evaluator.

(** [term.exponent || 1] *)
Definition exponentOf (term : Term) : nat :=
  match exponent term with
  | Some (S n) => S n
  | _ => 1
  end.

Definition evaluateTerm (term : Term) (v : str) (x : float) : Result Exn float :=
  if isConstant term then Ok (coefficient term)
  else if opt_str_eqb (variable term) (Some v)
       then Ok (PrimFloat.mul (coefficient term) (Math_pow x (exponentOf term)))
       else Throw (CannotEvaluateTerm (variable term)).

(** The [for (const term of expression.terms)] loop, from the running sum. *)
Fixpoint sumTerms (ts : list Term) (v : str) (x : float) (result : float)
  : Result Exn float :=
  match ts with
  | [] => Ok result
  | term :: ts' =>
      bind (evaluateTerm term v x)
           (fun termValue => sumTerms ts' v x (PrimFloat.add result termValue))
  end.

Definition evaluateWithSubstitution (expression : Expression) (v : str) (x : float)
  : Result Exn float :=
  match terms expression with
  | None | Some [] => Ok 0%float
  | Some ts => sumTerms ts v x 0%float
  end.

(** [variable] is [equation.variables[0]] at some call sites, which is
    [undefined] when the equation has no variable. *)
Definition getVariableCoefficient (expression : Expression) (v : option str) : float :=
  match terms expression with
  | None => 0%float
  | Some ts =>
      fold_left
        (fun coefficient' term =>
           if opt_str_eqb (variable term) v
           then PrimFloat.add coefficient' (coefficient term) else coefficient')
        ts 0%float
  end.

Definition getConstantTerm (expression : Expression) : float :=
  match terms expression with
  | None => 0%float
  | Some ts =>
      fold_left
        (fun constant term =>
           if isConstant term then PrimFloat.add constant (coefficient term) else constant)
        ts 0%float
  end.

Definition simplifyExpression (expression : Expression) : Expression :=
  match terms expression with
  | None | Some [] => expression
  | Some ts =>
      {| expr_type := expr_type expression;
         terms := Some (collectLikeTerms ts);
         simplified := Some true |}
  end.

Definition scaleTerm (scalar : float) (term : Term) : Term :=
  {| coefficient := PrimFloat.mul (coefficient term) scalar;
     variable := variable term;
     exponent := exponent term;
     isConstant := isConstant term;
     position := position term |}.

Definition multiplyByScalar (expression : Expression) (scalar : float) : Expression :=
  match terms expression with
  | None => expression
  | Some ts =>
      {| expr_type := expr_type expression;
         terms := Some (map (scaleTerm scalar) ts);
         simplified := Some false |}
  end.

(** *** Several variables at once *)

(** What [evaluateTermWithMultipleVars] raises. *)
Inductive SubstitutionError :=
| TermWithoutVariable
| NoValueFor (v : str).

(** [substitutions[name]] on a plain object of numbers.  An own property
    gives its number.  A property of [Object.prototype] gives a function or
    an object, which is not [undefined] and which [Math.pow] reads as NaN.
    Any other name gives [undefined]. *)
Definition lookupValue (substitutions : Dict float) (name : str) : option float :=
  match own substitutions name with
  | Some variableValue => Some variableValue
  | None => if inherited name then Some PrimFloat.nan else None
  end.

Definition evaluateTermWithMultipleVars (term : Term) (substitutions : Dict float)
  : Result SubstitutionError float :=
  if isConstant term then Ok (coefficient term)
  else
    match variable term with
    | Some (c :: s) =>
        match lookupValue substitutions (c :: s) with
        | Some variableValue =>
            Ok (PrimFloat.mul (coefficient term) (Math_pow variableValue (exponentOf term)))
        | None => Throw (NoValueFor (c :: s))
        end
    | _ => Throw TermWithoutVariable
    end.

Fixpoint sumTermsWithMultipleVars (ts : list Term) (substitutions : Dict float)
    (result : float) : Result SubstitutionError float :=
  match ts with
  | [] => Ok result
  | term :: ts' =>
      bind (evaluateTermWithMultipleVars term substitutions)
           (fun termValue =>
              sumTermsWithMultipleVars ts' substitutions (PrimFloat.add result termValue))
  end.

Definition evaluateWithMultipleSubstitutions (expression : Expression)
    (substitutions : Dict float) : Result SubstitutionError float :=
  match terms expression with
  | None | Some [] => Ok 0%float
  | Some ts => sumTermsWithMultipleVars ts substitutions 0%float
  end.

(** The [for (const values of testValues)] loop of [areExpressionsEquivalent]. *)
Fixpoint areExpressionsEquivalent (expr1 expr2 : Expression) (testValues : list (Dict float))
  : Result SubstitutionError bool :=
  match testValues with
  | [] => Ok true
  | values :: testValues' =>
      bind (evaluateWithMultipleSubstitutions expr1 values) (fun result1 =>
      bind (evaluateWithMultipleSubstitutions expr2 values) (fun result2 =>
        if PrimFloat.ltb EPSILON (Math_abs (PrimFloat.sub result1 result2))
        then Ok false
        else areExpressionsEquivalent expr1 expr2 testValues'))
  end.

Definition verifyEquationSolution (equation : EquationAST) (values : Dict float)
  : Result SubstitutionError bool :=
  bind (evaluateWithMultipleSubstitutions (left equation) values) (fun leftResult =>
  bind (evaluateWithMultipleSubstitutions (right equation) values) (fun rightResult =>
    Ok (PrimFloat.ltb (Math_abs (PrimFloat.sub leftResult rightResult)) EPSILON))).

(** *** Derivatives *)

Definition createZeroExpression : Expression :=
  {| expr_type := binary_operation; terms := Some []; simplified := Some true |}.

(** The number that an exponent stands for. *)
Definition numberOfNat (n : nat) : float :=
  SF2Prim (binary_normalize prec emax (Z.of_nat n) 0 false).

(** One turn of the loop of [differentiate]: the terms it pushes. *)
Definition differentiateTerm (v : str) (term : Term) : list Term :=
  if isConstant term then []
  else if negb (opt_str_eqb (variable term) (Some v)) then []
  else
    let exponent' := exponentOf term in
    if exponent' =? 1
    then [ {| coefficient := coefficient term;
              variable := None;
              exponent := None;
              isConstant := true;
              position := position term |} ]
    else [ {| coefficient := PrimFloat.mul (coefficient term) (numberOfNat exponent');
              variable := variable term;
              exponent := Some (exponent' - 1);
              isConstant := false;
              position := position term |} ].

Definition differentiate (expression : Expression) (v : str) : Expression :=
  match terms expression with
  | None => createZeroExpression
  | Some ts =>
      {| expr_type := binary_operation;
         terms := Some (flat_map (differentiateTerm v) ts);
         simplified := Some false |}
  end.

(** *** Algebra of expressions *)

Definition addExpressions (expr1 expr2 : Expression) : Expression :=
  simplifyExpression
    {| expr_type := binary_operation;
       terms := Some (termsOf expr1 ++ termsOf expr2);
       simplified := Some false |}.

Definition negateExpression (expression : Expression) : Expression :=
  multiplyByScalar expression (-1)%float.

Definition subtractExpressions (expr1 expr2 : Expression) : Expression :=
  addExpressions expr1 (negateExpression expr2).

(** *** Analysis *)

Definition isZeroExpression (expression : Expression) : bool :=
  match terms expression with
  | None | Some [] => true
  | Some _ =>
      forallb (fun term => PrimFloat.ltb (Math_abs (coefficient term)) EPSILON)
              (termsOf (simplifyExpression expression))
  end.

Definition isConstantExpression (expression : Expression) : bool :=
  match terms expression with
  | None | Some [] => true
  | Some ts => forallb (fun term => isConstant term) ts
  end.

(** [new Set<string>()] filled in order, then [Array.from]. *)
Definition getVariables (expression : Expression) : list str :=
  match terms expression with
  | None => []
  | Some ts =>
      fold_left
        (fun variables term =>
           if truthy (variable term) && negb (isConstant term)
           then Parser.setAdd variables (orElse (variable term) [])
           else variables)
        ts []
  end.

(** [getDegree(expression, variable?)]: [v] is [None] when the call leaves
    the variable out. *)
Definition getDegree (expression : Expression) (v : option str) : nat :=
  match terms expression with
  | None | Some [] => 0
  | Some ts =>
      fold_left
        (fun maxDegree term =>
           if isConstant term then maxDegree
           else if truthy v && negb (opt_str_eqb (variable term) v) then maxDegree
           else Nat.max maxDegree (exponentOf term))
        ts 0
  end.

(** *** Test values

    [generateTestValues] draws one number per variable from [Math.random];
    [random k] stands for the outcome of the [k]-th call. *)

(** [values[name] = x] on a plain object of numbers: assigning a number to
    [__proto__] changes nothing. *)
Definition assign (values : Dict float) (name : str) (x : float) : Dict float :=
  if str_eqb name (lit "__proto__") then values
  else match own values name with
       | Some _ => update values name (fun _ => x)
       | None => values ++ [(name, x)]
       end.

Definition testValue (randomNumber : float) : float :=
  let randomValue := PrimFloat.sub (PrimFloat.mul randomNumber 20%float) 10%float in
  PrimFloat.div (Math_round (PrimFloat.mul randomValue 100%float)) 100%float.

(** The inner loop, from the number [k] of calls made so far. *)
Fixpoint fillValues (random : nat -> float) (variables : list str) (k : nat)
    (values : Dict float) : Dict float :=
  match variables with
  | [] => values
  | v :: variables' =>
      fillValues random variables' (S k) (assign values v (testValue (random k)))
  end.

Definition generateTestValues (random : nat -> float) (variables : list str) (count : nat)
  : list (Dict float) :=
  map (fun i => fillValues random variables (i * length variables) []) (seq 0 count).

End Evaluator.

(* ====================================================================== *)
(** * [StepGenerator.ts]: class [StepGenerator]                            *)
(* ====================================================================== *)

Module StepGenerator.

(** [equation.variables[0]] *)
Definition firstVariable (equation : EquationAST) : option str := hd_error (variables equation).

(** *** Transformed expressions *)

Definition createTransposedExpression (equation : EquationAST) : Expression :=
  Evaluator.simplifyExpression (left equation).

Definition createIsolatedExpression (equation : EquationAST) : Expression :=
  {| expr_type := binary_operation;
     terms := Some [ {| coefficient := 1%float;
                        variable := firstVariable equation;
                        exponent := Some 1;
                        isConstant := false;
                        position := {| span_start := 0; span_end := 1 |} |} ];
     simplified := Some true |}.

Definition createDistributedExpression (expression : Expression) : Expression :=
  Evaluator.simplifyExpression expression.

Definition createClearedFractionsExpression (expression : Expression) : Expression :=
  Evaluator.multiplyByScalar expression 2%float.

Definition createVariableTransposedExpression (equation : EquationAST) : Expression :=
  Evaluator.simplifyExpression (left equation).

Definition createConstantTransposedExpression (equation : EquationAST) : Expression :=
  Evaluator.simplifyExpression (left equation).

(** *** Steps *)

Definition createTranspositionStep (equation : EquationAST) : Step :=
  {| step_type := transposition;
     fromExpression := left equation;
     toExpression := createTransposedExpression equation;
     difficulty := 2 |}.

Definition createIsolationStep (equation : EquationAST) : Step :=
  {| step_type := isolation;
     fromExpression := left equation;
     toExpression := createIsolatedExpression equation;
     difficulty := 2 |}.

Definition createCombinationStep (equation : EquationAST) : Step :=
  {| step_type := combination;
     fromExpression := left equation;
     toExpression := Evaluator.simplifyExpression (left equation);
     difficulty := 1 |}.

Definition createDistributiveStep (equation : EquationAST) : Step :=
  {| step_type := distribution;
     fromExpression := left equation;
     toExpression := createDistributedExpression (left equation);
     difficulty := 3 |}.

Definition createClearFractionsStep (equation : EquationAST) : Step :=
  {| step_type := multiplication;
     fromExpression := left equation;
     toExpression := createClearedFractionsExpression (left equation);
     difficulty := 4 |}.

Definition createVariableTranspositionStep (equation : EquationAST) : Step :=
  {| step_type := transposition;
     fromExpression := left equation;
     toExpression := createVariableTransposedExpression equation;
     difficulty := 2 |}.

Definition createConstantTranspositionStep (equation : EquationAST) : Step :=
  {| step_type := transposition;
     fromExpression := left equation;
     toExpression := createConstantTransposedExpression equation;
     difficulty := 2 |}.

(** *** Analysis *)

Definition needsTermTransposition (equation : EquationAST) : bool :=
  let rightConstant := Evaluator.getConstantTerm (right equation) in
  let rightVariable :=
    Evaluator.getVariableCoefficient (right equation) (firstVariable equation) in
  PrimFloat.ltb EPSILON (Math_abs rightConstant)
  || PrimFloat.ltb EPSILON (Math_abs rightVariable).

Definition needsTermCombination (equation : EquationAST) : bool :=
  let leftTerms := termsOf (left equation) in
  let rightTerms := termsOf (right equation) in
  let variableTermsLeft := length (filter (fun t => negb (isConstant t)) leftTerms) in
  let constantTermsLeft := length (filter (fun t => isConstant t) leftTerms) in
  let variableTermsRight := length (filter (fun t => negb (isConstant t)) rightTerms) in
  let constantTermsRight := length (filter (fun t => isConstant t) rightTerms) in
  (1 <? variableTermsLeft) || (1 <? constantTermsLeft)
  || (1 <? variableTermsRight) || (1 <? constantTermsRight).

Definition needsDistribution (equation : EquationAST) : bool :=
  existsb (fun term => negb (isConstant term)
                       && PrimFloat.ltb 1 (Math_abs (coefficient term)))
          (termsOf (left equation) ++ termsOf (right equation)).

Definition hasAlternativeMethod (equation : EquationAST) : bool :=
  match equationType equation with
  | distributive | complex | fractional => true
  | _ => false
  end.

(** [applyStep] returns the equation it was given. *)
Definition applyStep (equation : EquationAST) : EquationAST := equation.

(** *** Generators by equation type *)

Definition generateBasicSteps (equation : EquationAST) : list Step :=
  let currentEquation := equation in
  let '(steps1, currentEquation) :=
    if needsTermTransposition currentEquation
    then ([createTranspositionStep currentEquation], applyStep currentEquation)
    else ([], currentEquation) in
  steps1 ++ [createIsolationStep currentEquation].

Definition generateStandardSteps (equation : EquationAST) : list Step :=
  let currentEquation := equation in
  let '(steps1, currentEquation) :=
    if needsTermCombination currentEquation
    then ([createCombinationStep currentEquation], applyStep currentEquation)
    else ([], currentEquation) in
  let transposeVariableStep := createVariableTranspositionStep currentEquation in
  let currentEquation := applyStep currentEquation in
  let transposeConstantStep := createConstantTranspositionStep currentEquation in
  let currentEquation := applyStep currentEquation in
  let isolationStep := createIsolationStep currentEquation in
  steps1 ++ [transposeVariableStep; transposeConstantStep; isolationStep].

Definition generateDistributiveSteps (equation : EquationAST) : list Step :=
  let currentEquation := equation in
  let '(steps1, currentEquation) :=
    if needsDistribution currentEquation
    then ([createDistributiveStep currentEquation], applyStep currentEquation)
    else ([], currentEquation) in
  let combineStep := createCombinationStep currentEquation in
  let currentEquation := applyStep currentEquation in
  steps1 ++ [combineStep] ++ generateStandardSteps currentEquation.

Definition generateComplexSteps (equation : EquationAST) : list Step :=
  generateDistributiveSteps equation.

Definition generateFractionalSteps (equation : EquationAST) : list Step :=
  let currentEquation := equation in
  let clearFractionsStep := createClearFractionsStep currentEquation in
  let currentEquation := applyStep currentEquation in
  [clearFractionsStep] ++ generateStandardSteps currentEquation.

(** None of the generators raises on a typed equation, so the outcome of
    [analyzeAndGenerateSteps] is always [Ok]. *)
Definition analyzeAndGenerateSteps (equation : EquationAST) : Result Exn (list Step) :=
  Ok match equationType equation with
     | basic => generateBasicSteps equation
     | standard => generateStandardSteps equation
     | distributive => generateDistributiveSteps equation
     | complex => generateComplexSteps equation
     | fractional => generateFractionalSteps equation
     | multi_step => generateStandardSteps equation
     end.

Definition timePerStep (t : OperationType) : nat :=
  match t with
  | transposition => 45
  | combination => 30
  | distribution => 60
  | isolation => 30
  | multiplication => 50
  | _ => 40
  end.

Definition estimateTimeForSteps (ss : list Step) : nat :=
  fold_left (fun totalTime step => totalTime + timePerStep (step_type step) * difficulty step)
            ss 0.

Definition generateFallbackSteps (equation : EquationAST) : list Step :=
  [ {| step_type := combination;
       fromExpression := left equation;
       toExpression := right equation;
       difficulty := 1 |} ].

(** [generateOptimalSequence], with the outcome of the [try] block's first
    statement as a parameter: [analyze] stands for
    [this.analyzeAndGenerateSteps]. *)
Definition generateOptimalSequenceWith
    (analyze : EquationAST -> Result Exn (list Step)) (equation : EquationAST)
  : Result Exn StepSequence :=
  tryCatch
    (bind (analyze equation)
          (fun ss =>
             Ok {| steps := ss;
                   isOptimal := true;
                   estimatedTime := estimateTimeForSteps ss;
                   alternativeExists := hasAlternativeMethod equation |}))
    (fun _ =>
       Ok {| steps := generateFallbackSteps equation;
             isOptimal := false;
             estimatedTime := 300;
             alternativeExists := false |}).

Definition generateOptimalSequence (equation : EquationAST) : Result Exn StepSequence :=
  generateOptimalSequenceWith analyzeAndGenerateSteps equation.

End StepGenerator.

(* ====================================================================== *)
(** * [Validator.ts]: class [EquationValidator], the input checks          *)
(* ====================================================================== *)

Module Validator.

Definition mkError (t : ErrorType) (s : Severity) (p : option Span) : EquationError :=
  {| err_type := t; err_severity := s; err_position := p |}.

(** [input.trim().length === 0] *)
Definition checkEmptyInput (input : str) : list EquationError :=
  if forallb isSpace input then [mkError empty_expression critical None] else [].

(** One character of the class [[0-9a-zA-Z+\-*/=().\s]]. *)
Definition isValidChar (c : ascii) : bool :=
  isDigit c || isLetter c || isSpace c
  || existsb (Ascii.eqb c) ["+"; "-"; "*"; "/"; "="; "("; ")"; "."]%char.

Definition checkValidCharacters (input : str) : list EquationError :=
  if forallb isValidChar input then [] else [mkError invalid_character high None].

(** [(input.match(/=/g) || []).length] *)
Definition equalsCount (input : str) : nat :=
  length (filter (Ascii.eqb "="%char) input).

Definition checkEqualsSign (input : str) : list EquationError :=
  let n := equalsCount input in
  if n =? 0 then [mkError syntax_error high None]
  else if 1 <? n then [mkError syntax_error high None]
  else [].

(** The loop of [checkParenthesesBalance], from the current [balance] and
    [position]. *)
Fixpoint balanceFrom (rest : str) (balance position : nat) : list EquationError :=
  match rest with
  | [] => if 0 <? balance then [mkError mismatched_parentheses high None] else []
  | char :: rest' =>
      if Ascii.eqb char "("%char then balanceFrom rest' (S balance) (S position)
      else if Ascii.eqb char ")"%char then
        match balance with
        | O => [mkError mismatched_parentheses high
                  (Some {| span_start := position; span_end := position + 1 |})]
        | S b => balanceFrom rest' b (S position)
        end
      else balanceFrom rest' balance (S position)
  end.

Definition checkParenthesesBalance (input : str) : list EquationError :=
  balanceFrom input 0 0.

Definition isOperatorChar (c : ascii) : bool :=
  existsb (Ascii.eqb c) ["+"; "-"; "*"; "/"]%char.

(** [input.match(/[+\-*/]{2,}/g)]: the maximal runs of two or more operator
    characters, left to right; [run] is the run being read. *)
Fixpoint operatorRuns (rest : str) (run : str) : list str :=
  let close := if 2 <=? length run then [run] else [] in
  match rest with
  | [] => close
  | c :: rest' =>
      if isOperatorChar c then operatorRuns rest' (run ++ [c])
      else close ++ operatorRuns rest' []
  end.

Definition checkConsecutiveOperators (input : str) : Log :=
  fold_left
    (fun lg m =>
       if str_eqb m (lit "--") || str_eqb m (lit "++")
       then appLog lg (addWarning can_be_simplified)
       else appLog lg (addError syntax_error medium None))
    (operatorRuns input []) noLog.

Definition checkVariableUsage (input : str) : list EquationWarning :=
  let vars := filter isLetter input in
  let uniqueVariables := fold_left (fun s c => Parser.setAdd s [c]) vars [] in
  map (fun _ => {| warn_type := unusual_format |})
      (filter (fun v => negb (isSupportedVariable v)) uniqueVariables)
  ++ (if 1 <? length uniqueVariables then [ {| warn_type := high_complexity |} ] else []).

Definition validateInput (input : str) : ValidationResult :=
  let ops := checkConsecutiveOperators input in
  let errs :=
    checkEmptyInput input ++ checkValidCharacters input ++ checkEqualsSign input
    ++ checkParenthesesBalance input ++ log_errors ops in
  {| vr_isValid := length errs =? 0;
     vr_errors := errs;
     vr_warnings := log_warnings ops ++ checkVariableUsage input |}.

(** *** Steps of a student *)

Definition OperationType_eqb (a b : OperationType) : bool :=
  match a, b with
  | addition, addition | subtraction, subtraction | multiplication, multiplication
  | division, division | distribution, distribution | combination, combination
  | transposition, transposition | isolation, isolation => true
  | _, _ => false
  end.

(** The loop of [validateTranspositionStep]: it evaluates both sides at
    every test value and does nothing with the outcome. *)
Fixpoint validateTranspositionStep (equation : EquationAST) (testValues : list (Dict float))
  : Result Evaluator.SubstitutionError bool :=
  match testValues with
  | [] => Ok true
  | values :: testValues' =>
      bind (Evaluator.evaluateWithMultipleSubstitutions (left equation) values)
        (fun originalLeft =>
      bind (Evaluator.evaluateWithMultipleSubstitutions (right equation) values)
        (fun originalRight =>
           validateTranspositionStep equation testValues'))
  end.

Definition validateCombinationStep (step : Step) (testValues : list (Dict float))
  : Result Evaluator.SubstitutionError bool :=
  Evaluator.areExpressionsEquivalent (fromExpression step) (toExpression step) testValues.

Definition validateDistributionStep (step : Step) (testValues : list (Dict float))
  : Result Evaluator.SubstitutionError bool :=
  Evaluator.areExpressionsEquivalent (fromExpression step) (toExpression step) testValues.

Definition validateIsolationStep (step : Step) : bool :=
  let variableTerms := filter (fun term => negb (isConstant term))
                              (termsOf (toExpression step)) in
  match variableTerms with
  | [term] => PrimFloat.ltb (Math_abs (PrimFloat.sub (coefficient term) 1%float)) EPSILON
  | _ => false
  end.

(** [validateMathematicalStep]; [random] stands for [Math.random], which
    [generateTestValues] calls. *)
Definition validateMathematicalStep (random : nat -> float) (equation : EquationAST)
    (step : Step) : bool :=
  let testValues := Evaluator.generateTestValues random (variables equation) 5 in
  let body :=
    match step_type step with
    | transposition => validateTranspositionStep equation testValues
    | combination => validateCombinationStep step testValues
    | distribution => validateDistributionStep step testValues
    | isolation => Ok (validateIsolationStep step)
    | _ => Ok true
    end in
  match body with
  | Ok b => b
  | Throw _ => false
  end.

(** [[{ x: 1 }, { x: 2 }, { x: -1 }]] *)
Definition fixedTestValues : list (Dict float) :=
  [ [(lit "x", 1%float)]; [(lit "x", 2%float)]; [(lit "x", (-1)%float)] ].

Definition stepsAreEquivalent (step1 step2 : Step) : bool :=
  if negb (OperationType_eqb (step_type step1) (step_type step2)) then false
  else
    match Evaluator.areExpressionsEquivalent (toExpression step1) (toExpression step2)
            fixedTestValues with
    | Ok b => b
    | Throw _ => false
    end.

Definition isStepInExpectedSequence (attemptedStep : Step) (expectedSteps : list Step) : bool :=
  existsb (fun expected =>
             OperationType_eqb (step_type expected) (step_type attemptedStep)
             && stepsAreEquivalent expected attemptedStep)
          expectedSteps.

(** What [canBeSimplified] raises: [termsByVariable[key].push] on a key that
    [Object.prototype] provides is a call of [undefined]. *)
Inductive TypeError := PushIsNotAFunction (key : str).

(** One turn of the [forEach] of [canBeSimplified]. *)
Definition pushByVariable (termsByVariable : Dict (list Term)) (term : Term)
  : Result TypeError (Dict (list Term)) :=
  let key := termKey term in
  match own termsByVariable key with
  | Some _ => Ok (update termsByVariable key (fun l => l ++ [term]))
  | None =>
      if inherited key then Throw (PushIsNotAFunction key)
      else Ok (termsByVariable ++ [(key, [term])])
  end.

Fixpoint pushAllByVariable (ts : list Term) (termsByVariable : Dict (list Term))
  : Result TypeError (Dict (list Term)) :=
  match ts with
  | [] => Ok termsByVariable
  | term :: ts' =>
      bind (pushByVariable termsByVariable term) (pushAllByVariable ts')
  end.

Definition canBeSimplified (expression : Expression) : Result TypeError bool :=
  match terms expression with
  | None | Some [] | Some [_] => Ok false
  | Some ts =>
      bind (pushAllByVariable ts [])
           (fun termsByVariable =>
              Ok (existsb (fun l => 1 <? length l) (Object_values termsByVariable)))
  end.

Definition validateStepComplexity (step : Step) : Result TypeError (list EquationWarning) :=
  let w1 := if 4 <? difficulty step then [ {| warn_type := high_complexity |} ] else [] in
  if OperationType_eqb (step_type step) combination
  then bind (canBeSimplified (toExpression step))
            (fun b => Ok (w1 ++ if b then [ {| warn_type := can_be_simplified |} ] else []))
  else Ok w1.

Definition validateStudentStep (random : nat -> float) (currentEquation : EquationAST)
    (attemptedStep : Step) (expectedSteps : list Step) : Result TypeError ValidationResult :=
  let isMathematicallyValid := validateMathematicalStep random currentEquation attemptedStep in
  let errs := if negb isMathematicallyValid then [mkError syntax_error high None] else [] in
  let isInExpectedSequence := isStepInExpectedSequence attemptedStep expectedSteps in
  let w0 := if negb isInExpectedSequence then [ {| warn_type := unusual_format |} ] else [] in
  bind (validateStepComplexity attemptedStep)
       (fun ws =>
          Ok {| vr_isValid := length errs =? 0;
                vr_errors := errs;
                vr_warnings := w0 ++ ws |}).

End Validator.

(* ====================================================================== *)
(** * [EquationEngine.ts] (frontend): class [EquationEngine]               *)
(* ====================================================================== *)

Module Engine.

Section WithConfig.

Variable config : EngineConfig.

(** *** Analysis of a parsed equation *)

Definition extractVariables (a : EquationAST) : list str :=
  Parser.extractVariablesFromExpressions [left a; right a].

Definition typeComplexity (t : EquationType) : nat :=
  match t with
  | basic => 1 | standard => 2 | distributive => 3
  | complex => 5 | fractional => 4 | multi_step => 6
  end.

Definition calculateComplexity (a : EquationAST) : nat :=
  let leftTerms := length (termsOf (left a)) in
  let rightTerms := length (termsOf (right a)) in
  Nat.min (leftTerms + rightTerms + typeComplexity (equationType a)) 10.

Definition baseSteps (t : EquationType) : nat :=
  match t with
  | basic => 2 | standard => 3 | distributive => 4
  | complex => 6 | fractional => 5 | multi_step => 8
  end.

Definition estimateSteps (a : EquationAST) : nat :=
  let steps0 := baseSteps (equationType a) in
  let steps1 := if 5 <? complexity a then steps0 + Nat.div (complexity a) 2 else steps0 in
  Nat.min steps1 (maxSteps config).

Definition analyzeRequiredOperations (a : EquationAST) : list OperationType :=
  match equationType a with
  | basic => [transposition; isolation]
  | standard => [transposition; combination; isolation]
  | distributive => [distribution; combination; transposition; isolation]
  | complex => [distribution; combination; transposition; isolation]
  | fractional => [multiplication; combination; isolation]
  | multi_step => [combination; transposition; isolation]
  end.

(** [enhanceAST] copies [ast] and computes every new field from [ast]
    itself, not from the copy.  [detectEquationType] may push a warning
    onto the parser's array, which the parse result shares. *)
Definition enhanceAST (a : EquationAST) : Logged EquationAST :=
  let (ty, lg) := Parser.detectEquationType a in
  ({| left := left a;
      right := right a;
      metadata := {| originalInput := originalInput (metadata a);
                     difficultyLevel := difficultyLevel (metadata a);
                     estimatedSteps := estimateSteps a;
                     requiredOperations := analyzeRequiredOperations a |};
      equationType := ty;
      variables := extractVariables a;
      complexity := calculateComplexity a |}, lg).

(** [parse].  None of its callees raises, so its [catch] clause is never
    entered. *)
Definition parse (equation : str) : ParseResult :=
  let validation := Validator.validateInput equation in
  if negb (vr_isValid validation) then
    {| ast := None; tokens := [];
       errors := vr_errors validation; warnings := vr_warnings validation |}
  else
    let result := Parser.parseEquation config equation in
    match ast result with
    | Some a =>
        let (enhanced, lg) := enhanceAST a in
        {| ast := Some enhanced; tokens := tokens result;
           errors := errors result ++ log_errors lg;
           warnings := warnings result ++ log_warnings lg |}
    | None => result
    end.

(** *** Solving *)

Definition generateSteps (equation : EquationAST) : Result Exn StepSequence :=
  StepGenerator.generateOptimalSequence equation.

(** The two [forEach] loops of [solveMathematically]: the pair is
    [(variableCoeff, constantTerm)]. *)
Definition accumulateLeft (v : str) (acc : float * float) (term : Term) : float * float :=
  let (variableCoeff, constantTerm) := acc in
  if opt_str_eqb (variable term) (Some v)
  then (PrimFloat.add variableCoeff (coefficient term), constantTerm)
  else if isConstant term
       then (variableCoeff, PrimFloat.add constantTerm (coefficient term))
       else acc.

Definition accumulateRight (v : str) (acc : float * float) (term : Term) : float * float :=
  let (variableCoeff, constantTerm) := acc in
  if opt_str_eqb (variable term) (Some v)
  then (PrimFloat.sub variableCoeff (coefficient term), constantTerm)
  else if isConstant term
       then (variableCoeff, PrimFloat.sub constantTerm (coefficient term))
       else acc.

Definition accumulated (equation : EquationAST) (v : str) : float * float :=
  fold_left (accumulateRight v) (termsOf (right equation))
    (fold_left (accumulateLeft v) (termsOf (left equation)) (0%float, 0%float)).

Definition solveMathematically (equation : EquationAST) (v : str) : Result Exn float :=
  let (variableCoeff, constantTerm) := accumulated equation v in
  if PrimFloat.ltb (Math_abs variableCoeff) EPSILON
  then Throw NoUniqueSolution
  else Ok (PrimFloat.div (PrimFloat.opp constantTerm) variableCoeff).

Definition determineSolutionMethod (equation : EquationAST) : SolutionMethod :=
  match equationType equation with
  | basic => direct_isolation
  | distributive => distribution_first
  | fractional => cross_multiplication
  | _ => combination_first
  end.

(** A [Solution] before [verificationsSteps] and [confidence] are known. *)
Record PartialSolution := {
  ps_variable : str;
  ps_value : float;
  ps_steps : list Step;
  ps_solutionMethod : SolutionMethod
}.

Definition applySolutionSteps (equation : EquationAST) (ss : list Step)
  : Result Exn PartialSolution :=
  match variables equation with
  | [] => Throw NoVariablesFound
  | v :: _ =>
      bind (solveMathematically equation v)
           (fun finalValue =>
              Ok {| ps_variable := v;
                    ps_value := finalValue;
                    ps_steps := ss;
                    ps_solutionMethod := determineSolutionMethod equation |})
  end.

Definition verifySolution (equation : EquationAST) (solution : PartialSolution)
  : Result Exn (list VerificationStep) :=
  bind (Evaluator.evaluateWithSubstitution (left equation)
          (ps_variable solution) (ps_value solution))
    (fun leftResult =>
  bind (Evaluator.evaluateWithSubstitution (right equation)
          (ps_variable solution) (ps_value solution))
    (fun rightResult =>
       let tolerance := EPSILON in
       Ok [ {| leftSideResult := leftResult;
               rightSideResult := rightResult;
               isValid := PrimFloat.ltb (Math_abs (PrimFloat.sub leftResult rightResult))
                                        tolerance |} ])).

Definition methodBonus (m : SolutionMethod) : float :=
  match m with
  | direct_isolation => 0.2
  | distribution_first => 0.15
  | combination_first => 0.1
  | cross_multiplication => 0.15
  | elimination => 0.05
  end%float.

Definition calculateConfidence (solution : PartialSolution)
    (verification : list VerificationStep) : float :=
  match verification with
  | [] => 0%float
  | _ :: _ =>
      if negb (forallb isValid verification) then 0%float
      else Math_min (PrimFloat.add 0.8%float (methodBonus (ps_solutionMethod solution)))
                    1.0%float
  end.

Definition solve (equation : EquationAST) : Result Exn Solution :=
  tryCatch
    (bind (generateSteps equation) (fun stepSequence =>
     bind (applySolutionSteps equation (steps stepSequence)) (fun solution =>
     bind (verifySolution equation solution) (fun verification =>
       Ok {| sol_variable := ps_variable solution;
             value := ps_value solution;
             sol_steps := ps_steps solution;
             verificationsSteps := verification;
             solutionMethod := ps_solutionMethod solution;
             confidence := calculateConfidence solution verification |}))))
    (fun e => Throw (SolveFailed e)).

(** *** Steps of a student *)

(** [random] stands for [Math.random], which the validator calls to draw
    its test values. *)
Definition validateStep (random : nat -> float) (currentEquation : EquationAST)
    (attemptedStep : Step) (expectedSteps : list Step)
  : Result Validator.TypeError ValidationResult :=
  Validator.validateStudentStep random currentEquation attemptedStep expectedSteps.

Definition getEquationType (equation : EquationAST) : Logged EquationType :=
  Parser.detectEquationType equation.

End WithConfig.

End Engine.

(* ====================================================================== *)
(** * [backend/src/engines/EquationEngine.ts]: the backend solver          *)
(* ====================================================================== *)

Module Backend.

(** The three sums of [solveMockEquation]. *)
Definition leftSums (ts : list Term) : float * float :=
  fold_left
    (fun (acc : float * float) term =>
       let (variableCoeff, leftConstant) := acc in
       if isConstant term
       then (variableCoeff, PrimFloat.add leftConstant (coefficient term))
       else (PrimFloat.add variableCoeff (coefficient term), leftConstant))
    ts (0%float, 0%float).

Definition rightSum (ts : list Term) : float :=
  fold_left
    (fun rightConstant term =>
       if isConstant term then PrimFloat.add rightConstant (coefficient term)
       else rightConstant)
    ts 0%float.

Definition solveMockEquation (equation : EquationAST) : float :=
  let (variableCoeff, leftConstant) := leftSums (termsOf (left equation)) in
  let rightConstant := rightSum (termsOf (right equation)) in
  if PrimFloat.ltb (Math_abs variableCoeff) 0.001%float
  then 0%float
  else
    let result := PrimFloat.div (PrimFloat.sub rightConstant leftConstant) variableCoeff in
    PrimFloat.div (Math_round (PrimFloat.mul result 1000%float)) 1000%float.

(** [solve] has no [try] and none of its statements raises. *)
Definition solve (equation : EquationAST) : Result Exn Solution :=
  let v := match variables equation with
           | (c :: s) :: _ => c :: s
           | _ => lit "x"
           end in
  let x := solveMockEquation equation in
  let simulated := PrimFloat.add (PrimFloat.mul x 2%float) 3%float in
  Ok {| sol_variable := v;
        value := x;
        sol_steps := [];
        verificationsSteps :=
          [ {| leftSideResult := simulated;
               rightSideResult := 7%float;
               isValid := PrimFloat.ltb (Math_abs (PrimFloat.sub simulated 7%float))
                                        0.001%float |} ];
        solutionMethod := direct_isolation;
        confidence := 0.95%float |}.

(** *** The mock parser *)

Definition detectSimpleType (input : str) : EquationType :=
  if existsb (Ascii.eqb "("%char) input && existsb (Ascii.eqb ")"%char) input
  then distributive
  else
    match split "="%char input with
    | [side0; side1] =>
        let leftHasVar := existsb isLetter side0 in
        let rightHasVar := existsb isLetter side1 in
        if leftHasVar && rightHasVar then standard
        else if leftHasVar || rightHasVar then basic
        else basic
    | _ => basic
    end.

(** [new Set<string>()] filled in order with the lower-case form of every
    letter of the input, then [Array.from]. *)
Definition extractSimpleVariables (input : str) : list str :=
  fold_left
    (fun variables' m =>
       if negb (Ascii.eqb (toLowerCase m) (toUpperCase m))
       then Parser.setAdd variables' [toLowerCase m]
       else variables')
    (filter isLetter input) [].

Definition basicTerms : list Term :=
  [ {| coefficient := 2%float; variable := Some (lit "x"); exponent := None;
       isConstant := false; position := {| span_start := 0; span_end := 2 |} |};
    {| coefficient := 3%float; variable := None; exponent := None;
       isConstant := true; position := {| span_start := 4; span_end := 5 |} |} ].

Definition mockAST (input : str) : EquationAST :=
  {| left := {| expr_type := binary_operation; terms := Some basicTerms;
                simplified := Some false |};
     right := {| expr_type := binary_operation;
                 terms := Some [ {| coefficient := 7%float; variable := None;
                                    exponent := None; isConstant := true;
                                    position := {| span_start := 8; span_end := 9 |} |} ];
                 simplified := Some false |};
     metadata := {| originalInput := input;
                    difficultyLevel := beginner;
                    estimatedSteps := 3;
                    requiredOperations := [transposition; isolation] |};
     equationType := detectSimpleType input;
     variables := extractSimpleVariables input;
     complexity := 2 |}.

Definition parse (input : str) : ParseResult :=
  {| ast := Some (mockAST input); tokens := []; errors := []; warnings := [] |}.

Definition generateSteps (equation : EquationAST) : StepSequence :=
  {| steps := [ {| step_type := transposition;
                   fromExpression := left equation;
                   toExpression := left equation;
                   difficulty := 2 |};
                {| step_type := isolation;
                   fromExpression := left equation;
                   toExpression := left equation;
                   difficulty := 1 |} ];
     isOptimal := true;
     estimatedTime := 90;
     alternativeExists := false |}.

Definition validateStep (equation : EquationAST) (attemptedStep : Step)
    (expectedSteps : list Step) : ValidationResult :=
  let isValidType :=
    existsb (fun step => Validator.OperationType_eqb (step_type step) (step_type attemptedStep))
            expectedSteps in
  {| vr_isValid := isValidType;
     vr_errors := if isValidType then [] else [Validator.mkError syntax_error medium None];
     vr_warnings := [] |}.

End Backend.

(* ====================================================================== *)
(** * [backend/src/services/EquationService.ts]: the cache key             *)
(* ====================================================================== *)

Module EquationService.

(** [ToInt32] on an integer: the representative of [n] modulo 2^32 between
    -2^31 and 2^31 - 1. *)
Definition toInt32 (n : Z) : Z := ((n + 2147483648) mod 4294967296 - 2147483648)%Z.

(** [n << k], for [0 <= k < 32]. *)
Definition shiftLeft (n k : Z) : Z := toInt32 (Z.shiftl (toInt32 n) k).

(** One turn of the loop of [hashString]:
    [hash = ((hash << 5) - hash) + char; hash = hash & hash]. *)
Definition hashStep (hash : Z) (char : ascii) : Z :=
  let hash' := (shiftLeft hash 5 - hash + Z.of_nat (code char))%Z in
  toInt32 hash'.

(** The number that [hashString] prints. *)
Definition hashNumber (s : str) : Z := Z.abs (fold_left hashStep s 0%Z).

(** [n.toString()] for an integer [n >= 0]. *)
Definition toString (n : Z) : str :=
  list_ascii_of_string (NilEmpty.string_of_uint (N.to_uint (Z.to_N n))).

Definition hashString (s : str) : str := toString (hashNumber s).

(** [input.toLowerCase().replace(/\s+/g, '')], on a string whose code units
    are all below 256: there [toLowerCase] works one character at a time
    and [\s] matches TAB, LF, VT, FF, CR, space and NBSP. *)
Definition normalized (input : str) : str :=
  filter (fun c => negb (isSpace c)) (map toLowerCase input).

Definition generateCacheKey (input : str) : str :=
  lit "equation:" ++ hashString (normalized input).

End EquationService.

(* ====================================================================== *)
(** * Definitions used by the statements below                             *)
(* ====================================================================== *)

(** ** The classifier as the specification words it *)

Definition variableTermCount (a : EquationAST) : nat :=
  length (filter (fun t => negb (isConstant t)) (termsOf (left a) ++ termsOf (right a))).

Definition totalTermCount (a : EquationAST) : nat :=
  length (termsOf (left a) ++ termsOf (right a)).

(** Some non-constant term has [|coefficient| > 1]. *)
Definition hasLargeVariableTerm (a : EquationAST) : bool :=
  existsb (fun t => negb (isConstant t) && PrimFloat.ltb 1 (Math_abs (coefficient t)))
          (termsOf (left a) ++ termsOf (right a)).

(** The rules of the specification, first match wins:
    - zero variable terms: [basic];
    - exactly one variable term and at most 2 terms: [basic];
    - more than one variable term and at most 4 terms: [standard];
    - at least 3 terms, one of them a variable term with [|coefficient| > 1]:
      [distributive];
    - more than 4 terms: [complex];
    - otherwise [standard]. *)
Definition classifyBySpec (a : EquationAST) : EquationType :=
  match variableTermCount a, totalTermCount a with
  | 0, _ => basic
  | 1, (0 | 1 | 2) => basic
  | S (S _), (0 | 1 | 2 | 3 | 4) => standard
  | _, n =>
      if (3 <=? n) && hasLargeVariableTerm a then distributive
      else if 4 <? n then complex
      else standard
  end.

(** The warning that goes with the first rule. *)
Definition warningBySpec (a : EquationAST) : list EquationWarning :=
  match variableTermCount a with
  | 0 => [ {| warn_type := unusual_format |} ]
  | _ => []
  end.

(** ** Like terms and simplified expressions as the specification words them *)

Definition opt_nat_eqb (a b : option nat) : bool :=
  match a, b with
  | Some x, Some y => x =? y
  | None, None => true
  | _, _ => false
  end.

(** Two terms are like terms iff both are constant, or both have the same
    variable and exponent. *)
Definition likeTerms (s t : Term) : bool :=
  (isConstant s && isConstant t)
  || (negb (isConstant s) && negb (isConstant t)
      && opt_str_eqb (variable s) (variable t)
      && opt_nat_eqb (exponent s) (exponent t)).

Fixpoint noLikeTerms (ts : list Term) : bool :=
  match ts with
  | [] => true
  | t :: ts' => negb (existsb (likeTerms t) ts') && noLikeTerms ts'
  end.

(** No term's coefficient has absolute value at or below 1e-10. *)
Definition noSmallCoefficient (ts : list Term) : bool :=
  forallb (fun t => negb (PrimFloat.leb (Math_abs (coefficient t)) EPSILON)) ts.

Definition alreadySimplified (e : Expression) : bool :=
  noLikeTerms (termsOf e) && noSmallCoefficient (termsOf e).

(** ** Equals signs *)

Definition eqChar : ascii := "="%char.

Definition hasEqualsToken (toks : list Token) : Prop :=
  exists t, In t toks /\ tok_type t = EQUALS.

(** ** The string form of [a*v + b = 0] *)

(** An unsigned decimal numeral: one digit or more, then optionally a point
    and any number of digits. *)
Definition isNumeral (s : str) : bool :=
  match takeDigits s with
  | (_ :: _, []) => true
  | (_ :: _, c :: r) => Ascii.eqb c "."%char && forallb isDigit r
  | _ => false
  end.

(** [a v + b = 0], with a minus sign in front when the coefficient is
    negative; [a] and [b] are numerals and [v] is the letter of the variable. *)
Definition linearEquationString (negative : bool) (a : str) (v : ascii) (b : str) : str :=
  (if negative then lit "-" else []) ++ a ++ [v] ++ lit " + " ++ b ++ lit " = 0".

(** The number that a numeral with its sign stands for. *)
Definition signedValue (negative : bool) (a : str) : float :=
  if negative then PrimFloat.opp (parseFloat a) else parseFloat a.

(** A character that ends a number whatever came before it. *)
Definition endsNumber (c : ascii) : bool :=
  negb (isDigit c) && negb (Ascii.eqb c "."%char).

(** The two terms that the parser builds from [a v + b]. *)
Definition parsedVariableTerm (negative : bool) (a : str) (v : ascii) (p : Span) : Term :=
  {| coefficient := PrimFloat.mul (if negative then (-1)%float else 1%float) (parseFloat a);
     variable := Some [v];
     exponent := Some 1;
     isConstant := false;
     position := p |}.

Definition parsedConstantTerm (b : str) (p : Span) : Term :=
  {| coefficient := PrimFloat.mul 1%float (parseFloat b);
     variable := None;
     exponent := None;
     isConstant := true;
     position := p |}.

(** No two operator characters stand next to each other in [s]; [previous]
    tells whether the character before [s] is an operator character. *)
Fixpoint noOperatorPair (previous : bool) (s : str) : bool :=
  match s with
  | [] => true
  | c :: s' =>
      if Validator.isOperatorChar c then negb previous && noOperatorPair true s'
      else noOperatorPair false s'
  end.

(** The characters of a numeral. *)
Definition numeralChar (c : ascii) : bool := isDigit c || Ascii.eqb c "."%char.

(** The characters of [linearEquationString]. *)
Definition equationChar (c : ascii) : bool :=
  numeralChar c || isLetter c
  || existsb (Ascii.eqb c) [" "; "+"; "-"; "="]%char.

(** ** Term lists that grouping leaves alone

    The grouping keys of the terms are pairwise different, none of them is a
    property of [Object.prototype] or an array index, and every coefficient
    passes the filter. *)
Definition plainKey (k : str) : bool := negb (inherited k) && negb (isArrayIndex k).

Definition distinctKeys (ts : list Term) : Prop :=
  NoDup (map termKey ts)
  /\ forallb (fun t => plainKey (termKey t)) ts = true
  /\ forallb keepsTerm ts = true.

(** ** The tokenizer without its fuel *)

Definition tokensFrom (config : EngineConfig) (rest : str) (position : nat)
  : Logged (list Token) :=
  Parser.tokenizeFrom config (length rest) rest position.

Definition mkToken (ty : TokenType) (text : str) (from to : nat) : Token :=
  {| tok_type := ty; tok_value := text;
     tok_position := {| span_start := from; span_end := to |} |}.

(** ** Parsing and solving a string in one go *)

Definition solveString (input : string) : option (str * float * EquationType) :=
  match ast (Engine.parse DEFAULT_ENGINE_CONFIG (lit input)) with
  | Some equation =>
      match Engine.solve equation with
      | Ok sol => Some (sol_variable sol, value sol, equationType equation)
      | Throw _ => None
      end
  | None => None
  end.

(** ** Equations used as examples *)

Definition variableTerm (c : float) (v : string) (e : nat) : Term :=
  {| coefficient := c; variable := Some (lit v); exponent := Some e;
     isConstant := false; position := {| span_start := 0; span_end := 0 |} |}.

Definition constantTerm (c : float) : Term :=
  {| coefficient := c; variable := None; exponent := None;
     isConstant := true; position := {| span_start := 0; span_end := 0 |} |}.

Definition expressionOf (ts : list Term) : Expression :=
  {| expr_type := binary_operation; terms := Some ts; simplified := Some false |}.

Definition equationOf (l r : list Term) (ty : EquationType) (vars : list string)
  : EquationAST :=
  {| left := expressionOf l;
     right := expressionOf r;
     metadata := {| originalInput := []; difficultyLevel := beginner;
                    estimatedSteps := 0; requiredOperations := [] |};
     equationType := ty;
     variables := map lit vars;
     complexity := 0 |}.

(** [0x + 3 = 7]: the variable has coefficient zero. *)
Definition zeroCoefficientEquation : EquationAST :=
  equationOf [variableTerm 0 "x" 1; constantTerm 3] [constantTerm 7] basic ["x"%string].

(** [x + 3 = x + 7]: the variable cancels. *)
Definition cancellingEquation : EquationAST :=
  equationOf [variableTerm 1 "x" 1; constantTerm 3] [variableTerm 1 "x" 1; constantTerm 7]
             standard ["x"%string].

(** [2x = 10] *)
Definition twoXEqualsTen : EquationAST :=
  equationOf [variableTerm 2 "x" 1] [constantTerm 10] basic ["x"%string].

(** [7x = 1000000] *)
Definition sevenXEqualsMillion : EquationAST :=
  equationOf [variableTerm 7 "x" 1] [constantTerm 1000000] basic ["x"%string].

(** [x^2 + x] *)
Definition squarePlusLinear : Expression :=
  expressionOf [variableTerm 1 "x" 2; variableTerm 1 "x" 1].

(** What a term says, without its position in the input. *)
Definition termContent (t : Term) : float * option str * option nat * bool :=
  (coefficient t, variable t, exponent t, isConstant t).

(** An analysis of the step generator that always raises. *)
Definition failingAnalysis (_ : EquationAST) : Result Exn (list Step) :=
  Throw InternalFailure.

(** ** What grouping keeps of a term *)

(** Everything of a term but its coefficient. *)
Definition termShape (t : Term) : option str * option nat * bool * Span :=
  (variable t, exponent t, isConstant t, position t).

(** No grouping key of [ts] is an array index. *)
Definition noIndexKey (ts : list Term) : bool :=
  forallb (fun t => negb (isArrayIndex (termKey t))) ts.

(** The dictionary that the grouping loop builds: its keys are pairwise
    different, every entry sits under the key of its term, no key is a
    property of [Object.prototype], and every entry has the shape of a term
    of the input. *)
Definition groupsOf (ts : list Term) (groups : Dict Term) : Prop :=
  NoDup (map fst groups)
  /\ forall k t, In (k, t) groups ->
       k = termKey t /\ inherited k = false
       /\ exists t0, In t0 ts /\ termShape t0 = termShape t.

(** [result] has at most one term per grouping key, every coefficient of
    [result] passes the filter, and every term of [result] has the shape of
    a term of [source]. *)
Definition collectedFrom (source result : list Term) : Prop :=
  NoDup (map termKey result)
  /\ forall t, In t result ->
       keepsTerm t = true
       /\ exists t0, In t0 source /\ termShape t0 = termShape t.

(** ** Token positions *)

(** [input.substring(start, end)] for [start <= end]. *)
Definition substring (input : str) (start end' : nat) : str :=
  firstn (end' - start) (skipn start input).

(** The spans of [toks] are non-empty, start at [from] or later, and follow
    one another without overlap. *)
Fixpoint spansInOrder (from : nat) (toks : list Token) : bool :=
  match toks with
  | [] => true
  | tok :: toks' =>
      (from <=? span_start (tok_position tok))
      && (span_start (tok_position tok) <? span_end (tok_position tok))
      && spansInOrder (span_end (tok_position tok)) toks'
  end.

(** The tokens read from [rest], which starts at [position] in the input:
    where they lie and what they hold. *)
Definition tokensWithin (rest : str) (position : nat) (toks : list Token) : Prop :=
  spansInOrder position toks = true
  /\ forall tok, In tok toks ->
       position <= span_start (tok_position tok)
       /\ span_end (tok_position tok) <= position + length rest
       /\ tok_value tok
          = firstn (span_end (tok_position tok) - span_start (tok_position tok))
                   (skipn (span_start (tok_position tok) - position) rest).

(** ** Terms as the parser builds them *)

(** A constant without variable or exponent, or a first-degree term in a
    variable made of letters. *)
Definition parsedShape (t : Term) : bool :=
  match variable t with
  | None => isConstant t && opt_nat_eqb (exponent t) None
  | Some v =>
      negb (isConstant t) && opt_nat_eqb (exponent t) (Some 1)
      && (1 <=? length v) && forallb isLetter v
  end.

Definition wellFormedTerm (t : Term) : bool := keepsTerm t && parsedShape t.

(** Every VARIABLE token holds one letter or more, and letters only. *)
Definition letterVariables (toks : list Token) : bool :=
  forallb (fun tok => negb (TokenType_eqb (tok_type tok) VARIABLE)
                      || ((1 <=? length (tok_value tok)) && forallb isLetter (tok_value tok)))
          toks.

(** ** Expressions of the first degree *)

(** [t] has exponent 1 (written or left out), and is not a constant that
    carries the variable [v]. *)
Definition firstDegreeIn (v : str) (t : Term) : bool :=
  (Evaluator.exponentOf t =? 1)
  && negb (isConstant t && opt_str_eqb (variable t) (Some v)).

(** ** Keys that a fresh object does not know *)

(** No grouping key of [ts] names a property of [Object.prototype]. *)
Definition noInheritedKey (ts : list Term) : bool :=
  forallb (fun t => negb (inherited (termKey t))) ts.

(** The entry under which the grouping loop files a term, and the entry
    after the loop has met the negated term as well. *)
Definition groupEntry (t : Term) : str * Term := (termKey t, t).

Definition cancelledEntry (t : Term) : str * Term :=
  (termKey t, addCoefficient (coefficient (Evaluator.scaleTerm (-1) t)) t).

(** ** Equations whose variables are all listed *)

(** A constant, or a term in a variable with a non-empty name that [vars]
    lists. *)
Definition closedTerm (vars : list str) (t : Term) : bool :=
  isConstant t
  || match variable t with
     | Some (c :: s) => existsb (str_eqb (c :: s)) vars
     | _ => false
     end.

Definition closedEquation (equation : EquationAST) : bool :=
  forallb (closedTerm (variables equation))
          (termsOf (left equation) ++ termsOf (right equation)).

(** Some term of [e] is not a constant and its variable is neither [x] nor
    a property of [Object.prototype]. *)
Definition needsOtherVariable (e : Expression) : bool :=
  existsb (fun t =>
             negb (isConstant t)
             && match variable t with
                | Some (c :: s) =>
                    negb (str_eqb (c :: s) (lit "x")) && negb (inherited (c :: s))
                | _ => true
                end)
          (termsOf e).

(** ** How many steps a sequence has *)

(** The least and the greatest number of steps per equation type. *)
Definition stepCountRange (ty : EquationType) : nat * nat :=
  match ty with
  | basic => (1, 2)
  | standard | multi_step => (3, 4)
  | distributive | complex => (4, 6)
  | fractional => (4, 5)
  end.

(** ** The hash as a polynomial *)

(** [s[0]*31^(n-1) + s[1]*31^(n-2) + ... + s[n-1]], from the value [h] of
    the characters read so far. *)
Definition polynomialHash (s : str) (h : Z) : Z :=
  fold_left (fun h c => (31 * h + Z.of_nat (code c))%Z) s h.

(** ** Operators as signs *)

(** The token with every operator other than ['-'] replaced by ['+']. *)
Definition asPlus (tok : Token) : Token :=
  if TokenType_eqb (tok_type tok) OPERATOR && negb (str_eqb (tok_value tok) (lit "-"))
  then {| tok_type := OPERATOR; tok_value := lit "+"; tok_position := tok_position tok |}
  else tok.

(** ** Sides that cannot be parsed *)



(** ** Provisos on exponents and on code units *)

(** Every term that is not a constant has an exponent of 1 or more, once
    [term.exponent || 1] has replaced a missing or zero exponent: no term
    has a negative exponent. *)
Definition noNegativeExponent (e : Expression) : bool :=
  forallb (fun t => isConstant t || (1 <=? Evaluator.exponentOf t)) (termsOf e).

(** Every code unit of [s] is below 256: [s] is written in ASCII and
    Latin-1, where [toLowerCase] works one character at a time. *)
Definition latin1 (s : str) : bool := forallb (fun c => code c <? 256) s.

(* ====================================================================== *)
(** * Properties                                                           *)
(* ====================================================================== *)

(** Case analysis on the condition of an [if] of the goal. *)
Ltac case_condition :=
  match goal with
  | |- context [if ?b then _ else _] => destruct b
  end.

(** ** Facts of binary64 arithmetic *)

Lemma Prim2SF_zero : Prim2SF 0%float = S754_zero false.
Proof. reflexivity. Qed.

Lemma Prim2SF_one : Prim2SF 1%float = S754_finite false 4503599627370496 (-52).
Proof. reflexivity. Qed.

Lemma Prim2SF_minus_one : Prim2SF (-1)%float = S754_finite true 4503599627370496 (-52).
Proof. reflexivity. Qed.

(** [0 + x] is [x], unless [x] is [-0]. *)
Lemma float_zero_add (x : float) :
  Prim2SF x <> S754_zero true -> PrimFloat.add 0 x = x.
Proof.
  intros H. apply Prim2SF_inj. rewrite add_spec, Prim2SF_zero.
  destruct (Prim2SF x) as [[]| | |]; try reflexivity. congruence.
Qed.

(** A number above the tolerance in absolute value is not a zero. *)
Lemma above_EPSILON_not_zero (x : float) (s : bool) :
  PrimFloat.ltb EPSILON (Math_abs x) = true -> Prim2SF x <> S754_zero s.
Proof.
  unfold Math_abs. rewrite ltb_spec, abs_spec. intros H Hz. rewrite Hz in H.
  vm_compute in H. discriminate H.
Qed.

Lemma float_abs_opp (x : float) : PrimFloat.abs (PrimFloat.opp x) = PrimFloat.abs x.
Proof.
  apply Prim2SF_inj. rewrite !abs_spec, opp_spec.
  destruct (Prim2SF x); reflexivity.
Qed.

Lemma digits2_pos_shift52 (m : positive) :
  digits2_pos (4503599627370496 * m) = (digits2_pos m + 52)%positive.
Proof.
  change (4503599627370496 * m)%positive with
    (m~0~0~0~0~0~0~0~0~0~0~0~0~0~0~0~0~0~0~0~0~0~0~0~0~0~0
      ~0~0~0~0~0~0~0~0~0~0~0~0~0~0~0~0~0~0~0~0~0~0~0~0~0~0)%positive.
  cbn [digits2_pos]. lia.
Qed.

(** Rounding [2^52 * m * 2^(e - 52)] gives back the canonical [m * 2^e]. *)
Lemma binary_round_aux_shift52 (s : bool) (m : positive) (e : Z) :
  bounded prec emax m e = true ->
  binary_round_aux prec emax s (Zpos (4503599627370496 * m)) (-52 + e) loc_Exact
  = S754_finite s m e.
Proof.
  intros Hb. unfold bounded in Hb. apply andb_prop in Hb. destruct Hb as [Hc He].
  unfold canonical_mantissa in Hc.
  change (Z.eqb (fexp prec emax (Z.pos (digits2_pos m) + e)) e = true) in Hc.
  change (Z.leb e (emax - prec) = true) in He.
  apply Z.eqb_eq in Hc.
  unfold binary_round_aux, shr_fexp. cbn [Zdigits2 shr_record_of_loc].
  rewrite digits2_pos_shift52.
  replace (Z.pos (digits2_pos m + 52) + (-52 + e))%Z with (Z.pos (digits2_pos m) + e)%Z
    by lia.
  rewrite Hc.
  replace (e - (-52 + e))%Z with 52%Z by lia.
  cbn [shr].
  change (4503599627370496 * m)%positive with
    (m~0~0~0~0~0~0~0~0~0~0~0~0~0~0~0~0~0~0~0~0~0~0~0~0~0~0
      ~0~0~0~0~0~0~0~0~0~0~0~0~0~0~0~0~0~0~0~0~0~0~0~0~0~0)%positive.
  cbv [SpecFloat.iter_pos shr_1 orb].
  cbn [shr_m loc_of_shr_record round_nearest_even Zdigits2 shr_record_of_loc].
  replace (-52 + e + 52)%Z with e by lia.
  change (fexp prec emax (IntDef.Z.add (Zpos (digits2_pos m)) e))
    with (fexp prec emax (Z.pos (digits2_pos m) + e)%Z).
  rewrite Hc. change (IntDef.Z.sub e e) with (e - e)%Z. rewrite Z.sub_diag.
  cbn [shr shr_m]. rewrite He. reflexivity.
Qed.

Lemma SF64mul_unit (s : bool) (y : spec_float) :
  valid_binary y = true ->
  SF64mul (S754_finite s 4503599627370496 (-52)) y = (if s then SFopp y else y).
Proof.
  intros Hv. destruct y as [sy|sy| |sy my ey]; cbn [SF64mul SFmul].
  - destruct s, sy; reflexivity.
  - destruct s, sy; reflexivity.
  - destruct s; reflexivity.
  - cbn [valid_binary] in Hv. unfold SF64mul, SFmul.
    rewrite binary_round_aux_shift52 by exact Hv. destruct s, sy; reflexivity.
Qed.

(** [1 * x] is [x] and [-1 * x] is [-x], for every number [x]. *)
Lemma float_one_mul (x : float) : PrimFloat.mul 1 x = x.
Proof.
  apply Prim2SF_inj. rewrite mul_spec, Prim2SF_one.
  now rewrite SF64mul_unit by apply Prim2SF_valid.
Qed.

Lemma float_minus_one_mul (x : float) : PrimFloat.mul (-1) x = PrimFloat.opp x.
Proof.
  apply Prim2SF_inj. rewrite mul_spec, opp_spec, Prim2SF_minus_one.
  now rewrite SF64mul_unit by apply Prim2SF_valid.
Qed.

Lemma SFcompare_antisym (x y : spec_float) :
  SFcompare y x = option_map CompOpp (SFcompare x y).
Proof.
  destruct x as [sx|sx| |sx mx ex], y as [sy|sy| |sy my ey]; cbn [SFcompare option_map];
    try reflexivity;
    try (destruct sx; reflexivity); try (destruct sy; reflexivity);
    try (destruct sx, sy; reflexivity).
  destruct sx, sy; cbn [CompOpp]; try reflexivity;
    change (IntDef.Z.compare ey ex) with (Z.compare ey ex);
    change (IntDef.Z.compare ex ey) with (Z.compare ex ey);
    rewrite (Z.compare_antisym ex ey);
    destruct (Z.compare ex ey); cbn [CompOpp]; try reflexivity;
    change (PosDef.Pos.compare_cont Eq my mx) with (Pos.compare my mx);
    change (PosDef.Pos.compare_cont Eq mx my) with (Pos.compare mx my);
    rewrite (Pos.compare_antisym mx my); rewrite ?CompOpp_involutive; reflexivity.
Qed.

(** [x < y] excludes [y < x]. *)
Lemma float_ltb_asym (x y : float) :
  PrimFloat.ltb x y = true -> PrimFloat.ltb y x = false.
Proof.
  rewrite !ltb_spec. unfold SFltb. rewrite (SFcompare_antisym (Prim2SF x) (Prim2SF y)).
  destruct (SFcompare (Prim2SF x) (Prim2SF y)) as [[]|]; cbn; congruence.
Qed.

(** ** The loops of the parser terminate within their fuel *)

Section ParserLoops.

Variable config : EngineConfig.

Lemma scanNumber_le (rest : str) (d : bool) :
  Parser.scanNumber config rest d <= length rest.
Proof.
  revert d; induction rest as [|c rest IH]; intros d; simpl; [lia|].
  destruct (isDigit c); [specialize (IH d); lia|].
  destruct (Ascii.eqb c "." && negb d && allowDecimals config); [specialize (IH true)|]; lia.
Qed.

Lemma scanNumber_pos (c : ascii) (rest : str) (d : bool) :
  isDigit c = true -> 1 <= Parser.scanNumber config (c :: rest) d.
Proof. intros H; simpl; rewrite H; lia. Qed.

Lemma scanLetters_le (rest : str) : Parser.scanLetters rest <= length rest.
Proof. induction rest as [|c rest IH]; simpl; [lia|]. destruct (isLetter c); lia. Qed.

Lemma scanLetters_pos (c : ascii) (rest : str) :
  isLetter c = true -> 1 <= Parser.scanLetters (c :: rest).
Proof. intros H; simpl; rewrite H; lia. Qed.

Lemma skipn_shorter {A} (n : nat) (l : list A) :
  1 <= n -> l <> [] -> length (skipn n l) < length l.
Proof.
  intros Hn Hl. rewrite length_skipn. destruct l; [congruence|cbn [length]; lia].
Qed.

(** Any two amounts of fuel that cover the remaining input give the same
    tokens: the loop of [tokenize] ends by itself. *)
Lemma tokenizeFrom_fuel (fuel1 fuel2 : nat) (rest : str) (position : nat) :
  length rest <= fuel1 -> length rest <= fuel2 ->
  Parser.tokenizeFrom config fuel1 rest position
  = Parser.tokenizeFrom config fuel2 rest position.
Proof.
  revert fuel2 rest position.
  induction fuel1 as [|fuel1 IH]; intros fuel2 rest position H1 H2.
  - destruct rest; [|simpl in H1; lia]. destruct fuel2; reflexivity.
  - destruct fuel2 as [|fuel2].
    + destruct rest; [reflexivity|simpl in H2; lia].
    + destruct rest as [|c rest']; [reflexivity|].
      simpl in H1, H2.
      cbn [Parser.tokenizeFrom].
      destruct (isSpace c); [apply IH; lia|].
      destruct (isDigit c) eqn:Hd.
      { unfold Parser.parseNumber.
        pose proof (scanNumber_pos c rest' false Hd) as Hp.
        assert (Hs : length (skipn (position + Parser.scanNumber config (c :: rest') false
                                    - position) (c :: rest')) < length (c :: rest')).
        { apply skipn_shorter; [lia|discriminate]. }
        cbn [length] in Hs.
        rewrite (IH fuel2); [reflexivity| |]; lia. }
      destruct (isLetter c) eqn:Hl.
      { unfold Parser.parseVariable.
        pose proof (scanLetters_pos c rest' Hl) as Hp.
        assert (Hs : length (skipn (position + Parser.scanLetters (c :: rest')
                                    - position) (c :: rest')) < length (c :: rest')).
        { apply skipn_shorter; [lia|discriminate]. }
        cbn [length] in Hs.
        rewrite (IH fuel2); [reflexivity| |]; lia. }
      destruct (Parser.parseSymbol c position);
        rewrite (IH fuel2); try reflexivity; lia.
Qed.

(** [parseSingleTerm] always moves past the token it started on. *)
Lemma parseSingleTerm_advances (toks : list Token) (i : nat) :
  i < snd (fst (Parser.parseSingleTerm toks i)).
Proof.
  unfold Parser.parseSingleTerm.
  destruct (Parser.hasType OPERATOR (nth_error toks i));
    [ destruct (Parser.hasType NUMBER (nth_error toks (S i)));
      [ destruct (Parser.hasType VARIABLE (nth_error toks (S (S i))))
      | destruct (Parser.hasType VARIABLE (nth_error toks (S i))) ]
    | destruct (Parser.hasType NUMBER (nth_error toks i));
      [ destruct (Parser.hasType VARIABLE (nth_error toks (S i)))
      | destruct (Parser.hasType VARIABLE (nth_error toks i)) ] ];
    cbn;
    repeat (case_condition; cbn); lia.
Qed.

(** Any two amounts of fuel that cover the remaining tokens give the same
    terms: the loop of [parseTerms] ends by itself. *)
Lemma parseTermsFrom_fuel (fuel1 fuel2 : nat) (toks : list Token) (i : nat) :
  length toks - i <= fuel1 -> length toks - i <= fuel2 ->
  Parser.parseTermsFrom fuel1 toks i = Parser.parseTermsFrom fuel2 toks i.
Proof.
  revert fuel2 i.
  induction fuel1 as [|fuel1 IH]; intros fuel2 i H1 H2.
  - destruct fuel2; [reflexivity|]. simpl.
    destruct (Nat.ltb_spec i (length toks)); [lia|reflexivity].
  - destruct fuel2 as [|fuel2]; simpl.
    + destruct (Nat.ltb_spec i (length toks)); [lia|reflexivity].
    + destruct (Nat.ltb_spec i (length toks)); [|reflexivity].
      pose proof (parseSingleTerm_advances toks i) as Hadv.
      destruct (Parser.parseSingleTerm toks i) as [[term nextIndex] lg].
      simpl in Hadv.
      rewrite (IH fuel2); [reflexivity| |]; lia.
Qed.

End ParserLoops.

(** ** The tokenizer and letters *)

Lemma parseVariable_takes_every_letter (rest : str) (start : nat) :
  tok_value (fst (fst (Parser.parseVariable rest start)))
  = firstn (Parser.scanLetters rest) rest.
Proof. reflexivity. Qed.

Lemma scanLetters_two (c1 c2 : ascii) (rest : str) :
  isLetter c1 = true -> isLetter c2 = true ->
  2 <= Parser.scanLetters (c1 :: c2 :: rest).
Proof. intros H1 H2; simpl; rewrite H1, H2; lia. Qed.

(** The letters are neither white space nor digits. *)
Lemma letter_not_space_not_digit (c : ascii) :
  isLetter c = true -> isSpace c = false /\ isDigit c = false.
Proof.
  destruct c as [[] [] [] [] [] [] [] []]; intros H; split; try reflexivity; discriminate H.
Qed.

Lemma digit_not_space (c : ascii) : isDigit c = true -> isSpace c = false.
Proof.
  destruct c as [[] [] [] [] [] [] [] []]; intros H; try reflexivity; discriminate H.
Qed.

(** One turn of the loop of [tokenize] on a letter and on a digit. *)
Lemma tokenizeFrom_letter (config : EngineConfig) (fuel : nat) (c : ascii) (rest : str)
    (position : nat) :
  isLetter c = true ->
  Parser.tokenizeFrom config (S fuel) (c :: rest) position
  = let '((token, newPosition), w) := Parser.parseVariable (c :: rest) position in
    let (toks, lg) :=
      Parser.tokenizeFrom config fuel (skipn (newPosition - position) (c :: rest))
        newPosition in
    (token :: toks, appLog w lg).
Proof.
  intros H. destruct (letter_not_space_not_digit c H) as [Hs Hd].
  cbn [Parser.tokenizeFrom]. rewrite Hs, Hd, H. reflexivity.
Qed.

Lemma tokenizeFrom_digit (config : EngineConfig) (fuel : nat) (c : ascii) (rest : str)
    (position : nat) :
  isDigit c = true ->
  Parser.tokenizeFrom config (S fuel) (c :: rest) position
  = let (token, newPosition) := Parser.parseNumber config (c :: rest) position in
    let (toks, lg) :=
      Parser.tokenizeFrom config fuel (skipn (newPosition - position) (c :: rest))
        newPosition in
    (token :: toks, lg).
Proof.
  intros H. cbn [Parser.tokenizeFrom]. rewrite (digit_not_space c H), H. reflexivity.
Qed.

(** Two letters in a row always come out as one VARIABLE token that holds
    both of them (and every letter that follows). *)
Lemma tokenize_two_letters (config : EngineConfig) (c1 c2 : ascii) (rest : str) :
  isLetter c1 = true -> isLetter c2 = true ->
  exists tok toks,
    fst (Parser.tokenize config (c1 :: c2 :: rest)) = tok :: toks
    /\ tok_type tok = VARIABLE
    /\ firstn 2 (tok_value tok) = [c1; c2].
Proof.
  intros H1 H2.
  unfold Parser.tokenize. cbn [length].
  rewrite tokenizeFrom_letter by exact H1.
  unfold Parser.parseVariable.
  destruct (Parser.tokenizeFrom config _ _ _) as [toks lg].
  eexists; eexists; split; [reflexivity|]. split; [reflexivity|].
  cbn [tok_value Parser.scanLetters]. rewrite H1, H2. reflexivity.
Qed.

(** C4, at the failing input ["ab = 1"]: the claim wants every VARIABLE token
    to be a single letter, and the comment in [parseVariable] says that only
    one letter is taken, but the loop runs over the whole run of letters and
    the tokenizer emits the two-letter VARIABLE token ["ab"]. *)
Theorem tokenize_emits_multi_letter_variable :
  map (fun t => (tok_type t, tok_value t))
      (fst (Parser.tokenize DEFAULT_ENGINE_CONFIG (lit "ab = 1")))
  = [(VARIABLE, lit "ab"); (EQUALS, lit "="); (NUMBER, lit "1")].
Proof. vm_compute. reflexivity. Qed.

(** ** The failure policy of [parseEquation] *)

Section ParsePolicy.

Variable config : EngineConfig.






End ParsePolicy.


(** The same happens behind the input validation of [EquationEngine.parse],
    which accepts ["x ="]. *)
Lemma parse_returns_ast_with_errors :
  let r := Engine.parse DEFAULT_ENGINE_CONFIG (lit "x =") in
  map err_type (errors r) = [empty_expression] /\ ast r <> None.
Proof. split; vm_compute; [reflexivity|discriminate]. Qed.

(** ** The type classifier *)

Lemma existsb_pointwise {A} (f g : A -> bool) (l : list A) :
  (forall x, f x = g x) -> existsb f l = existsb g l.
Proof. intros H; induction l as [|x l IH]; simpl; [reflexivity|]. now rewrite H, IH. Qed.

Lemma hasDistributivePattern_spec (a : EquationAST) :
  Parser.hasDistributivePattern a = (3 <=? totalTermCount a) && hasLargeVariableTerm a.
Proof.
  unfold Parser.hasDistributivePattern, totalTermCount, hasLargeVariableTerm, Parser.allTermsOf.
  f_equal. apply existsb_pointwise. intros x. apply andb_comm.
Qed.

(** C7: [detectEquationType] follows the rules of the specification in
    their order, and pushes its warning exactly under the first rule. *)
Theorem detectEquationType_follows_spec (a : EquationAST) :
  Parser.detectEquationType a
  = (classifyBySpec a, {| log_errors := []; log_warnings := warningBySpec a |}).
Proof.
  unfold Parser.detectEquationType, classifyBySpec, warningBySpec.
  rewrite hasDistributivePattern_spec.
  unfold variableTermCount, totalTermCount, Parser.allTermsOf.
  destruct (length (filter _ _)) as [|[|nv]];
    destruct (length (termsOf (left a) ++ termsOf (right a))) as [|[|[|[|[|nt]]]]];
    cbn; try reflexivity;
    destruct (hasLargeVariableTerm a); reflexivity.
Qed.

(** ** Step generation *)

Lemma generateOptimalSequence_optimal (equation : EquationAST) :
  exists ss,
    StepGenerator.analyzeAndGenerateSteps equation = Ok ss
    /\ StepGenerator.generateOptimalSequence equation
       = Ok {| steps := ss;
               isOptimal := true;
               estimatedTime := StepGenerator.estimateTimeForSteps ss;
               alternativeExists := StepGenerator.hasAlternativeMethod equation |}.
Proof. eexists; split; reflexivity. Qed.

(** The analysis of the class never ends its list without the isolation
    step, so a sequence built from it has at least one step. *)
Lemma analyzeAndGenerateSteps_nonempty (equation : EquationAST) (ss : list Step) :
  StepGenerator.analyzeAndGenerateSteps equation = Ok ss -> ss <> [].
Proof.
  unfold StepGenerator.analyzeAndGenerateSteps. intros H. injection H as <-.
  destruct (equationType equation);
    unfold StepGenerator.generateBasicSteps, StepGenerator.generateStandardSteps,
      StepGenerator.generateDistributiveSteps, StepGenerator.generateComplexSteps,
      StepGenerator.generateFractionalSteps, StepGenerator.generateDistributiveSteps,
      StepGenerator.generateStandardSteps;
    repeat case_condition; discriminate.
Qed.

(** C8: [generateOptimalSequence] returns a sequence for every equation, and
    so does the same [try]/[catch] around any analysis; when the analysis
    raises, the sequence is the one-step fallback with [isOptimal = false]. *)
Theorem generateOptimalSequence_never_throws (equation : EquationAST) :
  (exists sequence, StepGenerator.generateOptimalSequence equation = Ok sequence)
  /\ forall analyze,
       exists sequence,
         StepGenerator.generateOptimalSequenceWith analyze equation = Ok sequence
         /\ (forall e, analyze equation = Throw e ->
               steps sequence = StepGenerator.generateFallbackSteps equation
               /\ length (steps sequence) = 1
               /\ isOptimal sequence = false).
Proof.
  split.
  - destruct (generateOptimalSequence_optimal equation) as [ss [_ H]]. eauto.
  - intros analyze. unfold StepGenerator.generateOptimalSequenceWith.
    destruct (analyze equation) as [ss|e]; cbn.
    + eexists; split; [reflexivity|]. intros e H; discriminate H.
    + eexists; split; [reflexivity|]. intros _ _. repeat split.
Qed.

(** The fallback is reached as soon as the analysis raises. *)
Lemma generateOptimalSequence_fallback_example :
  StepGenerator.generateOptimalSequenceWith failingAnalysis twoXEqualsTen
  = Ok {| steps := StepGenerator.generateFallbackSteps twoXEqualsTen;
          isOptimal := false; estimatedTime := 300; alternativeExists := false |}.
Proof. reflexivity. Qed.

(** ** The solver *)

Section Solver.

(** What a returned solution is made of. *)
Lemma solve_Ok_inv (equation : EquationAST) (sol : Solution) :
  Engine.solve equation = Ok sol ->
  exists v vs l r,
    variables equation = v :: vs
    /\ sol_variable sol = v
    /\ Engine.solveMathematically equation v = Ok (value sol)
    /\ Evaluator.evaluateWithSubstitution (left equation) v (value sol) = Ok l
    /\ Evaluator.evaluateWithSubstitution (right equation) v (value sol) = Ok r
    /\ verificationsSteps sol
       = [ {| leftSideResult := l; rightSideResult := r;
              isValid := PrimFloat.ltb (Math_abs (PrimFloat.sub l r)) EPSILON |} ]
    /\ solutionMethod sol = Engine.determineSolutionMethod equation
    /\ confidence sol
       = (if PrimFloat.ltb (Math_abs (PrimFloat.sub l r)) EPSILON
          then Math_min (PrimFloat.add 0.8 (Engine.methodBonus (solutionMethod sol))) 1
          else 0)%float.
Proof.
  unfold Engine.solve, Engine.generateSteps.
  destruct (generateOptimalSequence_optimal equation) as [ss [_ ->]].
  cbn [bind tryCatch steps].
  unfold Engine.applySolutionSteps.
  destruct (variables equation) as [|v vs]; [discriminate|].
  destruct (Engine.solveMathematically equation v) as [x|e] eqn:Hx; [|discriminate].
  cbn [bind]. unfold Engine.verifySolution. cbn [Engine.ps_variable Engine.ps_value].
  destruct (Evaluator.evaluateWithSubstitution (left equation) v x) as [l|e] eqn:Hl;
    [|discriminate].
  destruct (Evaluator.evaluateWithSubstitution (right equation) v x) as [r|e] eqn:Hr;
    [|discriminate].
  cbn. intros H. injection H as <-. cbn.
  exists v, vs, l, r. repeat split; try assumption.
  match goal with
  | |- context [PrimFloat.ltb ?a ?b] => destruct (PrimFloat.ltb a b); reflexivity
  end.
Qed.

(** The confidence of every solution method lies between 0 and 1. *)
Lemma methodConfidence_range (m : SolutionMethod) :
  let c := Math_min (PrimFloat.add 0.8 (Engine.methodBonus m)) 1 in
  PrimFloat.leb 0 c = true /\ PrimFloat.leb c 1 = true.
Proof. destruct m; split; vm_compute; reflexivity. Qed.

(** C6: the confidence of a returned solution is 0 when a verification step
    is invalid, is [min (0.8 + bonus of the method) 1.0] when every step is
    valid, and lies in [0, 1] in both cases. *)
Theorem solve_confidence (equation : EquationAST) (sol : Solution) :
  Engine.solve equation = Ok sol ->
  (existsb (fun step => negb (isValid step)) (verificationsSteps sol) = true ->
     confidence sol = 0%float)
  /\ (forallb isValid (verificationsSteps sol) = true ->
        confidence sol
        = Math_min (PrimFloat.add 0.8 (Engine.methodBonus (solutionMethod sol))) 1.0)
  /\ PrimFloat.leb 0 (confidence sol) = true
  /\ PrimFloat.leb (confidence sol) 1 = true.
Proof.
  intros H. apply solve_Ok_inv in H.
  destruct H as (v & vs & l & r & _ & _ & _ & _ & _ & Hver & _ & Hconf).
  rewrite Hver, Hconf. cbn [existsb forallb isValid].
  destruct (PrimFloat.ltb (Math_abs (PrimFloat.sub l r)) EPSILON); cbn.
  - repeat split; try discriminate; try reflexivity;
      apply (methodConfidence_range (solutionMethod sol)).
  - repeat split; try discriminate; reflexivity.
Qed.

(** The solver refuses an equation whose accumulated variable coefficient is
    below the tolerance, and an equation without variables. *)
Lemma solve_fails_without_unique_solution (equation : EquationAST) (v : str) (vs : list str) :
  variables equation = v :: vs ->
  PrimFloat.ltb (Math_abs (fst (Engine.accumulated equation v))) EPSILON = true ->
  Engine.solve equation = Throw (SolveFailed NoUniqueSolution).
Proof.
  intros Hv Hc. unfold Engine.solve, Engine.generateSteps.
  destruct (generateOptimalSequence_optimal equation) as [ss [_ ->]].
  cbn [bind tryCatch steps].
  unfold Engine.applySolutionSteps. rewrite Hv.
  unfold Engine.solveMathematically.
  destruct (Engine.accumulated equation v) as [variableCoeff constantTerm].
  cbn [fst] in Hc. rewrite Hc. reflexivity.
Qed.

Lemma solve_fails_without_variables (equation : EquationAST) :
  variables equation = [] ->
  Engine.solve equation = Throw (SolveFailed NoVariablesFound).
Proof.
  intros Hv. unfold Engine.solve, Engine.generateSteps.
  destruct (generateOptimalSequence_optimal equation) as [ss [_ ->]].
  cbn [bind tryCatch steps].
  unfold Engine.applySolutionSteps. rewrite Hv. reflexivity.
Qed.

(** C5, amended: a returned solution carries one verification step; it holds
    the two sides evaluated at the returned value, its [isValid] flag is true
    exactly when the two results differ by less than 1e-10, and when the flag
    is false the confidence is 0. *)
Theorem solve_verification (equation : EquationAST) (sol : Solution) :
  Engine.solve equation = Ok sol ->
  exists step,
    verificationsSteps sol = [step]
    /\ Evaluator.evaluateWithSubstitution (left equation) (sol_variable sol) (value sol)
       = Ok (leftSideResult step)
    /\ Evaluator.evaluateWithSubstitution (right equation) (sol_variable sol) (value sol)
       = Ok (rightSideResult step)
    /\ isValid step
       = PrimFloat.ltb
           (Math_abs (PrimFloat.sub (leftSideResult step) (rightSideResult step))) EPSILON
    /\ (isValid step = false -> confidence sol = 0%float).
Proof.
  intros H. apply solve_Ok_inv in H.
  destruct H as (v & vs & l & r & _ & Hv & _ & Hl & Hr & Hver & _ & Hconf).
  eexists; split; [exact Hver|].
  cbn [isValid leftSideResult rightSideResult]. rewrite Hv.
  repeat split; try assumption.
  intros Hinvalid. rewrite Hconf, Hinvalid. reflexivity.
Qed.

End Solver.

(** C6 at [2x = 10]: the step is valid and the confidence is
    [min (0.8 + 0.2) 1.0 = 1]. *)
Lemma solve_confidence_witness :
  exists sol,
    Engine.solve twoXEqualsTen = Ok sol
    /\ confidence sol = 1%float
    /\ ((existsb (fun step => negb (isValid step)) (verificationsSteps sol) = true ->
           confidence sol = 0%float)
        /\ (forallb isValid (verificationsSteps sol) = true ->
              confidence sol
              = Math_min (PrimFloat.add 0.8 (Engine.methodBonus (solutionMethod sol))) 1.0)
        /\ PrimFloat.leb 0 (confidence sol) = true
        /\ PrimFloat.leb (confidence sol) 1 = true).
Proof.
  eexists. split; [vm_compute; reflexivity|]. split; [reflexivity|].
  apply (solve_confidence twoXEqualsTen). vm_compute. reflexivity.
Defined.

(** C5 as stated fails on [7x = 1000000], which has the single variable [x]:
    the solver returns 142857.14285714287, the left side evaluates to
    1000000.0000000001, and the verification step is invalid. *)
Lemma solve_verification_can_fail :
  variables sevenXEqualsMillion = [lit "x"]
  /\ exists sol,
       Engine.solve sevenXEqualsMillion = Ok sol
       /\ value sol = 142857.14285714287%float
       /\ verificationsSteps sol
          = [ {| leftSideResult := 1000000.0000000001;
                 rightSideResult := 1000000;
                 isValid := false |} ]
       /\ confidence sol = 0%float.
Proof.
  split; [reflexivity|]. eexists. split; [vm_compute; reflexivity|].
  repeat split.
Qed.

(** The engine reaches that equation from the input ["7x = 1000000"]. *)
Lemma parse_sevenXEqualsMillion :
  exists a,
    ast (Engine.parse DEFAULT_ENGINE_CONFIG (lit "7x = 1000000")) = Some a
    /\ map termContent (termsOf (left a)) = map termContent (termsOf (left sevenXEqualsMillion))
    /\ map termContent (termsOf (right a)) = map termContent (termsOf (right sevenXEqualsMillion))
    /\ variables a = variables sevenXEqualsMillion
    /\ equationType a = equationType sevenXEqualsMillion.
Proof. eexists. split; [vm_compute; reflexivity|]. repeat split. Qed.

(** C5 (amended) at [7x = 1000000], where the verification fails. *)
Lemma solve_verification_witness :
  exists sol,
    Engine.solve sevenXEqualsMillion = Ok sol
    /\ exists step,
         verificationsSteps sol = [step]
         /\ Evaluator.evaluateWithSubstitution (left sevenXEqualsMillion)
              (sol_variable sol) (value sol) = Ok (leftSideResult step)
         /\ Evaluator.evaluateWithSubstitution (right sevenXEqualsMillion)
              (sol_variable sol) (value sol) = Ok (rightSideResult step)
         /\ isValid step
            = PrimFloat.ltb
                (Math_abs (PrimFloat.sub (leftSideResult step) (rightSideResult step)))
                EPSILON
         /\ (isValid step = false -> confidence sol = 0%float).
Proof.
  eexists. split; [vm_compute; reflexivity|].
  apply (solve_verification sevenXEqualsMillion). vm_compute. reflexivity.
Defined.

(** ** The backend solver against the frontend solver *)

(** On [0x + 3 = 7] the accumulated coefficient of [x] is zero and the
    frontend solver raises its error. *)
Lemma frontend_refuses_zeroCoefficientEquation :
  fst (Engine.accumulated zeroCoefficientEquation (lit "x")) = 0%float
  /\ Engine.solve zeroCoefficientEquation = Throw (SolveFailed NoUniqueSolution).
Proof. split; vm_compute; reflexivity. Qed.

Lemma frontend_refuses_cancellingEquation :
  fst (Engine.accumulated cancellingEquation (lit "x")) = 0%float
  /\ Engine.solve cancellingEquation = Throw (SolveFailed NoUniqueSolution).
Proof. split; vm_compute; reflexivity. Qed.

(** C1, at the failing inputs [0x + 3 = 7] and [x + 3 = x + 7]: in both the
    accumulated coefficient of [x] is zero, so the claim wants [solve] to
    fail.  The backend's [solve] returns a solution instead: [x = 0] with
    confidence 0.95 for the first (the guard of [solveMockEquation] returns 0)
    and [x = 4] for the second (the variable term of the right side is never
    subtracted). *)
Theorem backend_solve_returns_value_without_solution :
  (exists sol,
     Backend.solve zeroCoefficientEquation = Ok sol
     /\ sol_variable sol = lit "x"
     /\ value sol = 0%float
     /\ confidence sol = 0.95%float)
  /\ (exists sol,
        Backend.solve cancellingEquation = Ok sol
        /\ sol_variable sol = lit "x"
        /\ value sol = 4%float).
Proof.
  split; eexists; (split; [vm_compute; reflexivity|]); repeat split.
Qed.

(** ** Collecting like terms *)

(** C9, at the failing input [x^2 + x]: its two terms are not like terms
    (their exponents differ) and both coefficients are 1, so the expression
    is already simplified; [simplifyExpression] groups by variable name only
    and returns the single term [2x^2]. *)
Theorem simplifyExpression_merges_different_exponents :
  alreadySimplified squarePlusLinear = true
  /\ map termContent (termsOf squarePlusLinear)
     = [ (1%float, Some (lit "x"), Some 2, false); (1%float, Some (lit "x"), Some 1, false) ]
  /\ map termContent (termsOf (Evaluator.simplifyExpression squarePlusLinear))
     = [ (2%float, Some (lit "x"), Some 2, false) ].
Proof. repeat split. Qed.

(** ** More than one equals sign *)

Section MultipleEquals.

Variable config : EngineConfig.

Lemma scanNumber_keeps_equals (rest : str) (d : bool) :
  In eqChar rest -> In eqChar (skipn (Parser.scanNumber config rest d) rest).
Proof.
  revert d. induction rest as [|c rest IH]; intros d Hin; [destruct Hin|].
  cbn [Parser.scanNumber].
  destruct (isDigit c) eqn:Hd.
  - cbn [skipn]. destruct Hin as [->|Hin]; [discriminate Hd|]. now apply IH.
  - destruct (Ascii.eqb_spec c "."%char) as [->|Hne]; cbn [andb].
    + destruct (negb d && allowDecimals config); [|exact Hin].
      cbn [skipn]. destruct Hin as [Heq|Hin]; [discriminate Heq|]. now apply IH.
    + exact Hin.
Qed.

Lemma scanLetters_keeps_equals (rest : str) :
  In eqChar rest -> In eqChar (skipn (Parser.scanLetters rest) rest).
Proof.
  induction rest as [|c rest IH]; intros Hin; [destruct Hin|].
  cbn [Parser.scanLetters].
  destruct (isLetter c) eqn:Hl; [|exact Hin].
  cbn [skipn]. destruct Hin as [->|Hin]; [discriminate Hl|]. now apply IH.
Qed.

(** Every ['='] of the input comes out as an EQUALS token. *)
Lemma tokenizeFrom_keeps_equals (fuel : nat) (rest : str) (position : nat) :
  length rest <= fuel -> In eqChar rest ->
  hasEqualsToken (fst (Parser.tokenizeFrom config fuel rest position)).
Proof.
  revert rest position.
  induction fuel as [|fuel IH]; intros rest position Hlen Hin.
  - destruct rest; [destruct Hin|simpl in Hlen; lia].
  - destruct rest as [|c rest']; [destruct Hin|].
    cbn [length] in Hlen.
    destruct (isSpace c) eqn:Hs.
    { cbn [Parser.tokenizeFrom]. rewrite Hs.
      destruct Hin as [->|Hin]; [discriminate Hs|]. apply IH; [lia|exact Hin]. }
    destruct (isDigit c) eqn:Hd.
    { rewrite tokenizeFrom_digit by exact Hd. unfold Parser.parseNumber.
      pose proof (scanNumber_pos config c rest' false Hd) as Hp.
      pose proof (scanNumber_keeps_equals (c :: rest') false Hin) as Hk.
      replace (position + Parser.scanNumber config (c :: rest') false - position)
        with (Parser.scanNumber config (c :: rest') false) by lia.
      assert (Hs' : length (skipn (Parser.scanNumber config (c :: rest') false) (c :: rest'))
                    < length (c :: rest')) by (apply skipn_shorter; [lia|discriminate]).
      cbn [length] in Hs'.
      assert (Hlen' : length (skipn (Parser.scanNumber config (c :: rest') false) (c :: rest'))
                      <= fuel) by lia.
      destruct (IH _ (position + Parser.scanNumber config (c :: rest') false) Hlen' Hk)
        as (t & Ht & Hty).
      destruct (Parser.tokenizeFrom config fuel _ _) as [toks lg].
      exists t. split; [right; exact Ht|exact Hty]. }
    destruct (isLetter c) eqn:Hl.
    { rewrite tokenizeFrom_letter by exact Hl. unfold Parser.parseVariable.
      pose proof (scanLetters_pos c rest' Hl) as Hp.
      pose proof (scanLetters_keeps_equals (c :: rest') Hin) as Hk.
      replace (position + Parser.scanLetters (c :: rest') - position)
        with (Parser.scanLetters (c :: rest')) by lia.
      assert (Hs' : length (skipn (Parser.scanLetters (c :: rest')) (c :: rest'))
                    < length (c :: rest')) by (apply skipn_shorter; [lia|discriminate]).
      cbn [length] in Hs'.
      assert (Hlen' : length (skipn (Parser.scanLetters (c :: rest')) (c :: rest')) <= fuel)
        by lia.
      destruct (IH _ (position + Parser.scanLetters (c :: rest')) Hlen' Hk)
        as (t & Ht & Hty).
      destruct (Parser.tokenizeFrom config fuel _ _) as [toks lg].
      exists t. split; [right; exact Ht|exact Hty]. }
    cbn [Parser.tokenizeFrom]. rewrite Hs, Hd, Hl.
    destruct Hin as [->|Hin].
    + cbn. destruct (Parser.tokenizeFrom config fuel rest' (S position)) as [toks lg].
      eexists; split; [left; reflexivity|reflexivity].
    + assert (Hlen' : length rest' <= fuel) by lia.
      destruct (IH rest' (S position) Hlen' Hin) as (t & Ht & Hty).
      destruct (Parser.parseSymbol c position);
        destruct (Parser.tokenizeFrom config fuel rest' (S position)) as [toks lg];
        exists t; (split; [|exact Hty]); cbn; auto.
Qed.

(** [findEqualsSign] returns the position of the first EQUALS token. *)
Lemma findEqualsSign_first (toks : list Token) :
  hasEqualsToken toks ->
  exists i t,
    Parser.findEqualsSign toks = Some i
    /\ nth_error toks i = Some t /\ tok_type t = EQUALS
    /\ forall u, In u (firstn i toks) -> tok_type u <> EQUALS.
Proof.
  induction toks as [|t0 toks IH]; intros (t & Hin & Hty); [destruct Hin|].
  cbn [Parser.findEqualsSign].
  destruct (TokenType_eqb (tok_type t0) EQUALS) eqn:H0.
  - exists 0, t0. repeat split; try reflexivity.
    + destruct (tok_type t0); try discriminate H0; reflexivity.
    + intros u [].
  - destruct Hin as [->|Hin]; [rewrite Hty in H0; discriminate H0|].
    destruct (IH (ex_intro _ t (conj Hin Hty))) as (i & t' & Hi & Hnth & Hty' & Hbefore).
    exists (S i), t'. rewrite Hi. repeat split; try assumption.
    intros u [<-|Hu]; [|now apply Hbefore].
    intros Hu. rewrite Hu in H0. discriminate H0.
Qed.

Lemma filter_two_In {A} (f : A -> bool) (l : list A) :
  1 < length (filter f l) -> exists x, In x l /\ f x = true.
Proof.
  intros H. destruct (filter f l) as [|x l'] eqn:Hf; [simpl in H; lia|].
  assert (Hin : In x (filter f l)) by (rewrite Hf; left; reflexivity).
  apply filter_In in Hin. exists x. exact Hin.
Qed.

(** C10: an input with more than one ['='] is rejected by
    [EquationEngine.parse] with a null AST and a [syntax_error], although
    [parseEquation] alone returns an AST for it, split at the first EQUALS
    token. *)
Theorem parse_rejects_multiple_equals (input : str) :
  1 < Validator.equalsCount input ->
  let r := Engine.parse config input in
  let toks := fst (Parser.tokenize config input) in
  (ast r = None /\ tokens r = []
   /\ exists e, In e (errors r) /\ err_type e = syntax_error)
  /\ exists i a,
       Parser.findEqualsSign toks = Some i
       /\ (forall u, In u (firstn i toks) -> tok_type u <> EQUALS)
       /\ ast (Parser.parseEquation config input) = Some a
       /\ left a = fst (Parser.parseExpression (firstn i toks))
       /\ right a = fst (Parser.parseExpression (skipn (i + 1) toks)).
Proof.
  intros Hcount. cbv zeta. split.
  - assert (Hes : Validator.checkEqualsSign input
                  = [Validator.mkError syntax_error high None]).
    { unfold Validator.checkEqualsSign.
      destruct (Nat.eqb_spec (Validator.equalsCount input) 0) as [H0|_]; [lia|].
      destruct (Nat.ltb_spec 1 (Validator.equalsCount input)) as [_|H1]; [reflexivity|lia]. }
    assert (Hin : In (Validator.mkError syntax_error high None)
                     (vr_errors (Validator.validateInput input))).
    { unfold Validator.validateInput. cbn [vr_errors]. rewrite Hes.
      apply in_or_app; right. apply in_or_app; right. apply in_or_app; left.
      left; reflexivity. }
    assert (Hinvalid : vr_isValid (Validator.validateInput input) = false).
    { unfold Validator.validateInput in *. cbn [vr_isValid vr_errors] in *.
      destruct (_ ++ _); [destruct Hin|reflexivity]. }
    unfold Engine.parse. rewrite Hinvalid. cbn [negb ast tokens errors].
    repeat split. eexists. split; [exact Hin|reflexivity].
  - destruct (filter_two_In _ _ Hcount) as (c & Hin & Hc).
    apply Ascii.eqb_eq in Hc. subst c.
    pose proof (tokenizeFrom_keeps_equals (length input) input 0 (le_n _) Hin) as Heq.
    fold (Parser.tokenize config input) in Heq.
    destruct (findEqualsSign_first _ Heq) as (i & t & Hi & Hnth & Hty & Hbefore).
    unfold Parser.parseEquation.
    destruct (Parser.tokenize config input) as [toks lg0]. cbn [fst] in *.
    destruct toks as [|t0 toks]; [destruct i; discriminate Hnth|].
    rewrite Hi. exists i.
    destruct (Parser.parseExpression (firstn i (t0 :: toks))) as [l lg1].
    destruct (Parser.parseExpression (skipn (i + 1) (t0 :: toks))) as [rr lg2].
    eexists.
    split; [reflexivity|]. split; [exact Hbefore|]. split; [reflexivity|].
    split; reflexivity.
Qed.

End MultipleEquals.

(** C10 at ["2x = 3x = 4"]. *)
Lemma parse_rejects_multiple_equals_witness :
  let input := lit "2x = 3x = 4" in
  let r := Engine.parse DEFAULT_ENGINE_CONFIG input in
  let toks := fst (Parser.tokenize DEFAULT_ENGINE_CONFIG input) in
  1 < Validator.equalsCount input
  /\ (ast r = None /\ tokens r = []
      /\ exists e, In e (errors r) /\ err_type e = syntax_error)
  /\ exists i a,
       Parser.findEqualsSign toks = Some i
       /\ (forall u, In u (firstn i toks) -> tok_type u <> EQUALS)
       /\ ast (Parser.parseEquation DEFAULT_ENGINE_CONFIG input) = Some a
       /\ left a = fst (Parser.parseExpression (firstn i toks))
       /\ right a = fst (Parser.parseExpression (skipn (i + 1) toks)).
Proof.
  cbv zeta. split; [vm_compute; lia|].
  apply (parse_rejects_multiple_equals DEFAULT_ENGINE_CONFIG (lit "2x = 3x = 4")).
  vm_compute. lia.
Defined.

(** Alone, [parseEquation] reads ["2x = 3x = 4"] as [2x = 3x + 4]. *)
Lemma parseEquation_two_equals_example :
  exists a,
    ast (Parser.parseEquation DEFAULT_ENGINE_CONFIG (lit "2x = 3x = 4")) = Some a
    /\ map termContent (termsOf (left a)) = [ (2%float, Some (lit "x"), Some 1, false) ]
    /\ map termContent (termsOf (right a))
       = [ (3%float, Some (lit "x"), Some 1, false); (4%float, None, None, true) ]
    /\ errors (Parser.parseEquation DEFAULT_ENGINE_CONFIG (lit "2x = 3x = 4")) = [].
Proof. eexists. split; [vm_compute; reflexivity|]. repeat split. Qed.

(** ** Parsing the string form of a linear equation and solving it *)

Section RoundTrip.

Variable config : EngineConfig.

Lemma tokenize_tokensFrom (input : str) :
  Parser.tokenize config input = tokensFrom config input 0.
Proof. reflexivity. Qed.

(** The equations of the tokenizer loop, fuel apart. *)
Lemma tokensFrom_space (c : ascii) (rest : str) (position : nat) :
  isSpace c = true ->
  tokensFrom config (c :: rest) position = tokensFrom config rest (S position).
Proof.
  intros H. unfold tokensFrom. cbn [length Parser.tokenizeFrom]. rewrite H. reflexivity.
Qed.

Lemma tokensFrom_symbol (c : ascii) (ty : TokenType) (rest : str) (position : nat) :
  isSpace c = false -> isDigit c = false -> isLetter c = false ->
  Parser.symbolMap c = Some ty ->
  tokensFrom config (c :: rest) position
  = (mkToken ty [c] position (position + 1) :: fst (tokensFrom config rest (S position)),
     snd (tokensFrom config rest (S position))).
Proof.
  intros Hs Hd Hl Hm. unfold tokensFrom. cbn [length Parser.tokenizeFrom].
  rewrite Hs, Hd, Hl. unfold Parser.parseSymbol. rewrite Hm.
  destruct (Parser.tokenizeFrom config (length rest) rest (S position)); reflexivity.
Qed.

Lemma tokensFrom_number (c : ascii) (rest : str) (position : nat) :
  isDigit c = true ->
  let n := Parser.scanNumber config (c :: rest) false in
  tokensFrom config (c :: rest) position
  = (mkToken NUMBER (firstn n (c :: rest)) position (position + n)
       :: fst (tokensFrom config (skipn n (c :: rest)) (position + n)),
     snd (tokensFrom config (skipn n (c :: rest)) (position + n))).
Proof.
  intros Hd n. unfold tokensFrom. cbn [length].
  rewrite tokenizeFrom_digit by exact Hd. unfold Parser.parseNumber. fold n.
  replace (position + n - position) with n by lia.
  pose proof (scanNumber_pos config c rest false Hd) as Hp. fold n in Hp.
  assert (Hs : length (skipn n (c :: rest)) < length (c :: rest))
    by (apply skipn_shorter; [lia|discriminate]).
  cbn [length] in Hs.
  rewrite (tokenizeFrom_fuel config (length rest) (length (skipn n (c :: rest)))) by lia.
  destruct (Parser.tokenizeFrom config _ _ _); reflexivity.
Qed.

Lemma tokensFrom_variable (c : ascii) (rest : str) (position : nat) :
  isLetter c = true ->
  let n := Parser.scanLetters (c :: rest) in
  tokensFrom config (c :: rest) position
  = (mkToken VARIABLE (firstn n (c :: rest)) position (position + n)
       :: fst (tokensFrom config (skipn n (c :: rest)) (position + n)),
     appLog (if isSupportedVariable (firstn n (c :: rest)) then noLog
             else addWarning unusual_format)
            (snd (tokensFrom config (skipn n (c :: rest)) (position + n)))).
Proof.
  intros Hl n. unfold tokensFrom. cbn [length].
  rewrite tokenizeFrom_letter by exact Hl. unfold Parser.parseVariable. fold n.
  replace (position + n - position) with n by lia.
  pose proof (scanLetters_pos c rest Hl) as Hp. fold n in Hp.
  assert (Hs : length (skipn n (c :: rest)) < length (c :: rest))
    by (apply skipn_shorter; [lia|discriminate]).
  cbn [length] in Hs.
  rewrite (tokenizeFrom_fuel config (length rest) (length (skipn n (c :: rest)))) by lia.
  destruct (Parser.tokenizeFrom config _ _ _); reflexivity.
Qed.

(** *** Numerals *)

Lemma takeDigits_spec (s : str) :
  s = fst (takeDigits s) ++ snd (takeDigits s)
  /\ forallb isDigit (fst (takeDigits s)) = true.
Proof.
  induction s as [|c s [IH1 IH2]]; [split; reflexivity|].
  cbn [takeDigits]. destruct (isDigit c) eqn:Hd; [|split; reflexivity].
  destruct (takeDigits s) as [ds r]. cbn [fst snd] in *.
  split; [cbn; congruence|cbn; now rewrite Hd].
Qed.

(** The shape of a numeral: digits, then possibly a point and digits. *)
Lemma isNumeral_inv (a : str) :
  isNumeral a = true ->
  exists d ds fs (point : bool),
    a = (d :: ds) ++ (if point then "."%char :: fs else [])
    /\ forallb isDigit (d :: ds) = true
    /\ forallb isDigit fs = true.
Proof.
  unfold isNumeral. intros H.
  destruct (takeDigits_spec a) as [Heq Hds].
  destruct (takeDigits a) as [[|d ds] r]; [discriminate H|]. cbn [fst snd] in *.
  destruct r as [|c r].
  - exists d, ds, [], false. repeat split; assumption.
  - apply andb_prop in H. destruct H as [Hc Hr]. apply Ascii.eqb_eq in Hc. subst c.
    exists d, ds, r, true. repeat split; assumption.
Qed.

Lemma scanNumber_digits (ds tail : str) (seen : bool) :
  forallb isDigit ds = true ->
  Parser.scanNumber config (ds ++ tail) seen = length ds + Parser.scanNumber config tail seen.
Proof.
  induction ds as [|c ds IH]; intros H; [reflexivity|].
  cbn [forallb] in H. apply andb_prop in H. destruct H as [Hc Hds].
  cbn [app Parser.scanNumber length]. rewrite Hc, IH by exact Hds. reflexivity.
Qed.

Lemma scanNumber_stops (c : ascii) (tail : str) (seen : bool) :
  endsNumber c = true -> Parser.scanNumber config (c :: tail) seen = 0.
Proof.
  unfold endsNumber. intros H. apply andb_prop in H. destruct H as [Hd Hp].
  cbn [Parser.scanNumber].
  destruct (isDigit c); [discriminate Hd|].
  destruct (Ascii.eqb c "."%char); [discriminate Hp|]. reflexivity.
Qed.

Hypothesis decimals : allowDecimals config = true.

(** The tokenizer reads a numeral as one number, up to the next character
    that cannot continue it. *)
Lemma scanNumber_numeral (a : str) (c : ascii) (tail : str) :
  isNumeral a = true -> endsNumber c = true ->
  Parser.scanNumber config (a ++ c :: tail) false = length a.
Proof.
  intros Ha Hc.
  destruct (isNumeral_inv a Ha) as (d & ds & fs & point & -> & Hds & Hfs).
  rewrite <- app_assoc, scanNumber_digits by exact Hds.
  rewrite length_app. f_equal.
  destruct point.
  - cbn [app Parser.scanNumber]. rewrite decimals.
    change (isDigit "."%char) with false. cbn [Ascii.eqb Bool.eqb andb negb length].
    rewrite scanNumber_digits by exact Hfs.
    rewrite scanNumber_stops by exact Hc. lia.
  - cbn [app length]. apply scanNumber_stops. exact Hc.
Qed.

Lemma numeral_head (a : str) :
  isNumeral a = true -> exists d a', a = d :: a' /\ isDigit d = true.
Proof.
  intros Ha.
  destruct (isNumeral_inv a Ha) as (d & ds & fs & point & -> & Hds & _).
  cbn [forallb] in Hds. apply andb_prop in Hds. destruct Hds as [Hd _].
  exists d. eexists. split; [reflexivity|exact Hd].
Qed.

Lemma tokensFrom_numeral (a : str) (c : ascii) (tail : str) (position : nat) :
  isNumeral a = true -> endsNumber c = true ->
  tokensFrom config (a ++ c :: tail) position
  = (mkToken NUMBER a position (position + length a)
       :: fst (tokensFrom config (c :: tail) (position + length a)),
     snd (tokensFrom config (c :: tail) (position + length a))).
Proof.
  intros Ha Hc.
  pose proof (scanNumber_numeral a c tail Ha Hc) as Hn.
  destruct (numeral_head a Ha) as (d & a' & Heq & Hd).
  rewrite Heq in *. cbn [app] in *.
  rewrite tokensFrom_number by exact Hd. cbv zeta. rewrite Hn.
  change (d :: a' ++ c :: tail) with ((d :: a') ++ c :: tail).
  rewrite firstn_app, Nat.sub_diag, firstn_all, skipn_app, Nat.sub_diag, skipn_all.
  cbn [firstn skipn app]. rewrite app_nil_r. reflexivity.
Qed.

Lemma letter_endsNumber (v : ascii) : isLetter v = true -> endsNumber v = true.
Proof.
  destruct v as [[] [] [] [] [] [] [] []]; intros H; try reflexivity; discriminate H.
Qed.

(** The tokens of the string form: an optional minus sign, then
    NUMBER [a], VARIABLE [v], OPERATOR [+], NUMBER [b], EQUALS, NUMBER [0]. *)
Lemma tokenize_linearEquationString (negative : bool) (a b : str) (v : ascii) :
  isNumeral a = true -> isNumeral b = true -> isLetter v = true ->
  exists p0 p1 p2 p3 p4 p5 p6 q0 q1 q2 q3 q4 q5 q6,
    Parser.tokenize config (linearEquationString negative a v b)
    = ((if negative then [mkToken OPERATOR (lit "-") p0 q0] else [])
       ++ [ mkToken NUMBER a p1 q1; mkToken VARIABLE [v] p2 q2;
            mkToken OPERATOR (lit "+") p3 q3; mkToken NUMBER b p4 q4;
            mkToken EQUALS (lit "=") p5 q5; mkToken NUMBER (lit "0") p6 q6 ],
       if isSupportedVariable [v] then noLog else addWarning unusual_format).
Proof.
  intros Ha Hb Hv.
  assert (Hrest : forall position,
    exists p1 p2 p3 p4 p5 p6 q1 q2 q3 q4 q5 q6,
      tokensFrom config (a ++ [v] ++ lit " + " ++ b ++ lit " = 0") position
      = ([ mkToken NUMBER a p1 q1; mkToken VARIABLE [v] p2 q2;
           mkToken OPERATOR (lit "+") p3 q3; mkToken NUMBER b p4 q4;
           mkToken EQUALS (lit "=") p5 q5; mkToken NUMBER (lit "0") p6 q6 ],
         if isSupportedVariable [v] then noLog else addWarning unusual_format)).
  { intros position.
    change (lit " + ") with [" "; "+"; " "]%char.
    change (lit " = 0") with [" "; "="; " "; "0"]%char.
    cbn [app].
    rewrite tokensFrom_numeral by (try apply letter_endsNumber; assumption).
    rewrite tokensFrom_variable by exact Hv. cbv zeta.
    cbn [Parser.scanLetters]. rewrite Hv. change (isLetter " "%char) with false.
    cbn [firstn skipn].
    rewrite tokensFrom_space by reflexivity.
    rewrite (tokensFrom_symbol "+"%char OPERATOR) by reflexivity.
    rewrite tokensFrom_space by reflexivity.
    rewrite tokensFrom_numeral by (try reflexivity; assumption).
    rewrite tokensFrom_space by reflexivity.
    rewrite (tokensFrom_symbol "="%char EQUALS) by reflexivity.
    rewrite tokensFrom_space by reflexivity.
    rewrite tokensFrom_number by reflexivity. cbv zeta.
    change (Parser.scanNumber config ["0"%char] false) with 1.
    cbn [firstn skipn]. unfold tokensFrom at 1 2. cbn [length Parser.tokenizeFrom fst snd].
    do 12 eexists. f_equal.
    destruct (isSupportedVariable [v]); reflexivity. }
  unfold linearEquationString. rewrite tokenize_tokensFrom.
  destruct negative.
  - change (lit "-") with ["-"%char]. cbn [app] in Hrest |- *.
    rewrite (tokensFrom_symbol "-"%char OPERATOR) by reflexivity.
    destruct (Hrest 1) as (p1 & p2 & p3 & p4 & p5 & p6 & q1 & q2 & q3 & q4 & q5 & q6 & ->).
    cbn [fst snd app].
    exists 0, p1, p2, p3, p4, p5, p6, (0 + 1), q1, q2, q3, q4, q5, q6. reflexivity.
  - cbn [app] in Hrest |- *.
    destruct (Hrest 0) as (p1 & p2 & p3 & p4 & p5 & p6 & q1 & q2 & q3 & q4 & q5 & q6 & ->).
    exists 0, p1, p2, p3, p4, p5, p6, 0, q1, q2, q3, q4, q5, q6. reflexivity.
Qed.

(** *** The two sides *)

Lemma parseExpression_linear_side (negative : bool) (a b : str) (v : ascii)
    (p0 p1 p2 p3 p4 q0 q1 q2 q3 q4 : nat) :
  Parser.parseExpression
    ((if negative then [mkToken OPERATOR (lit "-") p0 q0] else [])
     ++ [ mkToken NUMBER a p1 q1; mkToken VARIABLE [v] p2 q2;
          mkToken OPERATOR (lit "+") p3 q3; mkToken NUMBER b p4 q4 ])
  = ({| expr_type := binary_operation;
        terms := Some (collectLikeTerms
                   [ parsedVariableTerm negative a v
                       {| span_start := if negative then p0 else p1; span_end := q2 |};
                     parsedConstantTerm b {| span_start := p3; span_end := q4 |} ]);
        simplified := Some false |}, noLog).
Proof. destruct negative; reflexivity. Qed.

Lemma parseExpression_zero_side (p q : nat) :
  Parser.parseExpression [mkToken NUMBER (lit "0") p q]
  = ({| expr_type := binary_operation; terms := Some []; simplified := Some false |}, noLog).
Proof. vm_compute. reflexivity. Qed.

Lemma supportedVariable_cases (v : ascii) :
  isSupportedVariable [v] = true ->
  In v ["x"; "y"; "z"; "a"; "b"; "c"; "n"; "t"]%char.
Proof.
  destruct v as [[] [] [] [] [] [] [] []]; intros H; try discriminate H; cbn; auto 10.
Qed.

Lemma supportedVariable_letter (v : ascii) :
  isSupportedVariable [v] = true -> isLetter v = true.
Proof.
  intros H. apply supportedVariable_cases in H. cbn in H.
  repeat (destruct H as [<-|H]; [reflexivity|]). destruct H.
Qed.

(** With a supported letter as variable, the two terms land in two entries
    of the dictionary and come back in their order. *)
Lemma collectLikeTerms_linear_side (negative : bool) (a b : str) (v : ascii) (p q : Span) :
  isSupportedVariable [v] = true ->
  collectLikeTerms [parsedVariableTerm negative a v p; parsedConstantTerm b q]
  = filter keepsTerm [parsedVariableTerm negative a v p; parsedConstantTerm b q].
Proof.
  intros H. apply supportedVariable_cases in H. cbn in H.
  repeat (destruct H as [<-|H]; [reflexivity|]). destruct H.
Qed.

Lemma keepsTerm_parsedVariableTerm (negative : bool) (a : str) (v : ascii) (p : Span) :
  keepsTerm (parsedVariableTerm negative a v p)
  = PrimFloat.ltb EPSILON (Math_abs (parseFloat a)).
Proof.
  unfold keepsTerm, parsedVariableTerm, Math_abs. cbn [coefficient].
  destruct negative.
  - now rewrite float_minus_one_mul, float_abs_opp.
  - now rewrite float_one_mul.
Qed.

Lemma keepsTerm_parsedConstantTerm (b : str) (p : Span) :
  keepsTerm (parsedConstantTerm b p) = PrimFloat.ltb EPSILON (Math_abs (parseFloat b)).
Proof.
  unfold keepsTerm, parsedConstantTerm. cbn [coefficient]. now rewrite float_one_mul.
Qed.

(** *** Solving [A v + B = 0] *)

(** On an equation whose left side is the variable term [tA] (then possibly
    the constant term [tB]) and whose right side is empty, the solver returns
    the quotient of the negated constant by the coefficient. *)
Lemma solve_linear (equation : EquationAST) (v : ascii) (tA tB : Term) (keepB : bool) :
  termsOf (left equation) = tA :: (if keepB then [tB] else []) ->
  termsOf (right equation) = [] ->
  variables equation = [[v]] ->
  variable tA = Some [v] -> isConstant tA = false ->
  variable tB = None -> isConstant tB = true ->
  PrimFloat.ltb EPSILON (Math_abs (coefficient tA)) = true ->
  (keepB = true -> PrimFloat.ltb EPSILON (Math_abs (coefficient tB)) = true) ->
  exists sol,
    Engine.solve equation = Ok sol
    /\ sol_variable sol = [v]
    /\ value sol
       = PrimFloat.div (PrimFloat.opp (if keepB then coefficient tB else 0%float))
                       (coefficient tA).
Proof.
  intros Hl Hr Hvars HvA HcA HvB HcB HA HB.
  assert (Hacc : Engine.accumulated equation [v]
                 = (coefficient tA, if keepB then coefficient tB else 0%float)).
  { unfold Engine.accumulated. rewrite Hl, Hr. cbn [fold_left].
    unfold Engine.accumulateLeft at 2. rewrite HvA.
    cbn [opt_str_eqb str_eqb]. rewrite Ascii.eqb_refl. cbn [andb].
    rewrite float_zero_add by (apply above_EPSILON_not_zero; exact HA).
    destruct keepB; [|reflexivity].
    cbn [fold_left]. unfold Engine.accumulateLeft. rewrite HvB, HcB. cbn [opt_str_eqb].
    rewrite float_zero_add by (apply above_EPSILON_not_zero; apply HB; reflexivity).
    reflexivity. }
  assert (Hsolve : Engine.solveMathematically equation [v]
                   = Ok (PrimFloat.div
                           (PrimFloat.opp (if keepB then coefficient tB else 0%float))
                           (coefficient tA))).
  { unfold Engine.solveMathematically. rewrite Hacc.
    rewrite (float_ltb_asym _ _ HA). reflexivity. }
  set (x := PrimFloat.div (PrimFloat.opp (if keepB then coefficient tB else 0%float))
                          (coefficient tA)) in *.
  assert (Hleft : exists l, Evaluator.evaluateWithSubstitution (left equation) [v] x = Ok l).
  { unfold Evaluator.evaluateWithSubstitution. unfold termsOf in Hl.
    destruct (terms (left equation)) as [ts|]; [|discriminate Hl]. subst ts.
    cbn [Evaluator.sumTerms]. unfold Evaluator.evaluateTerm at 1.
    rewrite HcA, HvA. cbn [opt_str_eqb str_eqb]. rewrite Ascii.eqb_refl. cbn [andb bind].
    destruct keepB; cbn [Evaluator.sumTerms]; [|eauto].
    unfold Evaluator.evaluateTerm. rewrite HcB. cbn [bind]. eauto. }
  assert (Hright : Evaluator.evaluateWithSubstitution (right equation) [v] x = Ok 0%float).
  { unfold Evaluator.evaluateWithSubstitution. unfold termsOf in Hr.
    destruct (terms (right equation)) as [ts|]; [subst ts|]; reflexivity. }
  destruct Hleft as [l Hleft].
  unfold Engine.solve, Engine.generateSteps.
  destruct (generateOptimalSequence_optimal equation) as [ss [_ ->]].
  cbn [bind tryCatch steps].
  unfold Engine.applySolutionSteps. rewrite Hvars, Hsolve. cbn [bind].
  unfold Engine.verifySolution. cbn [Engine.ps_variable Engine.ps_value].
  rewrite Hleft, Hright. cbn [bind].
  eexists. split; [reflexivity|]. split; reflexivity.
Qed.

(** *** The input checks accept the string form *)

Lemma numeral_chars (a : str) : isNumeral a = true -> forallb numeralChar a = true.
Proof.
  intros Ha. destruct (isNumeral_inv a Ha) as (d & ds & fs & point & -> & Hds & Hfs).
  assert (Hdigits : forall l, forallb isDigit l = true -> forallb numeralChar l = true).
  { induction l as [|c l IH]; [reflexivity|]. cbn [forallb]. intros H.
    apply andb_prop in H. destruct H as [Hc Hl]. unfold numeralChar at 1.
    rewrite Hc, IH by exact Hl. reflexivity. }
  rewrite forallb_app, Hdigits by exact Hds.
  destruct point; [|reflexivity]. cbn [forallb andb]. rewrite Hdigits by exact Hfs.
  reflexivity.
Qed.

Lemma forallb_weaken {A} (P Q : A -> bool) (l : list A) :
  (forall x, P x = true -> Q x = true) -> forallb P l = true -> forallb Q l = true.
Proof.
  intros HPQ. induction l as [|x l IH]; [reflexivity|]. cbn [forallb]. intros H.
  apply andb_prop in H. destruct H as [Hx Hl]. now rewrite HPQ, IH.
Qed.

Lemma linearEquationString_chars (negative : bool) (a b : str) (v : ascii) :
  isNumeral a = true -> isNumeral b = true -> isLetter v = true ->
  forallb equationChar (linearEquationString negative a v b) = true.
Proof.
  intros Ha Hb Hv. unfold linearEquationString.
  assert (Hn : forall n, isNumeral n = true -> forallb equationChar n = true).
  { intros n Hnum. apply (forallb_weaken numeralChar); [|now apply numeral_chars].
    intros c Hc. unfold equationChar. now rewrite Hc. }
  rewrite !forallb_app, (Hn a Ha), (Hn b Hb).
  cbn [forallb andb]. unfold equationChar at 2. rewrite Hv, orb_true_r.
  destruct negative; reflexivity.
Qed.

Lemma equationChar_cases (c : ascii) :
  equationChar c = true ->
  Validator.isValidChar c = true
  /\ Ascii.eqb c "("%char = false /\ Ascii.eqb c ")"%char = false.
Proof.
  destruct c as [[] [] [] [] [] [] [] []]; intros H; try discriminate H; repeat split.
Qed.

Lemma balanceFrom_without_parentheses (s : str) (position : nat) :
  forallb equationChar s = true -> Validator.balanceFrom s 0 position = [].
Proof.
  revert position. induction s as [|c s IH]; intros position H; [reflexivity|].
  cbn [forallb] in H. apply andb_prop in H. destruct H as [Hc Hs].
  destruct (equationChar_cases c Hc) as (_ & Ho & Hcl).
  cbn [Validator.balanceFrom]. rewrite Ho, Hcl. now apply IH.
Qed.

Lemma operatorRuns_noOperatorPair (s run : str) :
  length run <= 1 ->
  noOperatorPair (negb (length run =? 0)) s = true ->
  Validator.operatorRuns s run = [].
Proof.
  revert run. induction s as [|c s IH]; intros run Hlen H.
  - cbn [Validator.operatorRuns]. destruct (Nat.leb_spec 2 (length run)); [lia|reflexivity].
  - cbn [Validator.operatorRuns noOperatorPair] in *.
    destruct (Validator.isOperatorChar c).
    + apply andb_prop in H. destruct H as [Hp Hs].
      destruct run as [|r run]; [|discriminate Hp].
      apply IH; [cbn; lia|exact Hs].
    + destruct (Nat.leb_spec 2 (length run)); [lia|]. cbn [app].
      apply (IH []); [cbn; lia|exact H].
Qed.

Lemma numeralChar_not_operator (c : ascii) :
  numeralChar c = true -> Validator.isOperatorChar c = false /\ Ascii.eqb "="%char c = false.
Proof.
  destruct c as [[] [] [] [] [] [] [] []]; intros H; try discriminate H; split; reflexivity.
Qed.

Lemma noOperatorPair_numeral (previous : bool) (a rest : str) :
  isNumeral a = true ->
  noOperatorPair previous (a ++ rest) = noOperatorPair false rest.
Proof.
  intros Ha. pose proof (numeral_chars a Ha) as Hchars.
  destruct (numeral_head a Ha) as (d & a' & -> & _).
  clear Ha. revert previous d Hchars.
  induction a' as [|c a' IH]; intros previous d Hchars;
    cbn [forallb] in Hchars; apply andb_prop in Hchars; destruct Hchars as [Hd Hrest];
    destruct (numeralChar_not_operator d Hd) as [Hop _];
    cbn [app noOperatorPair]; rewrite Hop.
  - reflexivity.
  - apply (IH false c). exact Hrest.
Qed.

Lemma filter_equals_numeral (a : str) :
  forallb numeralChar a = true -> filter (Ascii.eqb "="%char) a = [].
Proof.
  induction a as [|c a IH]; intros Hchars; [reflexivity|].
  cbn [forallb] in Hchars. apply andb_prop in Hchars. destruct Hchars as [Hc Hrest].
  destruct (numeralChar_not_operator c Hc) as [_ Heq].
  cbn [filter]. rewrite Heq. now apply IH.
Qed.

Lemma letter_not_operator (v : ascii) :
  isLetter v = true ->
  Validator.isOperatorChar v = false /\ Ascii.eqb "="%char v = false /\ isSpace v = false.
Proof.
  destruct v as [[] [] [] [] [] [] [] []]; intros H; try discriminate H; repeat split.
Qed.

(** [validateInput] finds nothing to report in the string form. *)
Lemma validateInput_linearEquationString (negative : bool) (a b : str) (v : ascii) :
  isNumeral a = true -> isNumeral b = true -> isLetter v = true ->
  vr_errors (Validator.validateInput (linearEquationString negative a v b)) = []
  /\ vr_isValid (Validator.validateInput (linearEquationString negative a v b)) = true.
Proof.
  intros Ha Hb Hv.
  pose proof (linearEquationString_chars negative a b v Ha Hb Hv) as Hchars.
  destruct (letter_not_operator v Hv) as (Hvop & Hveq & Hvsp).
  assert (Hempty : Validator.checkEmptyInput (linearEquationString negative a v b) = []).
  { unfold Validator.checkEmptyInput, linearEquationString.
    destruct (numeral_head a Ha) as (d & a' & -> & Hd).
    pose proof (digit_not_space d Hd) as Hds.
    destruct negative; cbn [app forallb lit list_ascii_of_string]; [reflexivity|].
    rewrite Hds. reflexivity. }
  assert (Hvalid : Validator.checkValidCharacters (linearEquationString negative a v b) = []).
  { unfold Validator.checkValidCharacters.
    rewrite (forallb_weaken equationChar Validator.isValidChar); [reflexivity| |exact Hchars].
    intros c Hc. apply (equationChar_cases c Hc). }
  assert (Hequals : Validator.checkEqualsSign (linearEquationString negative a v b) = []).
  { unfold Validator.checkEqualsSign, Validator.equalsCount, linearEquationString.
    rewrite !filter_app.
    rewrite (filter_equals_numeral a), (filter_equals_numeral b)
      by (apply numeral_chars; assumption).
    cbn [filter app]. rewrite Hveq. destruct negative; reflexivity. }
  assert (Hbalance :
            Validator.checkParenthesesBalance (linearEquationString negative a v b) = []).
  { apply balanceFrom_without_parentheses. exact Hchars. }
  assert (Hops : Validator.checkConsecutiveOperators (linearEquationString negative a v b)
                 = noLog).
  { unfold Validator.checkConsecutiveOperators.
    rewrite operatorRuns_noOperatorPair; [reflexivity|cbn; lia|].
    unfold linearEquationString. cbn [length Nat.eqb negb].
    assert (Htail : noOperatorPair false (a ++ [v] ++ lit " + " ++ b ++ lit " = 0") = true).
    { rewrite noOperatorPair_numeral by exact Ha.
      cbn [app noOperatorPair lit list_ascii_of_string]. rewrite Hvop.
      change (Validator.isOperatorChar " "%char) with false.
      change (Validator.isOperatorChar "+"%char) with true.
      cbn [negb andb].
      rewrite noOperatorPair_numeral by exact Hb. reflexivity. }
    destruct negative; [|exact Htail].
    cbn [app lit list_ascii_of_string noOperatorPair].
    change (Validator.isOperatorChar "-"%char) with true. cbn [negb andb].
    rewrite noOperatorPair_numeral by exact Ha.
    rewrite noOperatorPair_numeral in Htail by exact Ha. exact Htail. }
  unfold Validator.validateInput. cbn [vr_errors vr_isValid].
  rewrite Hempty, Hvalid, Hequals, Hbalance, Hops. split; reflexivity.
Qed.

Lemma detectEquationType_no_error (equation : EquationAST) :
  log_errors (snd (Parser.detectEquationType equation)) = [].
Proof.
  unfold Parser.detectEquationType.
  repeat case_condition; reflexivity.
Qed.


(** *** The round trip *)

Lemma parseEquation_linearEquationString (negative : bool) (a b : str) (v : ascii) :
  isNumeral a = true -> isNumeral b = true -> isSupportedVariable [v] = true ->
  exists equation p q,
    ast (Parser.parseEquation config (linearEquationString negative a v b)) = Some equation
    /\ errors (Parser.parseEquation config (linearEquationString negative a v b)) = []
    /\ warnings (Parser.parseEquation config (linearEquationString negative a v b)) = []
    /\ termsOf (left equation)
       = filter keepsTerm [parsedVariableTerm negative a v p; parsedConstantTerm b q]
    /\ termsOf (right equation) = []
    /\ variables equation
       = Parser.extractVariablesFromExpressions [left equation; right equation].
Proof.
  intros Ha Hb Hv.
  destruct (tokenize_linearEquationString negative a b v Ha Hb
              (supportedVariable_letter v Hv))
    as (p0 & p1 & p2 & p3 & p4 & p5 & p6 & q0 & q1 & q2 & q3 & q4 & q5 & q6 & Htok).
  rewrite Hv in Htok.
  unfold Parser.parseEquation. rewrite Htok.
  pose proof (parseExpression_linear_side negative a b v p0 p1 p2 p3 p4 q0 q1 q2 q3 q4)
    as Hleft.
  rewrite collectLikeTerms_linear_side in Hleft by exact Hv.
  pose proof (parseExpression_zero_side p6 q6) as Hright.
  destruct negative; cbn [app] in Hleft |- *;
    cbn [Parser.findEqualsSign tok_type mkToken TokenType_eqb option_map firstn skipn Nat.add];
    rewrite Hleft, Hright;
    do 3 eexists; cbn [ast errors warnings Parser.createParseResult appLog noLog
                         log_errors log_warnings app];
    repeat split.
Qed.

(** Solving an equation whose sides are the ones the parser builds from
    [a v + b] and [0]. *)
Lemma solve_parsed_linear (negative : bool) (a b : str) (v : ascii) (p q : Span)
    (equation : EquationAST) :
  termsOf (left equation)
  = filter keepsTerm [parsedVariableTerm negative a v p; parsedConstantTerm b q] ->
  termsOf (right equation) = [] ->
  variables equation
  = Parser.extractVariablesFromExpressions [left equation; right equation] ->
  PrimFloat.ltb EPSILON (Math_abs (parseFloat a)) = true ->
  PrimFloat.ltb EPSILON (Math_abs (parseFloat b)) = true \/ parseFloat b = 0%float ->
  exists sol,
    Engine.solve equation = Ok sol
    /\ sol_variable sol = [v]
    /\ value sol = PrimFloat.div (PrimFloat.opp (parseFloat b)) (signedValue negative a).
Proof.
  intros Hl Hr Hvars HA HB.
  set (tA := parsedVariableTerm negative a v p) in *.
  set (tB := parsedConstantTerm b q) in *.
  assert (HkA : keepsTerm tA = true)
    by (unfold tA; rewrite keepsTerm_parsedVariableTerm; exact HA).
  assert (HcA : coefficient tA = signedValue negative a).
  { unfold tA, parsedVariableTerm, signedValue. cbn [coefficient].
    destruct negative; [apply float_minus_one_mul|apply float_one_mul]. }
  assert (HcB : coefficient tB = parseFloat b)
    by (unfold tB, parsedConstantTerm; cbn [coefficient]; apply float_one_mul).
  assert (Hkeep : exists keepB,
             keepsTerm tB = keepB
             /\ (if keepB then coefficient tB else 0%float) = parseFloat b).
  { destruct HB as [HB|HB].
    - exists true. split; [|exact HcB].
      unfold tB. rewrite keepsTerm_parsedConstantTerm. exact HB.
    - exists false. split; [|symmetry; exact HB].
      unfold tB. rewrite keepsTerm_parsedConstantTerm, HB. reflexivity. }
  destruct Hkeep as (keepB & HkB & HvalB).
  cbn [filter] in Hl. rewrite HkA, HkB in Hl.
  assert (Hl' : termsOf (left equation) = tA :: (if keepB then [tB] else []))
    by (rewrite Hl; destruct keepB; reflexivity).
  assert (Hvars' : variables equation = [[v]]).
  { rewrite Hvars. unfold Parser.extractVariablesFromExpressions.
    cbn [fold_left]. rewrite Hl', Hr. destruct keepB; reflexivity. }
  destruct (solve_linear equation v tA tB keepB Hl' Hr Hvars') as (sol & Hsol & Hvar & Hval);
    try reflexivity.
  - unfold keepsTerm in HkA. exact HkA.
  - intros ->. unfold keepsTerm in HkB. exact HkB.
  - exists sol. rewrite Hval, HvalB, HcA. repeat split; assumption.
Qed.

(** C2, amended: for numerals [a] and [b] and a supported letter [v], when
    [a] exceeds the tolerance 1e-10 and [b] either exceeds it or is zero,
    parsing the string [a v + b = 0] (with a minus sign in front for a
    negative coefficient) gives an AST without errors, through
    [parseEquation] alone and through [EquationEngine.parse], and solving
    that AST returns for [v] exactly the binary64 quotient [-b / a]. *)
Theorem roundtrip_solve (negative : bool) (a b : str) (v : ascii) :
  isNumeral a = true -> isNumeral b = true -> isSupportedVariable [v] = true ->
  PrimFloat.ltb EPSILON (Math_abs (parseFloat a)) = true ->
  PrimFloat.ltb EPSILON (Math_abs (parseFloat b)) = true \/ parseFloat b = 0%float ->
  forall parse,
    parse = Parser.parseEquation config \/ parse = Engine.parse config ->
    exists equation sol,
      ast (parse (linearEquationString negative a v b)) = Some equation
      /\ errors (parse (linearEquationString negative a v b)) = []
      /\ Engine.solve equation = Ok sol
      /\ sol_variable sol = [v]
      /\ value sol = PrimFloat.div (PrimFloat.opp (parseFloat b)) (signedValue negative a).
Proof.
  intros Ha Hb Hv HA HB parse Hparse.
  destruct (parseEquation_linearEquationString negative a b v Ha Hb Hv)
    as (equation & p & q & Hast & Herr & _ & Hl & Hr & Hvars).
  destruct Hparse as [->| ->].
  - destruct (solve_parsed_linear negative a b v p q equation Hl Hr Hvars HA HB)
      as (sol & Hsol).
    exists equation, sol. split; [exact Hast|]. split; [exact Herr|exact Hsol].
  - destruct (validateInput_linearEquationString negative a b v Ha Hb
                (supportedVariable_letter v Hv)) as [_ Hvalid].
    unfold Engine.parse. rewrite Hvalid, Hast. cbn [negb].
    unfold Engine.enhanceAST.
    pose proof (detectEquationType_no_error equation) as Hdetect.
    destruct (Parser.detectEquationType equation) as [ty lg]. cbn [snd] in Hdetect.
    cbn [ast errors]. rewrite Herr, Hdetect.
    match goal with
    | |- exists e s, Some ?enhanced = Some e /\ _ =>
        destruct (solve_parsed_linear negative a b v p q enhanced Hl Hr eq_refl HA HB)
          as (sol & Hsol);
        exists enhanced, sol
    end.
    split; [reflexivity|]. split; [reflexivity|exact Hsol].
Qed.

End RoundTrip.

(** C2 (amended) at [2x + 3 = 0], through [EquationEngine.parse]. *)
Lemma roundtrip_solve_witness :
  linearEquationString false (lit "2") "x" (lit "3") = lit "2x + 3 = 0"
  /\ PrimFloat.div (PrimFloat.opp (parseFloat (lit "3"))) (signedValue false (lit "2"))
     = (-1.5)%float
  /\ exists equation sol,
       ast (Engine.parse DEFAULT_ENGINE_CONFIG
              (linearEquationString false (lit "2") "x" (lit "3"))) = Some equation
       /\ errors (Engine.parse DEFAULT_ENGINE_CONFIG
                    (linearEquationString false (lit "2") "x" (lit "3"))) = []
       /\ Engine.solve equation = Ok sol
       /\ sol_variable sol = ["x"%char]
       /\ value sol
          = PrimFloat.div (PrimFloat.opp (parseFloat (lit "3"))) (signedValue false (lit "2")).
Proof.
  split; [reflexivity|]. split; [vm_compute; reflexivity|].
  refine (roundtrip_solve DEFAULT_ENGINE_CONFIG eq_refl false (lit "2") (lit "3") "x"%char
            _ _ _ _ _ (Engine.parse DEFAULT_ENGINE_CONFIG) _).
  - vm_compute. reflexivity.
  - vm_compute. reflexivity.
  - vm_compute. reflexivity.
  - vm_compute. reflexivity.
  - left. vm_compute. reflexivity.
  - right. reflexivity.
Defined.

(** C2 as stated fails for the coefficient 0.00000000005, which is not zero:
    the parser drops the term [0.00000000005x] because its coefficient does
    not exceed 1e-10, the AST has no variable left, and [solve] raises. *)
Lemma roundtrip_fails_below_tolerance :
  let a := lit "0.00000000005" in
  let input := linearEquationString false a "x" (lit "1") in
  input = lit "0.00000000005x + 1 = 0"
  /\ isNumeral a = true
  /\ PrimFloat.eqb (parseFloat a) 0 = false
  /\ exists equation,
       ast (Parser.parseEquation DEFAULT_ENGINE_CONFIG input) = Some equation
       /\ ast (Engine.parse DEFAULT_ENGINE_CONFIG input) <> None
       /\ variables equation = []
       /\ Engine.solve equation = Throw (SolveFailed NoVariablesFound).
Proof.
  cbv zeta. split; [reflexivity|]. split; [reflexivity|]. split; [vm_compute; reflexivity|].
  eexists. split; [vm_compute; reflexivity|].
  split; [vm_compute; discriminate|]. split; reflexivity.
Qed.

(** A constant that does not exceed the tolerance is dropped as well: the
    input ["0.000000001x + 0.0000000001 = 0"] is solved as [x = -0], although
    [-b/a] is about [-0.1]. *)
Lemma roundtrip_drops_small_constant :
  exists equation sol,
    ast (Parser.parseEquation DEFAULT_ENGINE_CONFIG
           (lit "0.000000001x + 0.0000000001 = 0")) = Some equation
    /\ Engine.solve equation = Ok sol
    /\ value sol = (-0)%float
    /\ PrimFloat.div (PrimFloat.opp (parseFloat (lit "0.0000000001")))
                     (parseFloat (lit "0.000000001"))
       = (-0.099999999999999992)%float.
Proof.
  eexists. eexists. split; [vm_compute; reflexivity|].
  split; [vm_compute; reflexivity|]. split; vm_compute; reflexivity.
Qed.

(** A negative constant written after the plus sign loses its sign:
    [parseSingleTerm] consumes [+], finds no number, and skips the [-] that
    follows, so ["2x + -3 = 0"] is read as [2x + 3 = 0] and solved as
    [x = -1.5]. *)
Lemma roundtrip_negative_constant_example :
  exists equation sol,
    ast (Parser.parseEquation DEFAULT_ENGINE_CONFIG (lit "2x + -3 = 0")) = Some equation
    /\ errors (Parser.parseEquation DEFAULT_ENGINE_CONFIG (lit "2x + -3 = 0")) = []
    /\ map termContent (termsOf (left equation))
       = [ (2%float, Some (lit "x"), Some 1, false); (3%float, None, None, true) ]
    /\ Engine.solve equation = Ok sol
    /\ value sol = (-1.5)%float.
Proof.
  eexists. eexists. split; [vm_compute; reflexivity|].
  split; [vm_compute; reflexivity|]. split; [vm_compute; reflexivity|].
  split; vm_compute; reflexivity.
Qed.

(** The scenarios of the specification, through [EquationEngine.parse] and
    [solve]. *)
Lemma scenarios :
  solveString "x + 5 = 10" = Some (lit "x", 5%float, standard)
  /\ solveString "2x = 10" = Some (lit "x", 5%float, basic)
  /\ solveString "2x + 3 = x + 8" = Some (lit "x", 5%float, standard)
  /\ solveString "3x + 2 = 8" = Some (lit "x", 2%float, distributive)
  /\ ast (Engine.parse DEFAULT_ENGINE_CONFIG (lit "x + 2")) = None
  /\ map err_type (errors (Engine.parse DEFAULT_ENGINE_CONFIG (lit "x + 2"))) = [syntax_error]
  /\ ast (Engine.parse DEFAULT_ENGINE_CONFIG []) = None
  /\ map err_type (errors (Parser.parseEquation DEFAULT_ENGINE_CONFIG []))
     = [empty_expression].
Proof. repeat split; vm_compute; reflexivity. Qed.

(** ** When collecting like terms changes nothing *)

Lemma str_eqb_eq (a b : str) : str_eqb a b = true <-> a = b.
Proof.
  revert b. induction a as [|x a IH]; intros [|y b]; cbn; split; try congruence;
    try discriminate.
  - intros H. apply andb_prop in H. destruct H as [Hx Ha].
    apply Ascii.eqb_eq in Hx. apply IH in Ha. congruence.
  - intros H. injection H as -> ->. rewrite Ascii.eqb_refl. now apply IH.
Qed.

Lemma own_absent {V} (o : Dict V) (k : str) : ~ In k (map fst o) -> own o k = None.
Proof.
  induction o as [|[k' v] o IH]; intros H; [reflexivity|]. cbn [own].
  destruct (str_eqb k k') eqn:Hk.
  - apply str_eqb_eq in Hk. subst k'. exfalso. apply H. left. reflexivity.
  - apply IH. intros Hin. apply H. right. exact Hin.
Qed.

(** Terms with fresh, ordinary keys are appended to the dictionary as they
    are. *)
Lemma fold_groupTerm_fresh (ts : list Term) (groups : Dict Term) :
  NoDup (map fst groups ++ map termKey ts) ->
  forallb (fun t => plainKey (termKey t)) ts = true ->
  fold_left groupTerm ts groups = groups ++ map (fun t => (termKey t, t)) ts.
Proof.
  revert groups. induction ts as [|t ts IH]; intros groups Hnd Hplain.
  - cbn. now rewrite app_nil_r.
  - cbn [forallb] in Hplain. apply andb_prop in Hplain. destruct Hplain as [Ht Hts].
    unfold plainKey in Ht. apply andb_prop in Ht. destruct Ht as [Hinh _].
    apply negb_true_iff in Hinh.
    cbn [fold_left map]. unfold groupTerm at 2.
    rewrite own_absent, Hinh.
    + rewrite IH; [now rewrite <- app_assoc| |exact Hts].
      rewrite map_app. cbn [map fst]. rewrite <- app_assoc. exact Hnd.
    + cbn [map] in Hnd. apply NoDup_remove_2 in Hnd.
      intros Hin. apply Hnd. apply in_or_app. left. exact Hin.
Qed.

Lemma Object_values_plain {V} (o : Dict V) :
  forallb (fun kv => negb (isArrayIndex (fst kv))) o = true ->
  Object_values o = map snd o.
Proof.
  intros H. unfold Object_values.
  rewrite (forallb_filter_id _ _ H).
  assert (Hnone : filter (fun kv : str * V => isArrayIndex (fst kv)) o = []).
  { clear - H. induction o as [|kv o IH]; [reflexivity|].
    cbn [forallb] in H. apply andb_prop in H. destruct H as [Hkv Ho].
    cbn [filter]. apply negb_true_iff in Hkv. rewrite Hkv. now apply IH. }
  rewrite Hnone. reflexivity.
Qed.

(** Collecting like terms returns a list with distinct keys unchanged. *)
Lemma collectLikeTerms_distinctKeys (ts : list Term) :
  distinctKeys ts -> collectLikeTerms ts = ts.
Proof.
  intros (Hnd & Hplain & Hkeep). unfold collectLikeTerms.
  rewrite fold_groupTerm_fresh by assumption. cbn [app].
  rewrite Object_values_plain.
  - rewrite map_map. cbn [snd]. rewrite map_id. now apply forallb_filter_id.
  - rewrite forallb_forall in *. intros kv Hin. apply in_map_iff in Hin.
    destruct Hin as (t & <- & Hin). cbn [fst]. specialize (Hplain t Hin).
    unfold plainKey in Hplain. apply andb_prop in Hplain. apply Hplain.
Qed.

(** [simplifyExpression] leaves the terms of such an expression as they
    are: this is the case in which simplifying a simplified expression is a
    no-op. *)
Lemma simplifyExpression_distinctKeys (e : Expression) :
  distinctKeys (termsOf e) -> termsOf (Evaluator.simplifyExpression e) = termsOf e.
Proof.
  intros H. unfold Evaluator.simplifyExpression.
  destruct (terms e) as [[|t ts]|] eqn:Hterms; try reflexivity.
  unfold termsOf in *. rewrite Hterms in *. cbn [terms].
  now rewrite collectLikeTerms_distinctKeys.
Qed.

(** Two more ways in which the grouping key merges or loses terms that are
    not like terms: a variable named ["constant"] shares the key of the
    constants, and a variable named like a property of [Object.prototype]
    never enters the dictionary. *)
Lemma simplifyExpression_variable_named_constant :
  let e := expressionOf [variableTerm 2 "constant" 1; constantTerm 3] in
  alreadySimplified e = true
  /\ map termContent (termsOf (Evaluator.simplifyExpression e))
     = [ (5%float, Some (lit "constant"), Some 1, false) ].
Proof. split; reflexivity. Qed.

Lemma simplifyExpression_variable_named_constructor :
  let e := expressionOf [variableTerm 2 "constructor" 1; constantTerm 3] in
  alreadySimplified e = true
  /\ map termContent (termsOf (Evaluator.simplifyExpression e))
     = [ (3%float, None, None, true) ].
Proof. split; reflexivity. Qed.

(** The backend's [solve] has no failure at all. *)
Lemma backend_solve_always_returns (equation : EquationAST) :
  exists sol, Backend.solve equation = Ok sol.
Proof. unfold Backend.solve. eauto. Qed.

(** ** What collecting like terms guarantees *)

Lemma own_present {V} (o : Dict V) (k : str) (v : V) :
  own o k = Some v -> In k (map fst o).
Proof.
  induction o as [|[k' v'] o IH]; cbn [own map fst]; [discriminate|].
  destruct (str_eqb k k') eqn:Hk.
  - intros _. left. symmetry. now apply str_eqb_eq.
  - intros H. right. now apply IH.
Qed.

Lemma update_keys {V} (o : Dict V) (k : str) (f : V -> V) :
  map fst (update o k f) = map fst o.
Proof.
  induction o as [|[k' v] o IH]; [reflexivity|]. cbn [update].
  destruct (str_eqb k k'); cbn [map fst]; [reflexivity|]. now rewrite IH.
Qed.

Lemma update_In {V} (o : Dict V) (k : str) (f : V -> V) (k' : str) (v' : V) :
  In (k', v') (update o k f) ->
  In (k', v') o \/ exists v, In (k', v) o /\ v' = f v.
Proof.
  induction o as [|[k0 v0] o IH]; cbn [update]; [intros []|].
  destruct (str_eqb k k0).
  - intros [H|H].
    + injection H as <- <-. right. exists v0. split; [left; reflexivity|reflexivity].
    + left. right. exact H.
  - intros [H|H].
    + left. left. exact H.
    + destruct (IH H) as [H'|(v & H' & ->)].
      * left. right. exact H'.
      * right. exists v. split; [right; exact H'|reflexivity].
Qed.

Lemma groupTerm_groupsOf (ts : list Term) (groups : Dict Term) (term : Term) :
  groupsOf ts groups -> In term ts -> groupsOf ts (groupTerm groups term).
Proof.
  intros [Hnd Hin] Hterm. unfold groupTerm.
  destruct (own groups (termKey term)) as [v|] eqn:Hown.
  - split; [now rewrite update_keys|].
    intros k t Hk. apply update_In in Hk. destruct Hk as [Hk|(v' & Hk & ->)].
    + now apply Hin.
    + destruct (Hin k v' Hk) as (Hkey & Hinh & t0 & Ht0 & Hshape).
      repeat split; try assumption. exists t0. split; assumption.
  - destruct (inherited (termKey term)) eqn:Hinh; [split; assumption|].
    split.
    + rewrite map_app. cbn [map fst]. apply NoDup_app_remove_l with (l := []).
      cbn [app]. apply Permutation_NoDup with (l := termKey term :: map fst groups).
      * apply Permutation_cons_append.
      * constructor; [|exact Hnd].
        intros Habs. apply in_map_iff in Habs. destruct Habs as ([k t] & Hk & Hkt).
        cbn [fst] in Hk. subst k.
        assert (Hsome : own groups (termKey term) <> None).
        { clear - Hkt. induction groups as [|[k0 v0] groups IH]; [destruct Hkt|].
          cbn [own]. destruct (str_eqb (termKey term) k0) eqn:Hk0; [discriminate|].
          destruct Hkt as [Heq|Hkt]; [|now apply IH].
          injection Heq as -> _. exfalso.
          assert (H : str_eqb (termKey term) (termKey term) = true) by now apply str_eqb_eq.
          congruence. }
        congruence.
    + intros k t Hk. apply in_app_or in Hk. destruct Hk as [Hk|[Hk|[]]].
      * now apply Hin.
      * injection Hk as <- <-. repeat split; try assumption. exists term. now split.
Qed.

Lemma fold_groupTerm_groupsOf (ts us : list Term) (groups : Dict Term) :
  groupsOf ts groups -> incl us ts -> groupsOf ts (fold_left groupTerm us groups).
Proof.
  revert groups. induction us as [|u us IH]; intros groups Hg Hincl; [exact Hg|].
  cbn [fold_left]. apply IH.
  - apply groupTerm_groupsOf; [exact Hg|]. apply Hincl. left. reflexivity.
  - intros t Ht. apply Hincl. right. exact Ht.
Qed.

Lemma insertByIndex_Permutation {V} (kv : str * V) (l : Dict V) :
  Permutation (insertByIndex kv l) (kv :: l).
Proof.
  induction l as [|kv' l IH]; cbn [insertByIndex]; [reflexivity|].
  destruct (decimalValue (fst kv) <? decimalValue (fst kv'))%Z; [reflexivity|].
  rewrite IH. apply perm_swap.
Qed.

Lemma filter_split_Permutation {A} (p : A -> bool) (l : list A) :
  Permutation (filter p l ++ filter (fun a => negb (p a)) l) l.
Proof.
  induction l as [|a l IH]; [reflexivity|]. cbn [filter].
  destruct (p a); cbn [negb app].
  - now constructor.
  - rewrite <- Permutation_middle. now constructor.
Qed.

(** [Object.values] lists every value once, in some order. *)
Lemma Object_values_Permutation {V} (o : Dict V) :
  Permutation (Object_values o) (map snd o).
Proof.
  unfold Object_values. apply Permutation_map.
  rewrite <- (filter_split_Permutation (fun kv => isArrayIndex (fst kv)) o) at 3.
  apply Permutation_app_tail.
  induction (filter (fun kv : str * V => isArrayIndex (fst kv)) o) as [|kv l IH];
    [reflexivity|].
  cbn [fold_right]. rewrite insertByIndex_Permutation. now constructor.
Qed.

Lemma groupsOf_values (ts : list Term) (groups : Dict Term) :
  groupsOf ts groups ->
  NoDup (map termKey (map snd groups))
  /\ forall t, In t (map snd groups) ->
       inherited (termKey t) = false
       /\ exists t0, In t0 ts /\ termShape t0 = termShape t.
Proof.
  intros [Hnd Hin]. split.
  - assert (Heq : map termKey (map snd groups) = map fst groups).
    { rewrite map_map. apply map_ext_in. intros [k t] Hk. cbn [fst snd].
      symmetry. now apply (Hin k t). }
    now rewrite Heq.
  - intros t Ht. apply in_map_iff in Ht. destruct Ht as ([k t'] & Heq & Hk).
    cbn [snd] in Heq. subst t'. destruct (Hin k t Hk) as (-> & Hinh & Hex).
    split; assumption.
Qed.

(** Dropping terms keeps the keys pairwise different. *)
Lemma filter_keeps_distinct_keys (keep : Term -> bool) (ts : list Term) :
  NoDup (map termKey ts) -> NoDup (map termKey (filter keep ts)).
Proof.
  induction ts as [|t ts IH]; intros Hnd; [constructor|].
  cbn [map] in Hnd. apply NoDup_cons_iff in Hnd. destruct Hnd as [Hfresh Hnd].
  cbn [filter]. destruct (keep t); [|now apply IH].
  cbn [map]. apply NoDup_cons; [|now apply IH].
  contradict Hfresh. apply in_map_iff in Hfresh. destruct Hfresh as (u & Hkey & Hu).
  apply filter_In in Hu. rewrite <- Hkey. apply in_map. apply Hu.
Qed.

(** The shared facts about [collectLikeTerms]. *)
Lemma collectLikeTerms_groups (ts : list Term) :
  NoDup (map termKey (collectLikeTerms ts))
  /\ forall t, In t (collectLikeTerms ts) ->
       keepsTerm t = true /\ inherited (termKey t) = false
       /\ exists t0, In t0 ts /\ termShape t0 = termShape t.
Proof.
  assert (Hg : groupsOf ts (fold_left groupTerm ts [])).
  { apply fold_groupTerm_groupsOf; [|apply incl_refl].
    split; [constructor|intros k t []]. }
  apply groupsOf_values in Hg. destruct Hg as [Hnd Hin].
  pose proof (Object_values_Permutation (fold_left groupTerm ts [])) as Hperm.
  unfold collectLikeTerms. split.
  - apply filter_keeps_distinct_keys.
    apply Permutation_NoDup with (l := map termKey (map snd (fold_left groupTerm ts []))).
    + apply Permutation_map. symmetry. exact Hperm.
    + exact Hnd.
  - intros t Ht. apply filter_In in Ht. destruct Ht as [Ht Hkeep].
    split; [exact Hkeep|]. apply Hin. eapply Permutation_in; eassumption.
Qed.

(** X1.  Whatever the terms, collecting like terms returns at most one term
    per grouping key (one per variable name and one for the constants),
    every returned coefficient is above the tolerance [1e-10] in absolute
    value, and every returned term has the variable, exponent, flag and
    position of a term of the input.  This holds for both callers,
    [Parser.combineAndSimplifyTerms] and [Evaluator.simplifyExpression]. *)
Theorem collectLikeTerms_one_term_per_key (ts : list Term) (e : Expression) :
  collectedFrom ts (Parser.combineAndSimplifyTerms ts)
  /\ collectedFrom (termsOf e) (termsOf (Evaluator.simplifyExpression e)).
Proof.
  assert (Hcollect : forall us, collectedFrom us (collectLikeTerms us)).
  { intros us. destruct (collectLikeTerms_groups us) as [Hnd Hin]. split; [exact Hnd|].
    intros t Ht. destruct (Hin t Ht) as (Hkeep & _ & Hex). now split. }
  split; [apply Hcollect|].
  unfold Evaluator.simplifyExpression, termsOf.
  destruct (terms e) as [[|t l]|] eqn:Hterms; cbn [terms]; rewrite ?Hterms.
  - split; [constructor|intros t []].
  - apply Hcollect.
  - split; [constructor|intros t []].
Qed.

Lemma termShape_termKey (s t : Term) : termShape s = termShape t -> termKey s = termKey t.
Proof. unfold termShape, termKey. intros H. injection H as Hv _ _ _. now rewrite Hv. Qed.

(** What [collectLikeTerms] returns has distinct keys, provided no key of
    the input is an array index. *)
Lemma collectLikeTerms_result_distinctKeys (ts : list Term) :
  noIndexKey ts = true -> distinctKeys (collectLikeTerms ts).
Proof.
  intros Hidx. destruct (collectLikeTerms_groups ts) as [Hnd Hin].
  split; [exact Hnd|]. split; apply forallb_forall; intros t Ht;
    destruct (Hin t Ht) as (Hkeep & Hinh & t0 & Ht0 & Hshape); [|exact Hkeep].
  unfold plainKey. rewrite Hinh. cbn [negb andb].
  unfold noIndexKey in Hidx. rewrite forallb_forall in Hidx.
  rewrite <- (termShape_termKey t0 t Hshape). now apply Hidx.
Qed.

(** X2.  Simplifying twice is simplifying once: on every expression none of
    whose variables is named like an array index (["0"], ["17"], ...),
    [simplifyExpression] returns a fixed point of itself. *)
Theorem simplifyExpression_idempotent (e : Expression) :
  noIndexKey (termsOf e) = true ->
  Evaluator.simplifyExpression (Evaluator.simplifyExpression e)
  = Evaluator.simplifyExpression e.
Proof.
  intros Hidx. unfold Evaluator.simplifyExpression.
  destruct (terms e) as [[|t l]|] eqn:Hterms; cbn [terms expr_type];
    rewrite ?Hterms; try reflexivity.
  assert (Hd : distinctKeys (collectLikeTerms (t :: l))).
  { apply collectLikeTerms_result_distinctKeys. unfold termsOf in Hidx.
    now rewrite Hterms in Hidx. }
  destruct (collectLikeTerms (t :: l)) as [|u us] eqn:Hc; [reflexivity|].
  now rewrite (collectLikeTerms_distinctKeys _ Hd).
Qed.

Lemma simplifyExpression_idempotent_witness :
  let e := expressionOf [variableTerm 2 "x" 1; constantTerm 1; variableTerm 3 "x" 1] in
  noIndexKey (termsOf e) = true
  /\ Evaluator.simplifyExpression (Evaluator.simplifyExpression e)
     = Evaluator.simplifyExpression e.
Proof.
  cbv zeta. split; [reflexivity|].
  apply (simplifyExpression_idempotent
           (expressionOf [variableTerm 2 "x" 1; constantTerm 1; variableTerm 3 "x" 1])).
  reflexivity.
Defined.

(** X3.  [isZeroExpression] answers [true] exactly when simplification
    leaves no term at all: a term that survives the filter
    [|coefficient| > 1e-10] never passes the test [|coefficient| < 1e-10]. *)
Theorem isZeroExpression_iff_no_term_left (e : Expression) :
  Evaluator.isZeroExpression e = true
  <-> termsOf (Evaluator.simplifyExpression e) = [].
Proof.
  unfold Evaluator.isZeroExpression, Evaluator.simplifyExpression, termsOf.
  destruct (terms e) as [[|t l]|] eqn:Hterms; cbn [terms]; rewrite ?Hterms;
    try (split; reflexivity).
  destruct (collectLikeTerms_groups (t :: l)) as [_ Hin].
  destruct (collectLikeTerms (t :: l)) as [|u us]; [split; reflexivity|].
  split; [|discriminate]. cbn [forallb]. intros H. apply andb_prop in H.
  destruct H as [Hu _]. destruct (Hin u (or_introl eq_refl)) as (Hkeep & _).
  unfold keepsTerm in Hkeep. apply float_ltb_asym in Hkeep. congruence.
Qed.

(** ** [canBeSimplified] *)

Lemma pushAllByVariable_fresh (ts : list Term) (groups : Dict (list Term)) :
  NoDup (map fst groups ++ map termKey ts) ->
  (forall t, In t ts -> inherited (termKey t) = false) ->
  Validator.pushAllByVariable ts groups
  = Ok (groups ++ map (fun t => (termKey t, [t])) ts).
Proof.
  revert groups. induction ts as [|t ts IH]; intros groups Hnd Hinh.
  - cbn. now rewrite app_nil_r.
  - cbn [Validator.pushAllByVariable map]. unfold Validator.pushByVariable.
    rewrite own_absent, (Hinh t (or_introl eq_refl)).
    + cbn [bind]. rewrite IH.
      * now rewrite <- app_assoc.
      * rewrite map_app. cbn [map fst]. rewrite <- app_assoc. exact Hnd.
      * intros u Hu. apply Hinh. right. exact Hu.
    + cbn [map] in Hnd. apply NoDup_remove_2 in Hnd.
      intros Hin. apply Hnd. apply in_or_app. left. exact Hin.
Qed.

(** X4.  What [simplifyExpression] returns is never reported as
    simplifiable: on the result, [canBeSimplified] neither raises nor
    answers [true]. *)
Theorem canBeSimplified_after_simplifyExpression (e : Expression) :
  Validator.canBeSimplified (Evaluator.simplifyExpression e) = Ok false.
Proof.
  assert (Hcollected : forall ts,
            Validator.canBeSimplified
              {| expr_type := expr_type e; terms := Some (collectLikeTerms ts);
                 simplified := Some true |} = Ok false).
  { intros ts. destruct (collectLikeTerms_groups ts) as [Hnd Hin].
    unfold Validator.canBeSimplified. cbn [terms].
    destruct (collectLikeTerms ts) as [|u [|u' us]] eqn:Hc; try reflexivity.
    rewrite pushAllByVariable_fresh; [|exact Hnd|intros t Ht; now apply Hin].
    cbn [bind app]. f_equal. apply not_true_is_false. intros Hex.
    apply existsb_exists in Hex. destruct Hex as (l & Hl & Hlen).
    apply (Permutation_in _ (Object_values_Permutation _)) in Hl.
    rewrite map_map in Hl. cbn [snd] in Hl. apply in_map_iff in Hl.
    destruct Hl as (t & <- & _). discriminate Hlen. }
  unfold Evaluator.simplifyExpression.
  destruct (terms e) as [[|t l]|] eqn:Hterms; [| apply Hcollected |];
    unfold Validator.canBeSimplified; now rewrite Hterms.
Qed.

Lemma pushAllByVariable_inherited (ts : list Term) (groups : Dict (list Term)) :
  (forall k, In k (map fst groups) -> inherited k = false) ->
  existsb (fun t => inherited (termKey t)) ts = true ->
  exists key, inherited key = true
              /\ Validator.pushAllByVariable ts groups
                 = Throw (Validator.PushIsNotAFunction key).
Proof.
  revert groups. induction ts as [|t ts IH]; intros groups Hkeys Hex; [discriminate Hex|].
  cbn [existsb] in Hex. cbn [Validator.pushAllByVariable]. unfold Validator.pushByVariable.
  destruct (inherited (termKey t)) eqn:Hinh.
  - destruct (own groups (termKey t)) as [l|] eqn:Hown.
    + apply own_present in Hown. apply Hkeys in Hown. congruence.
    + exists (termKey t). split; [exact Hinh|reflexivity].
  - cbn [orb] in Hex. destruct (own groups (termKey t)) as [l|] eqn:Hown; cbn [bind].
    + apply IH; [|exact Hex]. intros k Hk. rewrite update_keys in Hk. now apply Hkeys.
    + apply IH; [|exact Hex]. intros k Hk. rewrite map_app in Hk.
      apply in_app_or in Hk. destruct Hk as [Hk|[<-|[]]]; [now apply Hkeys|exact Hinh].
Qed.

(** X5.  A combination step whose resulting expression has two terms or
    more, one of them in a variable named like a property of
    [Object.prototype] (["constructor"], ["toString"], ...), makes
    [validateStudentStep] raise a [TypeError] in place of returning a
    validation result: [validateStepComplexity] calls [canBeSimplified]
    outside any [try]. *)
Theorem validateStudentStep_raises_on_prototype_key
    (random : nat -> float) (equation : EquationAST) (step : Step) (expected : list Step) :
  step_type step = combination ->
  2 <= length (termsOf (toExpression step)) ->
  existsb (fun t => inherited (termKey t)) (termsOf (toExpression step)) = true ->
  exists key,
    inherited key = true
    /\ Validator.validateStudentStep random equation step expected
       = Throw (Validator.PushIsNotAFunction key).
Proof.
  intros Hty Hlen Hex.
  destruct (pushAllByVariable_inherited (termsOf (toExpression step)) [])
    as (key & Hkey & Hpush); [intros k []|exact Hex|].
  exists key. split; [exact Hkey|].
  unfold Validator.validateStudentStep, Validator.validateStepComplexity.
  rewrite Hty. cbn [Validator.OperationType_eqb]. unfold Validator.canBeSimplified.
  unfold termsOf in Hlen, Hpush.
  destruct (terms (toExpression step)) as [[|t [|t' l]]|]; cbn [length] in Hlen; try lia.
  rewrite Hpush. reflexivity.
Qed.

Lemma validateStudentStep_raises_on_prototype_key_witness :
  let step := {| step_type := combination;
                 fromExpression := left twoXEqualsTen;
                 toExpression := expressionOf [variableTerm 2 "toString" 1; constantTerm 3];
                 difficulty := 1 |} in
  exists key,
    inherited key = true
    /\ Validator.validateStudentStep (fun _ => 0.5%float) twoXEqualsTen step [] 
       = Throw (Validator.PushIsNotAFunction key).
Proof.
  cbv zeta.
  refine (validateStudentStep_raises_on_prototype_key (fun _ => 0.5%float) twoXEqualsTen
            {| step_type := combination;
               fromExpression := left twoXEqualsTen;
               toExpression := expressionOf [variableTerm 2 "toString" 1; constantTerm 3];
               difficulty := 1 |} [] _ _ _).
  - reflexivity.
  - cbn. lia.
  - reflexivity.
Defined.

(** ** The tokenizer, turn by turn *)

Section TokenizerTurns.

Variable config : EngineConfig.

Lemma tokensFrom_invalid (c : ascii) (rest : str) (position : nat) :
  isSpace c = false -> isDigit c = false -> isLetter c = false ->
  Parser.symbolMap c = None ->
  tokensFrom config (c :: rest) position
  = (fst (tokensFrom config rest (S position)),
     appLog (addError invalid_character medium
               (Some {| span_start := position; span_end := position + 1 |}))
            (snd (tokensFrom config rest (S position)))).
Proof.
  intros Hs Hd Hl Hm. unfold tokensFrom. cbn [length Parser.tokenizeFrom].
  rewrite Hs, Hd, Hl. unfold Parser.parseSymbol. rewrite Hm.
  destruct (Parser.tokenizeFrom config (length rest) rest (S position)); reflexivity.
Qed.

(** Induction along the turns of the loop of [tokenize]. *)
Lemma tokensFrom_turns (P : str -> nat -> Logged (list Token) -> Prop) :
  (forall position, P [] position ([], noLog)) ->
  (forall c rest position,
      isSpace c = true ->
      P rest (S position) (tokensFrom config rest (S position)) ->
      P (c :: rest) position (tokensFrom config rest (S position))) ->
  (forall c rest position n,
      isSpace c = false -> isDigit c = true ->
      n = Parser.scanNumber config (c :: rest) false -> 1 <= n <= length (c :: rest) ->
      P (skipn n (c :: rest)) (position + n)
        (tokensFrom config (skipn n (c :: rest)) (position + n)) ->
      P (c :: rest) position
        (mkToken NUMBER (firstn n (c :: rest)) position (position + n)
           :: fst (tokensFrom config (skipn n (c :: rest)) (position + n)),
         snd (tokensFrom config (skipn n (c :: rest)) (position + n)))) ->
  (forall c rest position n,
      isSpace c = false -> isLetter c = true ->
      n = Parser.scanLetters (c :: rest) -> 1 <= n <= length (c :: rest) ->
      P (skipn n (c :: rest)) (position + n)
        (tokensFrom config (skipn n (c :: rest)) (position + n)) ->
      P (c :: rest) position
        (mkToken VARIABLE (firstn n (c :: rest)) position (position + n)
           :: fst (tokensFrom config (skipn n (c :: rest)) (position + n)),
         appLog (if isSupportedVariable (firstn n (c :: rest)) then noLog
                 else addWarning unusual_format)
                (snd (tokensFrom config (skipn n (c :: rest)) (position + n))))) ->
  (forall c ty rest position,
      isSpace c = false -> isDigit c = false -> isLetter c = false ->
      Parser.symbolMap c = Some ty ->
      P rest (S position) (tokensFrom config rest (S position)) ->
      P (c :: rest) position
        (mkToken ty [c] position (position + 1) :: fst (tokensFrom config rest (S position)),
         snd (tokensFrom config rest (S position)))) ->
  (forall c rest position,
      isSpace c = false -> isDigit c = false -> isLetter c = false ->
      Parser.symbolMap c = None ->
      P rest (S position) (tokensFrom config rest (S position)) ->
      P (c :: rest) position
        (fst (tokensFrom config rest (S position)),
         appLog (addError invalid_character medium
                   (Some {| span_start := position; span_end := position + 1 |}))
                (snd (tokensFrom config rest (S position))))) ->
  forall rest position, P rest position (tokensFrom config rest position).
Proof.
  intros Hnil Hspace Hnumber Hvariable Hsymbol Hinvalid rest.
  remember (length rest) as len eqn:Hlen. revert rest Hlen.
  induction len as [len IH] using lt_wf_ind. intros rest Hlen position.
  destruct rest as [|c rest]; [apply Hnil|]. cbn [length] in Hlen.
  destruct (isSpace c) eqn:Hs.
  { rewrite tokensFrom_space by exact Hs. apply Hspace; [exact Hs|].
    apply (IH (length rest)); [lia|reflexivity]. }
  destruct (isDigit c) eqn:Hd.
  { rewrite tokensFrom_number by exact Hd.
    pose proof (scanNumber_pos config c rest false Hd) as Hp.
    pose proof (scanNumber_le config (c :: rest) false) as Hle.
    apply Hnumber; try assumption; try reflexivity; [lia|].
    apply (IH (length (skipn (Parser.scanNumber config (c :: rest) false) (c :: rest))));
      [|reflexivity].
    rewrite Hlen. change (S (length rest)) with (length (c :: rest)).
    apply skipn_shorter; [lia|discriminate]. }
  destruct (isLetter c) eqn:Hl.
  { rewrite tokensFrom_variable by exact Hl.
    pose proof (scanLetters_pos c rest Hl) as Hp.
    pose proof (scanLetters_le (c :: rest)) as Hle.
    apply Hvariable; try assumption; try reflexivity; [lia|].
    apply (IH (length (skipn (Parser.scanLetters (c :: rest)) (c :: rest)))); [|reflexivity].
    rewrite Hlen. change (S (length rest)) with (length (c :: rest)).
    apply skipn_shorter; [lia|discriminate]. }
  destruct (Parser.symbolMap c) as [ty|] eqn:Hm.
  - rewrite (tokensFrom_symbol config c ty) by assumption.
    apply Hsymbol; try assumption. apply (IH (length rest)); [lia|reflexivity].
  - rewrite tokensFrom_invalid by assumption.
    apply Hinvalid; try assumption. apply (IH (length rest)); [lia|reflexivity].
Qed.

End TokenizerTurns.

(** ** Where the tokens come from *)

Lemma spansInOrder_weaken (from from' : nat) (toks : list Token) :
  from' <= from -> spansInOrder from toks = true -> spansInOrder from' toks = true.
Proof.
  destruct toks as [|tok toks]; [reflexivity|]. cbn [spansInOrder]. intros Hle H.
  apply andb_prop in H. destruct H as [H Hrest]. apply andb_prop in H.
  destruct H as [Hfrom Hspan]. apply Nat.leb_le in Hfrom.
  rewrite Hspan, Hrest, !andb_true_r. apply Nat.leb_le. lia.
Qed.

Lemma tokensWithin_skip (c : ascii) (rest : str) (position : nat) (toks : list Token) :
  tokensWithin rest (S position) toks -> tokensWithin (c :: rest) position toks.
Proof.
  intros [Hord Hin]. split; [apply (spansInOrder_weaken (S position)); [lia|exact Hord]|].
  intros tok Htok. destruct (Hin tok Htok) as (Hstart & Hend & Hval).
  cbn [length]. repeat split; try lia.
  replace (span_start (tok_position tok) - position)
    with (S (span_start (tok_position tok) - S position)) by lia.
  exact Hval.
Qed.

Lemma tokensWithin_token (ty : TokenType) (n : nat) (rest : str) (position : nat)
    (toks : list Token) :
  1 <= n <= length rest ->
  tokensWithin (skipn n rest) (position + n) toks ->
  tokensWithin rest position (mkToken ty (firstn n rest) position (position + n) :: toks).
Proof.
  intros Hn [Hord Hin]. split.
  - cbn [spansInOrder mkToken tok_position span_start span_end].
    rewrite Hord, andb_true_r. apply andb_true_intro.
    split; [apply Nat.leb_le|apply Nat.ltb_lt]; lia.
  - intros tok [<-|Htok].
    + cbn [mkToken tok_position tok_value span_start span_end].
      repeat split; try lia.
      replace (position + n - position) with n by lia.
      now rewrite Nat.sub_diag.
    + destruct (Hin tok Htok) as (Hstart & Hend & Hval).
      rewrite length_skipn in Hend. repeat split; try lia.
      rewrite Hval, skipn_skipn. f_equal. f_equal. lia.
Qed.

Lemma tokensFrom_within (config : EngineConfig) (rest : str) (position : nat) :
  tokensWithin rest position (fst (tokensFrom config rest position)).
Proof.
  revert rest position.
  apply (tokensFrom_turns config (fun rest position r => tokensWithin rest position (fst r)));
    cbn [fst].
  - intros position. split; [reflexivity|intros tok []].
  - intros c rest position _ IH. now apply tokensWithin_skip.
  - intros c rest position n _ _ _ Hn IH. now apply tokensWithin_token.
  - intros c rest position n _ _ _ Hn IH. now apply tokensWithin_token.
  - intros c ty rest position _ _ _ _ IH.
    apply (tokensWithin_token ty 1 (c :: rest) position); [cbn [length]; lia|].
    cbn [skipn]. now rewrite Nat.add_1_r.
  - intros c rest position _ _ _ _ IH. now apply tokensWithin_skip.
Qed.

(** X6.  Every token lies inside the input and holds exactly the characters
    of its span: its value is [input.substring(start, end)].  The spans are
    non-empty and follow one another from left to right without overlap. *)
Theorem tokenize_positions (config : EngineConfig) (input : str) :
  spansInOrder 0 (fst (Parser.tokenize config input)) = true
  /\ forall tok, In tok (fst (Parser.tokenize config input)) ->
       span_end (tok_position tok) <= length input
       /\ tok_value tok
          = substring input (span_start (tok_position tok)) (span_end (tok_position tok)).
Proof.
  destruct (tokensFrom_within config input 0) as [Hord Hin]. split; [exact Hord|].
  intros tok Htok. destruct (Hin tok Htok) as (_ & Hend & Hval). split; [exact Hend|].
  unfold substring. now rewrite Nat.sub_0_r in Hval.
Qed.

(** ** What the tokens spell *)

Lemma scanNumber_chars (config : EngineConfig) (rest : str) (d : bool) :
  forallb numeralChar (firstn (Parser.scanNumber config rest d) rest) = true.
Proof.
  revert d. induction rest as [|c rest IH]; intros d; [reflexivity|].
  cbn [Parser.scanNumber].
  destruct (isDigit c) eqn:Hd.
  - cbn [firstn forallb].
    replace (numeralChar c) with true by (unfold numeralChar; now rewrite Hd).
    apply IH.
  - destruct (Ascii.eqb c "."%char) eqn:Hp; cbn [andb]; [|reflexivity].
    destruct (negb d && allowDecimals config); [|reflexivity].
    cbn [firstn forallb].
    replace (numeralChar c) with true by (unfold numeralChar; now rewrite Hd, Hp).
    apply IH.
Qed.

Lemma scanLetters_chars (rest : str) :
  forallb isLetter (firstn (Parser.scanLetters rest) rest) = true.
Proof.
  induction rest as [|c rest IH]; [reflexivity|]. cbn [Parser.scanLetters].
  destruct (isLetter c) eqn:Hl; [|reflexivity]. cbn [firstn forallb]. now rewrite Hl.
Qed.

Lemma numeralChar_not_space (c : ascii) : numeralChar c = true -> isSpace c = false.
Proof.
  destruct c as [[] [] [] [] [] [] [] []]; intros H; try reflexivity; discriminate H.
Qed.

Lemma filter_visible_id (p : ascii -> bool) (s : str) :
  (forall c, p c = true -> isSpace c = false) ->
  forallb p s = true -> filter (fun c => negb (isSpace c)) s = s.
Proof.
  intros Hp Hall. apply forallb_filter_id. rewrite forallb_forall in *.
  intros c Hc. now rewrite (Hp c (Hall c Hc)).
Qed.

Lemma filter_visible_token (p : ascii -> bool) (n : nat) (rest : str) :
  (forall c, p c = true -> isSpace c = false) ->
  forallb p (firstn n rest) = true ->
  filter (fun c => negb (isSpace c)) rest
  = firstn n rest ++ filter (fun c => negb (isSpace c)) (skipn n rest).
Proof.
  intros Hp Hall. rewrite <- (firstn_skipn n rest) at 1.
  now rewrite filter_app, (filter_visible_id p).
Qed.

(** X7.  When the tokenizer reports no error, the values of the tokens, put
    end to end, spell the input without its white space: no character is
    dropped, repeated or changed. *)
Theorem tokenize_spells_input (config : EngineConfig) (input : str) :
  log_errors (snd (Parser.tokenize config input)) = [] ->
  concat (map tok_value (fst (Parser.tokenize config input)))
  = filter (fun c => negb (isSpace c)) input.
Proof.
  rewrite tokenize_tokensFrom. generalize 0 as position. revert input.
  apply (tokensFrom_turns config
           (fun rest position r =>
              log_errors (snd r) = [] ->
              concat (map tok_value (fst r)) = filter (fun c => negb (isSpace c)) rest));
    cbn [fst snd map concat filter mkToken tok_value].
  - reflexivity.
  - intros c rest position Hs IH Herr. rewrite Hs. cbn [negb]. now apply IH.
  - intros c rest position n Hs _ -> _ IH Herr.
    rewrite IH by exact Herr.
    symmetry. apply (filter_visible_token numeralChar (Parser.scanNumber config (c :: rest) false)
                       (c :: rest) numeralChar_not_space).
    apply scanNumber_chars.
  - intros c rest position n Hs _ -> _ IH Herr.
    cbn [appLog log_errors] in Herr.
    assert (Htail : log_errors
                      (snd (tokensFrom config
                              (skipn (Parser.scanLetters (c :: rest)) (c :: rest))
                              (position + Parser.scanLetters (c :: rest)))) = []).
    { destruct (isSupportedVariable _) in Herr; exact Herr. }
    rewrite IH by exact Htail.
    symmetry. apply (filter_visible_token isLetter (Parser.scanLetters (c :: rest)) (c :: rest)).
    + intros c' Hc'. now destruct (letter_not_space_not_digit c' Hc').
    + apply scanLetters_chars.
  - intros c ty rest position Hs _ _ _ IH Herr. rewrite Hs. cbn [negb app].
    f_equal. now apply IH.
  - intros c rest position _ _ _ _ _ Herr. discriminate Herr.
Qed.

Lemma tokenize_spells_input_witness :
  concat (map tok_value (fst (Parser.tokenize DEFAULT_ENGINE_CONFIG (lit "2x + 3 = 7"))))
  = filter (fun c => negb (isSpace c)) (lit "2x + 3 = 7").
Proof.
  apply (tokenize_spells_input DEFAULT_ENGINE_CONFIG (lit "2x + 3 = 7")). reflexivity.
Defined.

(** ** The terms of a parsed equation *)

Lemma variable_token_value (toks : list Token) (j : nat) :
  letterVariables toks = true ->
  Parser.hasType VARIABLE (nth_error toks j) = true ->
  exists c s, Parser.valueOf (nth_error toks j) = c :: s /\ forallb isLetter (c :: s) = true.
Proof.
  intros Hl Hty. destruct (nth_error toks j) as [tok|] eqn:Hnth; [|discriminate Hty].
  cbn [Parser.hasType] in Hty. cbn [Parser.valueOf].
  unfold letterVariables in Hl. rewrite forallb_forall in Hl.
  specialize (Hl tok (nth_error_In _ _ Hnth)). rewrite Hty in Hl. cbn [negb orb] in Hl.
  apply andb_prop in Hl. destruct Hl as [Hlen Hletters].
  destruct (tok_value tok) as [|c s]; [discriminate Hlen|]. now exists c, s.
Qed.

Lemma parseSingleTerm_shape (toks : list Token) (i : nat) (t : Term) :
  letterVariables toks = true ->
  fst (fst (Parser.parseSingleTerm toks i)) = Some t -> parsedShape t = true.
Proof.
  intros Hl. unfold Parser.parseSingleTerm.
  destruct (Parser.hasType OPERATOR (nth_error toks i));
    [ destruct (Parser.hasType NUMBER (nth_error toks (S i)));
      [ destruct (Parser.hasType VARIABLE (nth_error toks (S (S i)))) eqn:Hv
      | destruct (Parser.hasType VARIABLE (nth_error toks (S i))) eqn:Hv ]
    | destruct (Parser.hasType NUMBER (nth_error toks i));
      [ destruct (Parser.hasType VARIABLE (nth_error toks (S i))) eqn:Hv
      | destruct (Parser.hasType VARIABLE (nth_error toks i)) eqn:Hv ] ];
    try (destruct (variable_token_value toks _ Hl Hv) as (c & s & -> & Hletters));
    cbn; repeat (case_condition; cbn); intros H; try discriminate H;
    injection H as <-; unfold parsedShape; cbn; try reflexivity; exact Hletters.
Qed.

Lemma parseTermsFrom_shape (fuel : nat) (toks : list Token) (i : nat) :
  letterVariables toks = true ->
  forallb parsedShape (fst (Parser.parseTermsFrom fuel toks i)) = true.
Proof.
  intros Hl. revert i. induction fuel as [|fuel IH]; intros i; [reflexivity|].
  cbn [Parser.parseTermsFrom]. destruct (i <? length toks); [|reflexivity].
  pose proof (parseSingleTerm_shape toks i) as Hshape.
  destruct (Parser.parseSingleTerm toks i) as [[term nextIndex] lg].
  specialize (IH nextIndex).
  destruct (Parser.parseTermsFrom fuel toks nextIndex) as [rest lg'].
  cbn [fst] in *. destruct term as [t|]; [|exact IH].
  cbn [forallb]. now rewrite (Hshape t Hl eq_refl).
Qed.

Lemma parsedShape_termShape (s t : Term) :
  termShape s = termShape t -> parsedShape s = parsedShape t.
Proof.
  unfold termShape, parsedShape. intros H. injection H as Hv He Hc _.
  now rewrite Hv, He, Hc.
Qed.

Lemma parsedShape_not_index (t : Term) :
  parsedShape t = true -> isArrayIndex (termKey t) = false.
Proof.
  unfold parsedShape, termKey. destruct (variable t) as [[|c s]|]; intros H;
    try reflexivity.
  apply andb_prop in H. destruct H as [_ H]. cbn [forallb] in H.
  apply andb_prop in H. destruct H as [Hc _].
  destruct (letter_not_space_not_digit c Hc) as [_ Hd].
  cbn [orElse isArrayIndex forallb]. now rewrite Hd.
Qed.

(** The terms of an expression that [parseExpression] builds: the like
    terms of well-shaped terms, collected. *)
Lemma parseExpression_collected (toks : list Token) :
  letterVariables toks = true ->
  exists ts,
    forallb parsedShape ts = true
    /\ terms (fst (Parser.parseExpression toks)) = Some (collectLikeTerms ts).
Proof.
  intros Hl. destruct toks as [|tok toks].
  - exists []. split; reflexivity.
  - unfold Parser.parseExpression, Parser.parseTerms, Parser.combineAndSimplifyTerms.
    pose proof (parseTermsFrom_shape (length (tok :: toks)) (tok :: toks) 0 Hl) as Hshape.
    destruct (Parser.parseTermsFrom (length (tok :: toks)) (tok :: toks) 0) as [ts lg].
    exists ts. split; [exact Hshape|reflexivity].
Qed.

Lemma tokensFrom_letterVariables (config : EngineConfig) (rest : str) (position : nat) :
  letterVariables (fst (tokensFrom config rest position)) = true.
Proof.
  revert rest position.
  apply (tokensFrom_turns config (fun _ _ r => letterVariables (fst r) = true));
    cbn [fst].
  - reflexivity.
  - intros c rest position _ IH. exact IH.
  - intros c rest position n _ _ _ _ IH. exact IH.
  - intros c rest position n _ Hl -> Hn IH.
    unfold letterVariables. cbn [forallb mkToken tok_type tok_value TokenType_eqb negb orb].
    rewrite scanLetters_chars, andb_true_r.
    apply andb_true_intro. split; [|exact IH].
    apply Nat.leb_le. rewrite length_firstn. lia.
  - intros c ty rest position _ _ _ Hm IH.
    unfold letterVariables. cbn [forallb mkToken tok_type tok_value].
    replace (TokenType_eqb ty VARIABLE) with false; [exact IH|].
    unfold Parser.symbolMap in Hm.
    repeat match type of Hm with
           | (if ?b then _ else _) = _ => destruct b
           end; try discriminate Hm; injection Hm as <-; reflexivity.
  - intros c rest position _ _ _ _ IH. exact IH.
Qed.

Lemma letterVariables_sublist (toks part : list Token) :
  incl part toks -> letterVariables toks = true -> letterVariables part = true.
Proof.
  unfold letterVariables. rewrite !forallb_forall. intros Hincl H tok Htok.
  apply H. now apply Hincl.
Qed.

Lemma incl_firstn_part {A} (n : nat) (l : list A) : incl (firstn n l) l.
Proof.
  intros a Ha. rewrite <- (firstn_skipn n l). apply in_or_app. left. exact Ha.
Qed.

Lemma incl_skipn_part {A} (n : nat) (l : list A) : incl (skipn n l) l.
Proof.
  intros a Ha. rewrite <- (firstn_skipn n l). apply in_or_app. right. exact Ha.
Qed.

(** The two sides of an equation that [parseEquation] returns. *)
Lemma parseEquation_sides (config : EngineConfig) (input : str) (a : EquationAST) :
  ast (Parser.parseEquation config input) = Some a ->
  exists ls rs,
    forallb parsedShape ls = true /\ forallb parsedShape rs = true
    /\ terms (left a) = Some (collectLikeTerms ls)
    /\ terms (right a) = Some (collectLikeTerms rs).
Proof.
  unfold Parser.parseEquation. rewrite tokenize_tokensFrom.
  pose proof (tokensFrom_letterVariables config input 0) as Hl.
  destruct (tokensFrom config input 0) as [toks lg0]. cbn [fst] in Hl.
  destruct toks as [|tok toks]; [cbn [Parser.createParseResult ast]; discriminate|].
  destruct (Parser.findEqualsSign (tok :: toks)) as [equalsIndex|];
    [|cbn [Parser.createParseResult ast]; discriminate].
  destruct (parseExpression_collected (firstn equalsIndex (tok :: toks)))
    as (ls & Hls & Hleft).
  { apply (letterVariables_sublist (tok :: toks)); [|exact Hl].
    apply incl_firstn_part. }
  destruct (parseExpression_collected (skipn (equalsIndex + 1) (tok :: toks)))
    as (rs & Hrs & Hright).
  { apply (letterVariables_sublist (tok :: toks)); [|exact Hl].
    apply incl_skipn_part. }
  destruct (Parser.parseExpression (firstn equalsIndex (tok :: toks))) as [l lg1].
  destruct (Parser.parseExpression (skipn (equalsIndex + 1) (tok :: toks))) as [r lg2].
  cbn [ast Parser.createParseResult]. intros H. injection H as <-.
  exists ls, rs. cbn [left right Parser.createEquationAST]. now repeat split.
Qed.

(** [EquationEngine.parse] keeps the sides that [parseEquation] built. *)
Lemma parse_ast_inv (config : EngineConfig) (input : str) (a : EquationAST) :
  ast (Engine.parse config input) = Some a ->
  vr_isValid (Validator.validateInput input) = true
  /\ exists a0,
       ast (Parser.parseEquation config input) = Some a0
       /\ left a = left a0 /\ right a = right a0
       /\ a = fst (Engine.enhanceAST config a0).
Proof.
  unfold Engine.parse.
  destruct (vr_isValid (Validator.validateInput input)); cbn [negb]; [|discriminate].
  destruct (ast (Parser.parseEquation config input)) as [a0|] eqn:Hast.
  - destruct (Engine.enhanceAST config a0) as [enhanced lg] eqn:He.
    cbn [ast fst]. intros H. injection H as <-. split; [reflexivity|].
    exists a0. rewrite He. cbn [fst]. unfold Engine.enhanceAST in He.
    destruct (Parser.detectEquationType a0) as [ty lg']. injection He as <- _.
    repeat split; reflexivity.
  - rewrite Hast. discriminate.
Qed.

Lemma collectLikeTerms_wellFormed (ts : list Term) :
  forallb parsedShape ts = true ->
  forallb wellFormedTerm (collectLikeTerms ts) = true.
Proof.
  intros Hshape. destruct (collectLikeTerms_groups ts) as [_ Hin].
  apply forallb_forall. intros t Ht.
  destruct (Hin t Ht) as (Hkeep & _ & t0 & Ht0 & Hsame).
  unfold wellFormedTerm. rewrite Hkeep, <- (parsedShape_termShape t0 t Hsame).
  rewrite forallb_forall in Hshape. now apply Hshape.
Qed.

Lemma parsedShape_noIndexKey (ts : list Term) :
  forallb parsedShape ts = true -> noIndexKey ts = true.
Proof.
  unfold noIndexKey. rewrite !forallb_forall. intros H t Ht.
  now rewrite (parsedShape_not_index t (H t Ht)).
Qed.

Lemma parse_terms_shape_of_ast (config : EngineConfig) (input : str) (a : EquationAST) :
  ast (Engine.parse config input) = Some a ->
  forallb parsedShape (termsOf (left a) ++ termsOf (right a)) = true.
Proof.
  intros H. apply parse_ast_inv in H. destruct H as (_ & a0 & Hast & -> & -> & _).
  apply parseEquation_sides in Hast.
  destruct Hast as (ls & rs & Hls & Hrs & Hleft & Hright).
  unfold termsOf. rewrite Hleft, Hright, forallb_app.
  apply andb_true_intro.
  split; apply forallb_forall; intros t Ht;
    [pose proof (collectLikeTerms_wellFormed ls Hls) as Hw
    |pose proof (collectLikeTerms_wellFormed rs Hrs) as Hw];
    rewrite forallb_forall in Hw; specialize (Hw t Ht);
    unfold wellFormedTerm in Hw; apply andb_prop in Hw; apply Hw.
Qed.

(** X8.  Every term of an equation that [EquationEngine.parse] returns is
    well formed: its coefficient is above the tolerance [1e-10] in absolute
    value, and it is either a constant without variable and exponent or a
    term of exponent 1 in a variable made of one letter or more. *)
Theorem parse_terms_wellFormed (config : EngineConfig) (input : str) (a : EquationAST) :
  ast (Engine.parse config input) = Some a ->
  forallb wellFormedTerm (termsOf (left a) ++ termsOf (right a)) = true.
Proof.
  intros H. apply parse_ast_inv in H. destruct H as (_ & a0 & Hast & -> & -> & _).
  apply parseEquation_sides in Hast.
  destruct Hast as (ls & rs & Hls & Hrs & Hleft & Hright).
  unfold termsOf. rewrite Hleft, Hright, forallb_app.
  now rewrite !collectLikeTerms_wellFormed.
Qed.

Lemma parse_terms_wellFormed_witness :
  exists a,
    ast (Engine.parse DEFAULT_ENGINE_CONFIG (lit "2x + 3 = 7 - y")) = Some a
    /\ forallb wellFormedTerm (termsOf (left a) ++ termsOf (right a)) = true.
Proof.
  eexists. split; [vm_compute; reflexivity|].
  refine (parse_terms_wellFormed DEFAULT_ENGINE_CONFIG (lit "2x + 3 = 7 - y") _ _).
  vm_compute. reflexivity.
Defined.

(** X9.  Both sides of an equation that [EquationEngine.parse] returns are
    fixed points of [simplifyExpression]: simplifying them again changes no
    term, so the combination steps generated for a freshly parsed equation
    lead from an expression to itself. *)
Theorem parse_sides_already_simplified (config : EngineConfig) (input : str)
    (a : EquationAST) :
  ast (Engine.parse config input) = Some a ->
  termsOf (Evaluator.simplifyExpression (left a)) = termsOf (left a)
  /\ termsOf (Evaluator.simplifyExpression (right a)) = termsOf (right a).
Proof.
  intros H. apply parse_ast_inv in H. destruct H as (_ & a0 & Hast & -> & -> & _).
  apply parseEquation_sides in Hast.
  destruct Hast as (ls & rs & Hls & Hrs & Hleft & Hright).
  split; apply simplifyExpression_distinctKeys; unfold termsOf;
    rewrite ?Hleft, ?Hright;
    apply collectLikeTerms_result_distinctKeys, parsedShape_noIndexKey; assumption.
Qed.

Lemma parse_sides_already_simplified_witness :
  exists a,
    ast (Engine.parse DEFAULT_ENGINE_CONFIG (lit "2x + 3 + x = 7 - y")) = Some a
    /\ termsOf (Evaluator.simplifyExpression (left a)) = termsOf (left a)
    /\ termsOf (Evaluator.simplifyExpression (right a)) = termsOf (right a).
Proof.
  eexists. split; [vm_compute; reflexivity|].
  refine (parse_sides_already_simplified DEFAULT_ENGINE_CONFIG
            (lit "2x + 3 + x = 7 - y") _ _).
  vm_compute. reflexivity.
Defined.

(** ** What [EquationEngine.parse] computes from the unclassified equation *)

Lemma parseEquation_unclassified (config : EngineConfig) (input : str) (a : EquationAST) :
  ast (Parser.parseEquation config input) = Some a ->
  equationType a = basic /\ complexity a = 0.
Proof.
  unfold Parser.parseEquation.
  destruct (Parser.tokenize config input) as [toks lg0].
  destruct toks as [|tok toks]; [cbn [Parser.createParseResult ast]; discriminate|].
  destruct (Parser.findEqualsSign (tok :: toks)) as [equalsIndex|];
    [|cbn [Parser.createParseResult ast]; discriminate].
  destruct (Parser.parseExpression (firstn equalsIndex (tok :: toks))) as [l lg1].
  destruct (Parser.parseExpression (skipn (equalsIndex + 1) (tok :: toks))) as [r lg2].
  cbn [ast Parser.createParseResult]. intros H. injection H as <-. split; reflexivity.
Qed.

(** X10.  In an equation that [EquationEngine.parse] returns, the estimated
    number of steps, the required operations and the type bonus of the
    complexity do not depend on the type that was detected: [enhanceAST]
    computes them from the equation as the parser left it, whose type is
    still ['basic'] and whose complexity is still 0.  So the estimate is
    [min(2, maxSteps)], the operations are transposition and isolation,
    and the complexity is the number of terms plus one, capped at 10. *)
Theorem parse_estimates_ignore_detected_type (config : EngineConfig) (input : str)
    (a : EquationAST) :
  ast (Engine.parse config input) = Some a ->
  estimatedSteps (metadata a) = Nat.min 2 (maxSteps config)
  /\ requiredOperations (metadata a) = [transposition; isolation]
  /\ complexity a
     = Nat.min (length (termsOf (left a)) + length (termsOf (right a)) + 1) 10.
Proof.
  intros H. apply parse_ast_inv in H. destruct H as (_ & a0 & Hast & _ & _ & ->).
  apply parseEquation_unclassified in Hast. destruct Hast as [Hty Hc].
  unfold Engine.enhanceAST. destruct (Parser.detectEquationType a0) as [ty lg].
  cbn [fst metadata estimatedSteps requiredOperations complexity left right].
  unfold Engine.estimateSteps, Engine.analyzeRequiredOperations, Engine.calculateComplexity.
  rewrite Hty, Hc. repeat split; reflexivity.
Qed.

Lemma parse_estimates_ignore_detected_type_witness :
  exists a,
    ast (Engine.parse DEFAULT_ENGINE_CONFIG (lit "5x + 3 + 2x = 7 + 4x + 1")) = Some a
    /\ equationType a = standard
    /\ estimatedSteps (metadata a) = Nat.min 2 (maxSteps DEFAULT_ENGINE_CONFIG)
    /\ requiredOperations (metadata a) = [transposition; isolation]
    /\ complexity a
       = Nat.min (length (termsOf (left a)) + length (termsOf (right a)) + 1) 10.
Proof.
  eexists. split; [vm_compute; reflexivity|]. split; [reflexivity|].
  refine (parse_estimates_ignore_detected_type DEFAULT_ENGINE_CONFIG
            (lit "5x + 3 + 2x = 7 + 4x + 1") _ _).
  vm_compute. reflexivity.
Defined.

(** ** When [EquationEngine.parse] returns an equation *)

Lemma validateInput_equals (input : str) :
  vr_isValid (Validator.validateInput input) = true -> In eqChar input.
Proof.
  unfold Validator.validateInput. cbn [vr_isValid]. intros H.
  apply Nat.eqb_eq, length_zero_iff_nil in H.
  apply app_eq_nil in H. destruct H as [_ H].
  apply app_eq_nil in H. destruct H as [_ H].
  apply app_eq_nil in H. destruct H as [H _].
  unfold Validator.checkEqualsSign, Validator.equalsCount in H.
  destruct (filter (Ascii.eqb "="%char) input) as [|c l] eqn:Hf; [discriminate H|].
  assert (Hc : In c (filter (Ascii.eqb "="%char) input)) by (rewrite Hf; now left).
  apply filter_In in Hc. destruct Hc as [Hc Heq]. apply Ascii.eqb_eq in Heq.
  unfold eqChar. now rewrite Heq.
Qed.

(** X11.  [EquationEngine.parse] returns an equation exactly when
    [validateInput] accepts the input: after a successful validation the
    parser always finds tokens and an equals sign among them, whatever else
    it reports. *)
Theorem parse_returns_ast_iff_valid (config : EngineConfig) (input : str) :
  ast (Engine.parse config input) = None
  <-> vr_isValid (Validator.validateInput input) = false.
Proof.
  split.
  - intros Hnone. destruct (vr_isValid (Validator.validateInput input)) eqn:Hvalid;
      [exfalso|reflexivity].
    pose proof (validateInput_equals input Hvalid) as Heq.
    pose proof (tokenizeFrom_keeps_equals config (length input) input 0 (le_n _) Heq)
      as Htok.
    apply findEqualsSign_first in Htok. destruct Htok as (i & t & Hfind & Hnth & _).
    unfold Engine.parse in Hnone. rewrite Hvalid in Hnone. cbn [negb] in Hnone.
    unfold Parser.parseEquation, Parser.tokenize in Hnone.
    destruct (Parser.tokenizeFrom config (length input) input 0) as [toks lg0].
    cbn [fst] in Hfind, Hnth. rewrite Hfind in Hnone.
    destruct toks as [|tok toks]; [destruct i; discriminate Hnth|].
    destruct (Parser.parseExpression (firstn i (tok :: toks))) as [l lg1].
    destruct (Parser.parseExpression (skipn (i + 1) (tok :: toks))) as [r lg2].
    cbn [ast Parser.createParseResult] in Hnone.
    destruct (Engine.enhanceAST config _) as [enhanced lg]. discriminate Hnone.
  - intros Hinvalid. unfold Engine.parse. now rewrite Hinvalid.
Qed.

(** ** Operator characters next to each other *)

Lemma operatorRuns_open_run (rest run : str) :
  2 <= length run -> exists m, In (run ++ m) (Validator.operatorRuns rest run).
Proof.
  revert run. induction rest as [|c rest IH]; intros run Hlen.
  - exists []. rewrite app_nil_r. cbn [Validator.operatorRuns].
    destruct (Nat.leb_spec 2 (length run)); [now left|lia].
  - cbn [Validator.operatorRuns]. destruct (Validator.isOperatorChar c).
    + destruct (IH (run ++ [c])) as (m & Hm); [rewrite length_app; lia|].
      exists (c :: m).
      replace (run ++ c :: m) with ((run ++ [c]) ++ m) by (now rewrite <- app_assoc).
      exact Hm.
    + exists []. rewrite app_nil_r. apply in_or_app. left.
      destruct (Nat.leb_spec 2 (length run)); [now left|lia].
Qed.

Lemma operatorRuns_pair (c1 c2 : ascii) (a b run : str) :
  Validator.isOperatorChar c1 = true -> Validator.isOperatorChar c2 = true ->
  exists p q, In (p ++ c1 :: c2 :: q) (Validator.operatorRuns (a ++ c1 :: c2 :: b) run).
Proof.
  intros H1 H2. revert run. induction a as [|x a IH]; intros run.
  - cbn [app Validator.operatorRuns]. rewrite H1, H2.
    destruct (operatorRuns_open_run b ((run ++ [c1]) ++ [c2])) as (m & Hm).
    { rewrite !length_app. cbn [length]. lia. }
    exists run, m.
    replace (run ++ c1 :: c2 :: m) with (((run ++ [c1]) ++ [c2]) ++ m)
      by (now rewrite <- !app_assoc).
    exact Hm.
  - cbn [app Validator.operatorRuns]. destruct (Validator.isOperatorChar x).
    + apply IH.
    + destruct (IH []) as (p & q & Hpq). exists p, q. apply in_or_app. now right.
Qed.

Lemma mixed_pair_not_doubled (c1 c2 d : ascii) (p q : str) :
  c1 <> c2 -> str_eqb (p ++ c1 :: c2 :: q) [d; d] = false.
Proof.
  intros Hne. apply not_true_is_false. intros H. apply str_eqb_eq in H.
  destruct p as [|x [|y p]]; cbn [app] in H.
  - injection H as -> -> _. now apply Hne.
  - injection H as _ _ H'. discriminate H'.
  - injection H as _ _ H'. destruct p; discriminate H'.
Qed.

Lemma checkConsecutiveOperators_error (runs : list str) (lg : Log) :
  log_errors lg <> []
  \/ (exists m, In m runs
                /\ str_eqb m (lit "--") || str_eqb m (lit "++") = false) ->
  log_errors
    (fold_left
       (fun lg m =>
          if str_eqb m (lit "--") || str_eqb m (lit "++")
          then appLog lg (addWarning can_be_simplified)
          else appLog lg (addError syntax_error medium None))
       runs lg) <> [].
Proof.
  revert lg. induction runs as [|r runs IH]; intros lg H; cbn [fold_left].
  - destruct H as [H|(m & [] & _)]. exact H.
  - apply IH. destruct H as [H|(m & [<-|Hm] & Htest)].
    + left. destruct (str_eqb r (lit "--") || str_eqb r (lit "++"));
        cbn [appLog log_errors addWarning addError].
      * now rewrite app_nil_r.
      * intros Habs. apply app_eq_nil in Habs. destruct Habs as [Habs _]. now apply H.
    + left. rewrite Htest. cbn [appLog log_errors addError].
      intros Habs. apply app_eq_nil in Habs. destruct Habs as [_ Habs]. discriminate Habs.
    + right. exists m. now split.
Qed.

(** X12.  An input in which an operator character is directly followed by
    a different operator character (["+-"], ["*-"], ["-+"], ...) is rejected
    by [validateInput], wherever the pair stands; so [EquationEngine.parse]
    returns no equation for it.  A negative number right after an operator
    cannot be entered. *)
Theorem validateInput_rejects_mixed_operators (c1 c2 : ascii) (a b : str) :
  Validator.isOperatorChar c1 = true -> Validator.isOperatorChar c2 = true ->
  c1 <> c2 ->
  vr_isValid (Validator.validateInput (a ++ c1 :: c2 :: b)) = false
  /\ forall config, ast (Engine.parse config (a ++ c1 :: c2 :: b)) = None.
Proof.
  intros H1 H2 Hne.
  assert (Hinvalid : vr_isValid (Validator.validateInput (a ++ c1 :: c2 :: b)) = false).
  { unfold Validator.validateInput. cbn [vr_isValid].
    apply Nat.eqb_neq. intros Hlen. apply length_zero_iff_nil in Hlen.
    repeat (apply app_eq_nil in Hlen; destruct Hlen as [_ Hlen]).
    revert Hlen. unfold Validator.checkConsecutiveOperators.
    apply checkConsecutiveOperators_error. right.
    destruct (operatorRuns_pair c1 c2 a b [] H1 H2) as (p & q & Hpq).
    exists (p ++ c1 :: c2 :: q). split; [exact Hpq|].
    unfold lit. cbn [list_ascii_of_string].
    now rewrite !mixed_pair_not_doubled. }
  split; [exact Hinvalid|]. intros config. unfold Engine.parse. now rewrite Hinvalid.
Qed.

Lemma validateInput_rejects_mixed_operators_witness :
  vr_isValid (Validator.validateInput (lit "2x +" ++ "+"%char :: "-"%char :: lit "3 = 7"))
  = false
  /\ forall config,
       ast (Engine.parse config (lit "2x +" ++ "+"%char :: "-"%char :: lit "3 = 7")) = None.
Proof.
  apply (validateInput_rejects_mixed_operators "+"%char "-"%char (lit "2x +") (lit "3 = 7"));
    [reflexivity|reflexivity|discriminate].
Defined.

(** ** More facts of binary64 arithmetic *)

Lemma float_mul_comm (x y : float) : PrimFloat.mul x y = PrimFloat.mul y x.
Proof.
  apply Prim2SF_inj. rewrite !mul_spec. unfold SF64mul.
  destruct (Prim2SF x) as [sx|sx| |sx mx ex], (Prim2SF y) as [sy|sy| |sy my ey];
    cbn [SFmul]; try reflexivity; try (now rewrite xorb_comm).
  f_equal; [apply xorb_comm|f_equal; apply Pos.mul_comm|apply Z.add_comm].
Qed.

Lemma float_mul_minus_one (x : float) : PrimFloat.mul x (-1) = PrimFloat.opp x.
Proof. rewrite float_mul_comm. apply float_minus_one_mul. Qed.

Lemma float_opp_involutive (x : float) : PrimFloat.opp (PrimFloat.opp x) = x.
Proof.
  apply Prim2SF_inj. rewrite !opp_spec.
  destruct (Prim2SF x) as [s|s| |s m e]; cbn [SFopp]; now rewrite ?negb_involutive.
Qed.

(** [x - x] is zero or NaN, never above the tolerance. *)
Lemma float_sub_diag_small (x : float) :
  PrimFloat.ltb EPSILON (Math_abs (PrimFloat.sub x x)) = false.
Proof.
  unfold Math_abs. rewrite ltb_spec, abs_spec, sub_spec. unfold SF64sub.
  destruct (Prim2SF x) as [[]|[]| |s m e]; try reflexivity.
  cbn [SFsub]. cbv zeta.
  set (z := cond_Zopp s (Z.pos (fst (shl_align m e (IntDef.Z.min e e))))).
  replace (IntDef.Z.sub z z) with 0%Z by (symmetry; apply Z.sub_diag).
  reflexivity.
Qed.

(** [x + (-x)] is zero or NaN, never above the tolerance. *)
Lemma float_add_opp_small (x : float) :
  PrimFloat.ltb EPSILON (Math_abs (PrimFloat.add x (PrimFloat.opp x))) = false.
Proof.
  unfold Math_abs. rewrite ltb_spec, abs_spec, add_spec, opp_spec. unfold SF64add.
  destruct (Prim2SF x) as [[]|[]| |s m e]; try reflexivity.
  cbn [SFopp SFadd]. cbv zeta.
  set (z := Z.pos (fst (shl_align m e (IntDef.Z.min e e)))).
  replace (IntDef.Z.add (cond_Zopp s z) (cond_Zopp (negb s) z)) with 0%Z
    by (destruct s; cbn [cond_Zopp negb]; symmetry;
        [apply Z.add_opp_diag_l|apply Z.add_opp_diag_r]).
  reflexivity.
Qed.

(** ** The algebra of expressions *)

Lemma scaleTerm_minus_one_twice (t : Term) :
  Evaluator.scaleTerm (-1) (Evaluator.scaleTerm (-1) t) = t.
Proof.
  destruct t as [c v e k p]. unfold Evaluator.scaleTerm.
  cbn [coefficient variable exponent isConstant position].
  now rewrite !float_mul_minus_one, float_opp_involutive.
Qed.

(** X13.  Negating an expression twice gives back its terms, coefficient by
    coefficient and bit by bit, whatever the numbers are. *)
Theorem negateExpression_involutive (e : Expression) :
  terms (Evaluator.negateExpression (Evaluator.negateExpression e)) = terms e.
Proof.
  unfold Evaluator.negateExpression, Evaluator.multiplyByScalar.
  destruct (terms e) as [ts|] eqn:Hterms; cbn [terms]; [|now rewrite Hterms].
  rewrite map_map. f_equal. rewrite <- (map_id ts) at 2.
  apply map_ext. intros t. apply scaleTerm_minus_one_twice.
Qed.

(** ** Derivatives *)

Lemma getDegree_fold (v : str) (ts : list Term) (m : nat) :
  truthy (Some v) = true ->
  fold_left
    (fun maxDegree term =>
       if isConstant term then maxDegree
       else if truthy (Some v) && negb (opt_str_eqb (variable term) (Some v))
            then maxDegree
            else Nat.max maxDegree (Evaluator.exponentOf term))
    (flat_map (Evaluator.differentiateTerm v) ts) (Nat.pred m)
  = Nat.pred
      (fold_left
         (fun maxDegree term =>
            if isConstant term then maxDegree
            else if truthy (Some v) && negb (opt_str_eqb (variable term) (Some v))
                 then maxDegree
                 else Nat.max maxDegree (Evaluator.exponentOf term))
         ts m).
Proof.
  intros Hv. rewrite Hv. cbn [andb]. revert m.
  induction ts as [|t ts IH]; intros m; [reflexivity|].
  cbn [flat_map fold_left]. rewrite fold_left_app. unfold Evaluator.differentiateTerm.
  destruct (isConstant t) eqn:Hc; cbn [fold_left]; [apply IH|].
  destruct (opt_str_eqb (variable t) (Some v)) eqn:Heq; cbn [negb fold_left]; [|apply IH].
  assert (Hpos : 1 <= Evaluator.exponentOf t).
  { unfold Evaluator.exponentOf. destruct (exponent t) as [[|n]|]; lia. }
  destruct (Nat.eqb_spec (Evaluator.exponentOf t) 1) as [H1|H1]; cbn [fold_left isConstant].
  - rewrite <- IH. f_equal. lia.
  - cbn [variable]. rewrite Heq. cbn [negb]. rewrite <- IH. f_equal.
    unfold Evaluator.exponentOf at 1. cbn [exponent].
    destruct (Evaluator.exponentOf t - 1) as [|n] eqn:Hn; lia.
Qed.

(** X14.  Differentiating lowers the degree by one: for a variable with a
    non-empty name, the degree of the derivative in that variable is the
    degree of the expression minus one (and 0 when the degree is 0). *)
Theorem differentiate_lowers_degree (e : Expression) (v : str) :
  truthy (Some v) = true ->
  Evaluator.getDegree (Evaluator.differentiate e v) (Some v)
  = Nat.pred (Evaluator.getDegree e (Some v)).
Proof.
  intros Hv. unfold Evaluator.differentiate, Evaluator.getDegree.
  destruct (terms e) as [ts|]; [|reflexivity]. cbn [terms].
  pose proof (getDegree_fold v ts 0 Hv) as Hfold. cbn [Nat.pred] in Hfold.
  destruct ts as [|t ts]; [reflexivity|].
  rewrite <- Hfold.
  destruct (flat_map (Evaluator.differentiateTerm v) (t :: ts)); reflexivity.
Qed.

Lemma differentiate_lowers_degree_witness :
  Evaluator.getDegree (Evaluator.differentiate squarePlusLinear (lit "x")) (Some (lit "x"))
  = Nat.pred (Evaluator.getDegree squarePlusLinear (Some (lit "x"))).
Proof.
  apply (differentiate_lowers_degree squarePlusLinear (lit "x")). reflexivity.
Defined.

Lemma differentiate_first_degree_fold (v : str) (ts : list Term) (acc : float) :
  forallb (firstDegreeIn v) ts = true ->
  fold_left
    (fun constant term =>
       if isConstant term then PrimFloat.add constant (coefficient term) else constant)
    (flat_map (Evaluator.differentiateTerm v) ts) acc
  = fold_left
      (fun coefficient' term =>
         if opt_str_eqb (variable term) (Some v)
         then PrimFloat.add coefficient' (coefficient term) else coefficient')
      ts acc.
Proof.
  revert acc. induction ts as [|t ts IH]; intros acc Hall; [reflexivity|].
  cbn [forallb] in Hall. apply andb_prop in Hall. destruct Hall as [Ht Hts].
  unfold firstDegreeIn in Ht. apply andb_prop in Ht. destruct Ht as [Hexp Hconst].
  cbn [flat_map fold_left]. rewrite fold_left_app. unfold Evaluator.differentiateTerm.
  rewrite Hexp.
  destruct (isConstant t) eqn:Hc, (opt_str_eqb (variable t) (Some v)) eqn:Heq;
    cbn [negb andb] in Hconst; try discriminate Hconst;
    cbn [negb fold_left isConstant coefficient]; now apply IH.
Qed.

(** X15.  The derivative of a first-degree expression is the coefficient
    of the variable: the constant term of [differentiate(e, v)] is
    [getVariableCoefficient(e, v)], the same number bit by bit. *)
Theorem differentiate_first_degree (e : Expression) (v : str) :
  forallb (firstDegreeIn v) (termsOf e) = true ->
  Evaluator.getConstantTerm (Evaluator.differentiate e v)
  = Evaluator.getVariableCoefficient e (Some v).
Proof.
  unfold termsOf, Evaluator.differentiate, Evaluator.getConstantTerm,
    Evaluator.getVariableCoefficient.
  destruct (terms e) as [ts|]; [|reflexivity]. cbn [terms].
  apply differentiate_first_degree_fold.
Qed.

Lemma differentiate_first_degree_witness :
  let e := expressionOf [variableTerm 2 "x" 1; constantTerm 3; variableTerm 5 "x" 1] in
  Evaluator.getConstantTerm (Evaluator.differentiate e (lit "x"))
  = Evaluator.getVariableCoefficient e (Some (lit "x")).
Proof.
  cbv zeta.
  apply (differentiate_first_degree
           (expressionOf [variableTerm 2 "x" 1; constantTerm 3; variableTerm 5 "x" 1])
           (lit "x")).
  reflexivity.
Defined.

(** ** One variable or several *)

Lemma lookupValue_single (v : str) (x : float) :
  Evaluator.lookupValue [(v, x)] v = Some x.
Proof.
  unfold Evaluator.lookupValue. cbn [own].
  assert (H : str_eqb v v = true) by now apply str_eqb_eq.
  now rewrite H.
Qed.

Lemma sumTerms_multiple (ts : list Term) (v : str) (x acc r : float) :
  truthy (Some v) = true ->
  Evaluator.sumTerms ts v x acc = Ok r ->
  Evaluator.sumTermsWithMultipleVars ts [(v, x)] acc = Ok r.
Proof.
  intros Hv. revert acc. induction ts as [|t ts IH]; intros acc;
    [cbn; intros H; injection H as <-; reflexivity|].
  cbn [Evaluator.sumTerms Evaluator.sumTermsWithMultipleVars].
  unfold Evaluator.evaluateTerm, Evaluator.evaluateTermWithMultipleVars.
  destruct (isConstant t); cbn [bind]; [apply IH|].
  destruct (opt_str_eqb (variable t) (Some v)) eqn:Heq; cbn [bind]; [|discriminate].
  destruct (variable t) as [w|]; [|discriminate Heq]. cbn [opt_str_eqb] in Heq.
  apply str_eqb_eq in Heq. subst w. destruct v as [|c s]; [discriminate Hv|].
  rewrite lookupValue_single. cbn [bind]. apply IH.
Qed.

(** X16.  The two evaluators agree: when [evaluateWithSubstitution] returns
    a number for a variable with a non-empty name,
    [evaluateWithMultipleSubstitutions] returns the same number for the
    object that maps that variable alone to the value. *)
Theorem evaluateWithMultipleSubstitutions_agrees (e : Expression) (v : str) (x r : float) :
  truthy (Some v) = true ->
  Evaluator.evaluateWithSubstitution e v x = Ok r ->
  Evaluator.evaluateWithMultipleSubstitutions e [(v, x)] = Ok r.
Proof.
  intros Hv. unfold Evaluator.evaluateWithSubstitution,
    Evaluator.evaluateWithMultipleSubstitutions.
  destruct (terms e) as [[|t ts]|]; try (intros H; injection H as <-; reflexivity).
  now apply sumTerms_multiple.
Qed.

Lemma evaluateWithMultipleSubstitutions_agrees_witness :
  Evaluator.evaluateWithMultipleSubstitutions (left twoXEqualsTen) [(lit "x", 5%float)]
  = Ok 10%float.
Proof.
  apply (evaluateWithMultipleSubstitutions_agrees (left twoXEqualsTen) (lit "x") 5 10);
    reflexivity.
Defined.

(** ** An expression minus itself *)

Lemma own_app_fresh {V} (a b : Dict V) (k : str) (v : V) :
  ~ In k (map fst a) -> own (a ++ (k, v) :: b) k = Some v.
Proof.
  induction a as [|[k' v'] a IH]; intros Hfresh; cbn [app own].
  - assert (H : str_eqb k k = true) by now apply str_eqb_eq. now rewrite H.
  - destruct (str_eqb k k') eqn:Hk.
    + apply str_eqb_eq in Hk. subst k'. exfalso. apply Hfresh. now left.
    + apply IH. intros Hin. apply Hfresh. now right.
Qed.

Lemma update_app_fresh {V} (a b : Dict V) (k : str) (v : V) (f : V -> V) :
  ~ In k (map fst a) -> update (a ++ (k, v) :: b) k f = a ++ (k, f v) :: b.
Proof.
  induction a as [|[k' v'] a IH]; intros Hfresh; cbn [app update].
  - assert (H : str_eqb k k = true) by now apply str_eqb_eq. now rewrite H.
  - destruct (str_eqb k k') eqn:Hk.
    + apply str_eqb_eq in Hk. subst k'. exfalso. apply Hfresh. now left.
    + f_equal. apply IH. intros Hin. apply Hfresh. now right.
Qed.

Lemma fold_groupTerm_new_keys (ts : list Term) (groups : Dict Term) :
  NoDup (map fst groups ++ map termKey ts) ->
  noInheritedKey ts = true ->
  fold_left groupTerm ts groups = groups ++ map groupEntry ts.
Proof.
  revert groups. induction ts as [|t ts IH]; intros groups Hnd Hplain.
  - cbn. now rewrite app_nil_r.
  - unfold noInheritedKey in Hplain. cbn [forallb] in Hplain.
    apply andb_prop in Hplain. destruct Hplain as [Ht Hts]. apply negb_true_iff in Ht.
    cbn [fold_left map]. unfold groupTerm at 2. rewrite own_absent, Ht.
    + rewrite IH; [now rewrite <- app_assoc| |exact Hts].
      rewrite map_app. cbn [map fst]. rewrite <- app_assoc. exact Hnd.
    + cbn [map] in Hnd. apply NoDup_remove_2 in Hnd.
      intros Hin. apply Hnd. apply in_or_app. now left.
Qed.

(** The second half of the loop, over the negated terms. *)
Lemma fold_groupTerm_negated (todo done : list Term) :
  NoDup (map termKey (done ++ todo)) ->
  fold_left groupTerm (map (Evaluator.scaleTerm (-1)) todo)
            (map cancelledEntry done ++ map groupEntry todo)
  = map cancelledEntry (done ++ todo).
Proof.
  revert done. induction todo as [|t todo IH]; intros done Hnd.
  - cbn. now rewrite !app_nil_r.
  - cbn [map fold_left]. unfold groupTerm at 2.
    change (termKey (Evaluator.scaleTerm (-1) t)) with (termKey t).
    assert (Hfresh : ~ In (termKey t) (map fst (map cancelledEntry done))).
    { rewrite map_map. cbn [cancelledEntry fst]. rewrite map_app in Hnd.
      apply NoDup_remove_2 in Hnd. intros Hin. apply Hnd. apply in_or_app. now left. }
    change (groupEntry t) with (termKey t, t).
    rewrite own_app_fresh, update_app_fresh by exact Hfresh.
    replace (map cancelledEntry done
             ++ (termKey t, addCoefficient (coefficient (Evaluator.scaleTerm (-1) t)) t)
                :: map groupEntry todo)
      with (map cancelledEntry (done ++ [t]) ++ map groupEntry todo)
      by (rewrite map_app, <- app_assoc; reflexivity).
    rewrite IH; rewrite <- app_assoc; [reflexivity|exact Hnd].
Qed.

Lemma filter_none {A} (p : A -> bool) (l : list A) :
  (forall a, In a l -> p a = false) -> filter p l = [].
Proof.
  induction l as [|a l IH]; intros H; [reflexivity|]. cbn [filter].
  rewrite (H a (or_introl eq_refl)). apply IH. intros b Hb. apply H. now right.
Qed.

Lemma collectLikeTerms_cancels (ts : list Term) :
  NoDup (map termKey ts) -> noInheritedKey ts = true ->
  collectLikeTerms (ts ++ map (Evaluator.scaleTerm (-1)) ts) = [].
Proof.
  intros Hnd Hplain. unfold collectLikeTerms.
  rewrite fold_left_app, (fold_groupTerm_new_keys ts [] Hnd Hplain). cbn [app].
  change (map groupEntry ts) with (map cancelledEntry [] ++ map groupEntry ts).
  rewrite (fold_groupTerm_negated ts []) by exact Hnd. cbn [app].
  apply filter_none. intros u Hu.
  apply (Permutation_in _ (Object_values_Permutation _)) in Hu.
  rewrite map_map in Hu. apply in_map_iff in Hu. destruct Hu as (t & <- & _).
  unfold keepsTerm, cancelledEntry, addCoefficient, Evaluator.scaleTerm.
  cbn [snd coefficient]. rewrite float_mul_minus_one. apply float_add_opp_small.
Qed.

(** X17.  An expression minus itself is the zero expression, provided its
    terms have pairwise different grouping keys and no variable is named
    like a property of [Object.prototype]: [subtractExpressions(e, e)] has
    no term left and [isZeroExpression] accepts it. *)
Theorem subtractExpressions_self (e : Expression) :
  NoDup (map termKey (termsOf e)) -> noInheritedKey (termsOf e) = true ->
  termsOf (Evaluator.subtractExpressions e e) = []
  /\ Evaluator.isZeroExpression (Evaluator.subtractExpressions e e) = true.
Proof.
  intros Hnd Hplain.
  assert (Hterms : terms (Evaluator.subtractExpressions e e) = Some []).
  { unfold Evaluator.subtractExpressions, Evaluator.addExpressions,
      Evaluator.simplifyExpression. cbn [terms expr_type].
    assert (Hneg : termsOf (Evaluator.negateExpression e)
                   = map (Evaluator.scaleTerm (-1)) (termsOf e)).
    { unfold Evaluator.negateExpression, Evaluator.multiplyByScalar, termsOf.
      destruct (terms e) as [ts|] eqn:Hts; cbn [terms]; [reflexivity|].
      now rewrite Hts. }
    rewrite Hneg.
    destruct (termsOf e ++ map (Evaluator.scaleTerm (-1)) (termsOf e)) as [|t l] eqn:Hl;
      cbn [terms]; [reflexivity|].
    rewrite <- Hl. now rewrite collectLikeTerms_cancels. }
  split.
  - unfold termsOf. now rewrite Hterms.
  - unfold Evaluator.isZeroExpression. now rewrite Hterms.
Qed.

Lemma subtractExpressions_self_witness :
  let e := expressionOf [variableTerm 0.1 "x" 1; constantTerm 0.3; variableTerm 7 "y" 1] in
  termsOf (Evaluator.subtractExpressions e e) = []
  /\ Evaluator.isZeroExpression (Evaluator.subtractExpressions e e) = true.
Proof.
  cbv zeta.
  apply (subtractExpressions_self
           (expressionOf [variableTerm 0.1 "x" 1; constantTerm 0.3; variableTerm 7 "y" 1])).
  - cbn. repeat constructor; cbn; intuition discriminate.
  - reflexivity.
Defined.

(** ** The variables of an equation *)

Lemma setAdd_spec (s : list str) (w v : str) :
  In v (Parser.setAdd s w) <-> In v s \/ v = w.
Proof.
  unfold Parser.setAdd. destruct (existsb (str_eqb w) s) eqn:Hex.
  - split; [now left|]. intros [H| ->]; [exact H|].
    apply existsb_exists in Hex. destruct Hex as (u & Hu & Heq).
    apply str_eqb_eq in Heq. now subst u.
  - rewrite in_app_iff. cbn [In]. intuition.
Qed.

Lemma setAdd_NoDup (s : list str) (w : str) : NoDup s -> NoDup (Parser.setAdd s w).
Proof.
  intros Hnd. unfold Parser.setAdd. destruct (existsb (str_eqb w) s) eqn:Hex; [exact Hnd|].
  apply NoDup_app; [exact Hnd| |].
  - constructor; [intros []|constructor].
  - intros x Hx Hw. destruct Hw as [Hw|[]]. subst x.
    assert (Htrue : existsb (str_eqb w) s = true).
    { apply existsb_exists. exists w. split; [exact Hx|now apply str_eqb_eq]. }
    congruence.
Qed.

(** The inner loop of [extractVariablesFromExpressions] over the terms of
    one expression. *)
Lemma addVariables_spec (ts : list Term) (vars : list str) (v : str) :
  In v (fold_left
          (fun vars term =>
             if truthy (variable term)
             then Parser.setAdd vars (orElse (variable term) []) else vars)
          ts vars)
  <-> In v vars
      \/ exists t, In t ts /\ truthy (variable t) = true /\ variable t = Some v.
Proof.
  revert vars. induction ts as [|t ts IH]; intros vars; cbn [fold_left].
  - split; [now left|]. intros [H|(t & [] & _)]. exact H.
  - rewrite IH. destruct (truthy (variable t)) eqn:Htruthy.
    + rewrite setAdd_spec. split.
      * intros [[H| ->]|(u & Hu & Hrest)].
        -- now left.
        -- right. exists t. split; [now left|]. split; [exact Htruthy|].
           destruct (variable t) as [[|c s]|]; try discriminate Htruthy. reflexivity.
        -- right. exists u. split; [now right|exact Hrest].
      * intros [H|(u & [<- |Hu] & Hu1 & Hu2)].
        -- left. now left.
        -- left. right. rewrite Hu2 in Hu1 |- *.
           destruct v; [discriminate Hu1|reflexivity].
        -- right. exists u. split; [exact Hu|now split].
    + split.
      * intros [H|(u & Hu & Hrest)]; [now left|].
        right. exists u. split; [now right|exact Hrest].
      * intros [H|(u & [<- |Hu] & Hu1 & Hu2)]; [now left|congruence|].
        right. exists u. split; [exact Hu|now split].
Qed.

Lemma addVariables_NoDup (ts : list Term) (vars : list str) :
  NoDup vars ->
  NoDup (fold_left
           (fun vars term =>
              if truthy (variable term)
              then Parser.setAdd vars (orElse (variable term) []) else vars)
           ts vars).
Proof.
  revert vars. induction ts as [|t ts IH]; intros vars Hnd; [exact Hnd|].
  cbn [fold_left]. apply IH. destruct (truthy (variable t)); [|exact Hnd].
  now apply setAdd_NoDup.
Qed.

Lemma extractVariables_spec (a : EquationAST) :
  NoDup (Engine.extractVariables a)
  /\ forall v, In v (Engine.extractVariables a)
               <-> exists t, In t (termsOf (left a) ++ termsOf (right a))
                             /\ truthy (variable t) = true /\ variable t = Some v.
Proof.
  unfold Engine.extractVariables, Parser.extractVariablesFromExpressions.
  cbn [fold_left]. split.
  - apply addVariables_NoDup, addVariables_NoDup. constructor.
  - intros v. rewrite !addVariables_spec. split.
    + intros [[[]|(t & Ht & Hrest)]|(t & Ht & Hrest)]; exists t;
        (split; [apply in_or_app|exact Hrest]); auto.
    + intros (t & Ht & Hrest). apply in_app_or in Ht. destruct Ht as [Ht|Ht].
      * left. right. exists t. now split.
      * right. exists t. now split.
Qed.

(** X18.  The [variables] of an equation that [EquationEngine.parse]
    returns list every variable of its terms, each one once, and nothing
    else. *)
Theorem parse_variables_exact (config : EngineConfig) (input : str) (a : EquationAST) :
  ast (Engine.parse config input) = Some a ->
  NoDup (variables a)
  /\ forall v, In v (variables a)
               <-> exists t, In t (termsOf (left a) ++ termsOf (right a))
                             /\ variable t = Some v.
Proof.
  intros H. pose proof (parse_terms_shape_of_ast config input a H) as Hshape.
  apply parse_ast_inv in H. destruct H as (_ & a0 & Hast & Hl & Hr & ->).
  unfold Engine.enhanceAST in *. destruct (Parser.detectEquationType a0) as [ty lg].
  cbn [fst variables left right] in *.
  destruct (extractVariables_spec a0) as [Hnd Hin]. split; [exact Hnd|].
  intros v. rewrite Hin. split; intros (t & Ht & Hrest); exists t; (split; [exact Ht|]).
  - apply Hrest.
  - split; [|exact Hrest]. rewrite forallb_forall in Hshape. specialize (Hshape t Ht).
    unfold parsedShape in Hshape. rewrite Hrest in Hshape.
    destruct v as [|c s]; [|now rewrite Hrest].
    apply andb_prop in Hshape. destruct Hshape as [Hshape _].
    apply andb_prop in Hshape. destruct Hshape as [_ Hlen]. discriminate Hlen.
Qed.

Lemma parse_variables_exact_witness :
  exists a,
    ast (Engine.parse DEFAULT_ENGINE_CONFIG (lit "2x + 3y = 7 - x")) = Some a
    /\ variables a = [lit "x"; lit "y"]
    /\ NoDup (variables a)
    /\ forall v, In v (variables a)
                 <-> exists t, In t (termsOf (left a) ++ termsOf (right a))
                               /\ variable t = Some v.
Proof.
  eexists. split; [vm_compute; reflexivity|]. split; [reflexivity|].
  refine (parse_variables_exact DEFAULT_ENGINE_CONFIG (lit "2x + 3y = 7 - x") _ _).
  vm_compute. reflexivity.
Defined.

(** ** Test values *)

Lemma own_In {V} (o : Dict V) (k : str) : own o k <> None <-> In k (map fst o).
Proof.
  split.
  - destruct (own o k) as [v|] eqn:Hown; [|congruence]. intros _.
    now apply own_present in Hown.
  - intros Hin Hnone. induction o as [|[k' v] o IH]; [destruct Hin|].
    cbn [own] in Hnone. destruct (str_eqb k k') eqn:Hk; [discriminate Hnone|].
    destruct Hin as [Heq|Hin]; [|now apply IH].
    cbn [fst] in Heq. subst k'.
    assert (H : str_eqb k k = true) by now apply str_eqb_eq. congruence.
Qed.

Lemma lookupValue_known (values : Dict float) (v : str) :
  Evaluator.lookupValue values v <> None
  <-> In v (map fst values) \/ inherited v = true.
Proof.
  unfold Evaluator.lookupValue. rewrite <- own_In.
  destruct (own values v) as [x|]; destruct (inherited v); split; intros H;
    try discriminate; try congruence; intuition congruence.
Qed.

Lemma assign_keys (values : Dict float) (w : str) (x : float) (v : str) :
  Evaluator.lookupValue values v <> None \/ v = w ->
  Evaluator.lookupValue (Evaluator.assign values w x) v <> None.
Proof.
  rewrite !lookupValue_known. unfold Evaluator.assign.
  destruct (str_eqb w (lit "__proto__")) eqn:Hproto.
  - apply str_eqb_eq in Hproto. subst w. intros [H| ->]; [exact H|]. now right.
  - destruct (own values w) as [y|] eqn:Hown.
    + rewrite update_keys. intros [H| ->]; [exact H|]. left. apply own_In. congruence.
    + rewrite map_app, in_app_iff. cbn [map fst In]. intros [[H|H]| ->]; auto.
Qed.

Lemma fillValues_keys (random : nat -> float) (vars : list str) (k : nat)
    (values : Dict float) (v : str) :
  Evaluator.lookupValue values v <> None \/ In v vars ->
  Evaluator.lookupValue (Evaluator.fillValues random vars k values) v <> None.
Proof.
  revert k values. induction vars as [|w vars IH]; intros k values H.
  - destruct H as [H|[]]. exact H.
  - cbn [Evaluator.fillValues]. apply IH. destruct H as [H|[<- |H]].
    + left. apply assign_keys. now left.
    + left. apply assign_keys. now right.
    + now right.
Qed.

(** Every object of test values gives a value to every listed variable. *)
Lemma generateTestValues_keys (random : nat -> float) (vars : list str) (count : nat)
    (values : Dict float) (v : str) :
  In values (Evaluator.generateTestValues random vars count) -> In v vars ->
  Evaluator.lookupValue values v <> None.
Proof.
  unfold Evaluator.generateTestValues. intros Hin Hv. apply in_map_iff in Hin.
  destruct Hin as (i & <- & _). apply fillValues_keys. now right.
Qed.

(** ** Steps against the step validator *)

Lemma sumTermsWithMultipleVars_closed (vars : list str) (values : Dict float)
    (ts : list Term) (acc : float) :
  (forall v, In v vars -> Evaluator.lookupValue values v <> None) ->
  forallb (closedTerm vars) ts = true ->
  exists r, Evaluator.sumTermsWithMultipleVars ts values acc = Ok r.
Proof.
  intros Hvalues. revert acc. induction ts as [|t ts IH]; intros acc Hclosed.
  - now exists acc.
  - cbn [forallb] in Hclosed. apply andb_prop in Hclosed. destruct Hclosed as [Ht Hts].
    cbn [Evaluator.sumTermsWithMultipleVars]. unfold Evaluator.evaluateTermWithMultipleVars.
    unfold closedTerm in Ht.
    destruct (isConstant t); cbn [bind]; [now apply IH|]. cbn [orb] in Ht.
    destruct (variable t) as [[|c s]|]; try discriminate Ht.
    apply existsb_exists in Ht. destruct Ht as (w & Hw & Heq).
    apply str_eqb_eq in Heq. subst w. specialize (Hvalues _ Hw).
    destruct (Evaluator.lookupValue values (c :: s)) as [x|]; [|congruence].
    cbn [bind]. now apply IH.
Qed.

Lemma evaluateWithMultipleSubstitutions_closed (vars : list str) (values : Dict float)
    (e : Expression) :
  (forall v, In v vars -> Evaluator.lookupValue values v <> None) ->
  forallb (closedTerm vars) (termsOf e) = true ->
  exists r, Evaluator.evaluateWithMultipleSubstitutions e values = Ok r.
Proof.
  intros Hvalues Hclosed. unfold Evaluator.evaluateWithMultipleSubstitutions.
  unfold termsOf in Hclosed.
  destruct (terms e) as [[|t ts]|]; try (now eexists).
  now apply (sumTermsWithMultipleVars_closed vars).
Qed.

Lemma validateTranspositionStep_closed (vars : list str) (equation : EquationAST)
    (testValues : list (Dict float)) :
  (forall values v, In values testValues -> In v vars ->
                    Evaluator.lookupValue values v <> None) ->
  forallb (closedTerm vars) (termsOf (left equation) ++ termsOf (right equation)) = true ->
  Validator.validateTranspositionStep equation testValues = Ok true.
Proof.
  intros Hvalues Hclosed. rewrite forallb_app in Hclosed. apply andb_prop in Hclosed.
  destruct Hclosed as [Hl Hr].
  induction testValues as [|values testValues IH]; [reflexivity|].
  cbn [Validator.validateTranspositionStep].
  destruct (evaluateWithMultipleSubstitutions_closed vars values (left equation))
    as (l & ->); [intros v Hv; apply Hvalues; [now left|exact Hv]|exact Hl|].
  destruct (evaluateWithMultipleSubstitutions_closed vars values (right equation))
    as (r & ->); [intros v Hv; apply Hvalues; [now left|exact Hv]|exact Hr|].
  cbn [bind]. apply IH. intros values' v Hin Hv. apply Hvalues; [now right|exact Hv].
Qed.

(** Two expressions with the same terms are equivalent at all test values
    at which they can be evaluated. *)
Lemma areExpressionsEquivalent_same_terms (vars : list str) (e1 e2 : Expression)
    (testValues : list (Dict float)) :
  terms e1 = terms e2 ->
  (forall values v, In values testValues -> In v vars ->
                    Evaluator.lookupValue values v <> None) ->
  forallb (closedTerm vars) (termsOf e1) = true ->
  Evaluator.areExpressionsEquivalent e1 e2 testValues = Ok true.
Proof.
  intros Hsame Hvalues Hclosed.
  induction testValues as [|values testValues IH]; [reflexivity|].
  cbn [Evaluator.areExpressionsEquivalent].
  assert (Heval : Evaluator.evaluateWithMultipleSubstitutions e2 values
                  = Evaluator.evaluateWithMultipleSubstitutions e1 values).
  { unfold Evaluator.evaluateWithMultipleSubstitutions. now rewrite Hsame. }
  rewrite Heval.
  destruct (evaluateWithMultipleSubstitutions_closed vars values e1)
    as (r & ->); [intros v Hv; apply Hvalues; [now left|exact Hv]|exact Hclosed|].
  cbn [bind]. rewrite float_sub_diag_small.
  apply IH. intros values' v Hin Hv. apply Hvalues; [now right|exact Hv].
Qed.

Lemma simplifyExpression_same_terms (e : Expression) :
  distinctKeys (termsOf e) -> terms (Evaluator.simplifyExpression e) = terms e.
Proof.
  intros Hd. unfold Evaluator.simplifyExpression.
  destruct (terms e) as [[|t ts]|] eqn:Hterms; rewrite ?Hterms; try reflexivity.
  cbn [terms]. unfold termsOf in Hd. rewrite Hterms in Hd.
  now rewrite collectLikeTerms_distinctKeys.
Qed.

(** The steps that the generators can produce. *)
Lemma generated_step_cases (equation : EquationAST) (ss : list Step) (step : Step) :
  StepGenerator.analyzeAndGenerateSteps equation = Ok ss -> In step ss ->
  In step [ StepGenerator.createTranspositionStep equation;
            StepGenerator.createIsolationStep equation;
            StepGenerator.createCombinationStep equation;
            StepGenerator.createDistributiveStep equation;
            StepGenerator.createClearFractionsStep equation;
            StepGenerator.createVariableTranspositionStep equation;
            StepGenerator.createConstantTranspositionStep equation ].
Proof.
  unfold StepGenerator.analyzeAndGenerateSteps. intros H. injection H as <-.
  destruct (equationType equation);
    unfold StepGenerator.generateBasicSteps, StepGenerator.generateStandardSteps,
      StepGenerator.generateDistributiveSteps, StepGenerator.generateComplexSteps,
      StepGenerator.generateFractionalSteps, StepGenerator.generateDistributiveSteps,
      StepGenerator.generateStandardSteps, StepGenerator.applyStep;
    repeat case_condition; cbn [app In]; intuition (subst; cbn [In]; tauto).
Qed.

Lemma validateMathematicalStep_transposition (random : nat -> float)
    (equation : EquationAST) (step : Step) :
  closedEquation equation = true -> step_type step = transposition ->
  Validator.validateMathematicalStep random equation step = true.
Proof.
  intros Hclosed Hty. unfold Validator.validateMathematicalStep. rewrite Hty.
  rewrite (validateTranspositionStep_closed (variables equation)); [reflexivity| |exact Hclosed].
  intros values v Hin Hv. eapply generateTestValues_keys; eassumption.
Qed.

Lemma validateMathematicalStep_simplified (random : nat -> float)
    (equation : EquationAST) (step : Step) :
  closedEquation equation = true -> distinctKeys (termsOf (left equation)) ->
  step_type step = combination \/ step_type step = distribution ->
  fromExpression step = left equation ->
  toExpression step = Evaluator.simplifyExpression (left equation) ->
  Validator.validateMathematicalStep random equation step = true.
Proof.
  intros Hclosed Hd Hty Hfrom Hto. unfold closedEquation in Hclosed.
  rewrite forallb_app in Hclosed. apply andb_prop in Hclosed. destruct Hclosed as [Hl _].
  assert (Heq : Evaluator.areExpressionsEquivalent (fromExpression step) (toExpression step)
                  (Evaluator.generateTestValues random (variables equation) 5) = Ok true).
  { rewrite Hfrom, Hto.
    apply (areExpressionsEquivalent_same_terms (variables equation)).
    - symmetry. now apply simplifyExpression_same_terms.
    - intros values v Hin Hv. eapply generateTestValues_keys; eassumption.
    - exact Hl. }
  unfold Validator.validateMathematicalStep, Validator.validateCombinationStep,
    Validator.validateDistributionStep.
  destruct Hty as [-> | ->]; now rewrite Heq.
Qed.

(** Every generated step passes [validateMathematicalStep], for an equation
    whose variables are all listed and whose left side has distinct keys. *)
Lemma generated_steps_valid (random : nat -> float) (equation : EquationAST)
    (ss : list Step) (step : Step) :
  closedEquation equation = true -> distinctKeys (termsOf (left equation)) ->
  StepGenerator.analyzeAndGenerateSteps equation = Ok ss -> In step ss ->
  Validator.validateMathematicalStep random equation step = true.
Proof.
  intros Hclosed Hd Hss Hin.
  pose proof (generated_step_cases equation ss step Hss Hin) as Hcases.
  cbn [In] in Hcases.
  destruct Hcases as [<- |[<- |[<- |[<- |[<- |[<- |[<- |[]]]]]]]].
  - now apply validateMathematicalStep_transposition.
  - reflexivity.
  - apply validateMathematicalStep_simplified; auto.
  - apply validateMathematicalStep_simplified; auto.
  - reflexivity.
  - now apply validateMathematicalStep_transposition.
  - now apply validateMathematicalStep_transposition.
Qed.

Lemma parse_closedEquation (config : EngineConfig) (input : str) (a : EquationAST) :
  ast (Engine.parse config input) = Some a ->
  closedEquation a = true /\ distinctKeys (termsOf (left a)).
Proof.
  intros H. pose proof (parse_terms_shape_of_ast config input a H) as Hshape.
  apply parse_ast_inv in H. destruct H as (_ & a0 & Hast & Hl & Hr & Ha). split.
  - unfold closedEquation. apply forallb_forall. intros t Ht.
    rewrite forallb_forall in Hshape. specialize (Hshape t Ht).
    unfold parsedShape in Hshape. unfold closedTerm.
    destruct (variable t) as [v|] eqn:Hv.
    + destruct v as [|c s].
      { apply andb_prop in Hshape. destruct Hshape as [Hshape _].
        apply andb_prop in Hshape. destruct Hshape as [_ Hlen]. discriminate Hlen. }
      apply orb_true_iff. right. apply existsb_exists. exists (c :: s).
      split; [|now apply str_eqb_eq].
      assert (Hvars : variables a = Engine.extractVariables a0).
      { rewrite Ha. unfold Engine.enhanceAST.
        destruct (Parser.detectEquationType a0). reflexivity. }
      rewrite Hvars. apply (proj2 (extractVariables_spec a0)).
      exists t. rewrite <- Hl, <- Hr. split; [exact Ht|]. now rewrite Hv.
    + apply andb_prop in Hshape. destruct Hshape as [Hc _]. now rewrite Hc.
  - rewrite Hl. apply parseEquation_sides in Hast.
    destruct Hast as (ls & rs & Hls & _ & Hleft & _).
    unfold termsOf. rewrite Hleft.
    now apply collectLikeTerms_result_distinctKeys, parsedShape_noIndexKey.
Qed.

(** X19.  A step labelled as a transposition is accepted as mathematically
    valid whatever its two expressions are, for every equation whose terms
    only use listed variables and for every outcome of the random test
    values: [validateTranspositionStep] evaluates the equation, never the
    step. *)
Theorem validateMathematicalStep_accepts_any_transposition (random : nat -> float)
    (equation : EquationAST) (from to : Expression) (d : nat) :
  closedEquation equation = true ->
  Validator.validateMathematicalStep random equation
    {| step_type := transposition; fromExpression := from; toExpression := to;
       difficulty := d |} = true.
Proof.
  intros Hclosed. now apply validateMathematicalStep_transposition.
Qed.

Lemma validateMathematicalStep_accepts_any_transposition_witness :
  Validator.validateMathematicalStep (fun _ => 0.25%float) twoXEqualsTen
    {| step_type := transposition;
       fromExpression := expressionOf [constantTerm 1];
       toExpression := expressionOf [variableTerm 99 "x" 3];
       difficulty := 1 |} = true.
Proof.
  apply (validateMathematicalStep_accepts_any_transposition (fun _ => 0.25%float)
           twoXEqualsTen (expressionOf [constantTerm 1])
           (expressionOf [variableTerm 99 "x" 3]) 1).
  reflexivity.
Defined.

(** X20.  The engine accepts its own steps: for an equation that
    [EquationEngine.parse] returned, every step of the sequence that
    [generateSteps] produces passes [validateMathematicalStep], whatever the
    random test values are. *)
Theorem generated_steps_pass_validation (config : EngineConfig) (random : nat -> float)
    (input : str) (a : EquationAST) (sequence : StepSequence) (step : Step) :
  ast (Engine.parse config input) = Some a ->
  Engine.generateSteps a = Ok sequence -> In step (steps sequence) ->
  Validator.validateMathematicalStep random a step = true.
Proof.
  intros Hparse Hseq Hin. apply parse_closedEquation in Hparse.
  destruct Hparse as [Hclosed Hd].
  destruct (generateOptimalSequence_optimal a) as (ss & Hss & Hopt).
  unfold Engine.generateSteps in Hseq. rewrite Hopt in Hseq. injection Hseq as <-.
  cbn [steps] in Hin. now apply (generated_steps_valid random a ss).
Qed.

Lemma generated_steps_pass_validation_witness :
  exists a sequence step,
    ast (Engine.parse DEFAULT_ENGINE_CONFIG (lit "2x + 3y + 3 = 7 + x")) = Some a
    /\ Engine.generateSteps a = Ok sequence
    /\ In step (steps sequence)
    /\ step_type step = distribution
    /\ Validator.validateMathematicalStep (fun _ => 0.3%float) a step = true.
Proof.
  eexists. eexists. eexists.
  split; [vm_compute; reflexivity|].
  split; [vm_compute; reflexivity|].
  split; [left; reflexivity|].
  split; [reflexivity|].
  refine (generated_steps_pass_validation DEFAULT_ENGINE_CONFIG (fun _ => 0.3%float)
            (lit "2x + 3y + 3 = 7 + x") _ _ _ _ _ _).
  - vm_compute. reflexivity.
  - vm_compute. reflexivity.
  - left. reflexivity.
Defined.

(** ** Steps in another variable than [x] *)

Lemma sumTermsWithMultipleVars_needs_x (ts : list Term) (x acc : float) :
  needsOtherVariable (expressionOf ts) = true ->
  exists err, Evaluator.sumTermsWithMultipleVars ts [(lit "x", x)] acc = Throw err.
Proof.
  unfold needsOtherVariable, termsOf. cbn [expressionOf terms].
  revert acc. induction ts as [|t ts IH]; intros acc Hex; [discriminate Hex|].
  cbn [existsb] in Hex. cbn [Evaluator.sumTermsWithMultipleVars].
  unfold Evaluator.evaluateTermWithMultipleVars.
  destruct (isConstant t); cbn [negb andb orb bind] in *; [now apply IH|].
  destruct (variable t) as [[|c s]|]; try (now eexists).
  unfold Evaluator.lookupValue. cbn [own].
  destruct (str_eqb (c :: s) (lit "x")) eqn:Hx; cbn [negb andb orb bind] in *;
    [now apply IH|].
  destruct (inherited (c :: s)); cbn [negb orb bind] in *; [now apply IH|now eexists].
Qed.

Lemma evaluateWithMultipleSubstitutions_needs_x (e : Expression) (x : float) :
  needsOtherVariable e = true ->
  exists err, Evaluator.evaluateWithMultipleSubstitutions e [(lit "x", x)] = Throw err.
Proof.
  intros H. unfold Evaluator.evaluateWithMultipleSubstitutions.
  unfold needsOtherVariable, termsOf in H.
  destruct (terms e) as [[|t ts]|]; try discriminate H.
  now apply sumTermsWithMultipleVars_needs_x.
Qed.

(** X21.  A step whose resulting expression has a term in a variable other
    than [x] is never found in the expected sequence, not even when it is
    one of the expected steps: [stepsAreEquivalent] evaluates both results
    at test values for [x] alone, the evaluation raises, and the [catch]
    answers [false].  [validateStudentStep] then always adds the warning
    that the step is not in the suggested sequence. *)
Theorem isStepInExpectedSequence_needs_x (attempted : Step) (expected : list Step) :
  needsOtherVariable (toExpression attempted) = true ->
  Validator.isStepInExpectedSequence attempted (attempted :: expected) = false
  /\ forall random equation result,
       Validator.validateStudentStep random equation attempted (attempted :: expected)
       = Ok result ->
       In {| warn_type := unusual_format |} (vr_warnings result).
Proof.
  intros Hneeds.
  assert (Hequiv : forall step, Validator.stepsAreEquivalent step attempted = false).
  { intros step. unfold Validator.stepsAreEquivalent.
    destruct (Validator.OperationType_eqb (step_type step) (step_type attempted));
      [|reflexivity].
    cbn [negb]. unfold Validator.fixedTestValues. cbn [Evaluator.areExpressionsEquivalent].
    destruct (Evaluator.evaluateWithMultipleSubstitutions (toExpression step) _)
      as [r|err]; [|reflexivity].
    destruct (evaluateWithMultipleSubstitutions_needs_x (toExpression attempted) 1 Hneeds)
      as (err & ->).
    reflexivity. }
  assert (Hseq : forall steps', Validator.isStepInExpectedSequence attempted steps' = false).
  { intros steps'. unfold Validator.isStepInExpectedSequence.
    induction steps' as [|s steps' IH]; [reflexivity|].
    cbn [existsb]. now rewrite Hequiv, andb_false_r. }
  split; [apply Hseq|].
  intros random equation result. unfold Validator.validateStudentStep.
  rewrite Hseq. cbn [negb].
  destruct (Validator.validateStepComplexity attempted) as [ws|err]; cbn [bind];
    [|discriminate].
  intros H. injection H as <-. cbn [vr_warnings app]. now left.
Qed.

Lemma isStepInExpectedSequence_needs_x_witness :
  let equation := equationOf [variableTerm 2 "y" 1] [constantTerm 10] basic ["y"%string] in
  let step := StepGenerator.createIsolationStep equation in
  Validator.isStepInExpectedSequence step [step] = false
  /\ forall random equation' result,
       Validator.validateStudentStep random equation' step [step] = Ok result ->
       In {| warn_type := unusual_format |} (vr_warnings result).
Proof.
  cbv zeta.
  apply (isStepInExpectedSequence_needs_x
           (StepGenerator.createIsolationStep
              (equationOf [variableTerm 2 "y" 1] [constantTerm 10] basic ["y"%string])) []).
  reflexivity.
Defined.

(** ** The shape of a step sequence *)

(** X22.  Every sequence of [generateOptimalSequence] ends with the
    isolation step [1 * variable], has a number of steps within the range
    of its equation type (between 1 and 6 in all), and each of its steps
    starts from the left side of the original equation: the steps are not
    applied to one another's results. *)
Theorem generateOptimalSequence_shape (equation : EquationAST) :
  exists sequence before,
    StepGenerator.generateOptimalSequence equation = Ok sequence
    /\ steps sequence = before ++ [StepGenerator.createIsolationStep equation]
    /\ fst (stepCountRange (equationType equation)) <= length (steps sequence)
       <= snd (stepCountRange (equationType equation))
    /\ forall step, In step (steps sequence) -> fromExpression step = left equation.
Proof.
  destruct (generateOptimalSequence_optimal equation) as (ss & Hss & ->).
  cbn [steps].
  assert (Hfrom : forall step, In step ss -> fromExpression step = left equation).
  { intros step Hin. pose proof (generated_step_cases equation ss step Hss Hin) as Hcases.
    cbn [In] in Hcases.
    destruct Hcases as [<- |[<- |[<- |[<- |[<- |[<- |[<- |[]]]]]]]]; reflexivity. }
  unfold StepGenerator.analyzeAndGenerateSteps in Hss. injection Hss as Hss.
  assert (Hshape : ss = removelast ss ++ [StepGenerator.createIsolationStep equation]
                   /\ fst (stepCountRange (equationType equation)) <= length ss
                      <= snd (stepCountRange (equationType equation))).
  { rewrite <- Hss. clear Hss Hfrom.
    destruct (equationType equation);
      unfold StepGenerator.generateBasicSteps, StepGenerator.generateStandardSteps,
        StepGenerator.generateDistributiveSteps, StepGenerator.generateComplexSteps,
        StepGenerator.generateFractionalSteps, StepGenerator.generateDistributiveSteps,
        StepGenerator.generateStandardSteps, StepGenerator.applyStep;
      repeat case_condition; cbn [app length stepCountRange fst snd removelast];
      (split; [reflexivity|lia]). }
  destruct Hshape as [Hbefore Hlen].
  eexists. exists (removelast ss).
  split; [reflexivity|]. split; [exact Hbefore|]. split; [exact Hlen|exact Hfrom].
Qed.

(** ** The backend's mock parser *)

Lemma letter_case_differs (c : ascii) :
  isLetter c = true -> Ascii.eqb (toLowerCase c) (toUpperCase c) = false.
Proof.
  destruct c as [[] [] [] [] [] [] [] []]; intros H; try reflexivity; discriminate H.
Qed.

Lemma extractSimpleVariables_head (letters : str) (first : str) (others : list str) :
  exists others',
    fold_left
      (fun variables' m =>
         if negb (Ascii.eqb (toLowerCase m) (toUpperCase m))
         then Parser.setAdd variables' [toLowerCase m]
         else variables')
      letters (first :: others)
    = first :: others'.
Proof.
  revert others. induction letters as [|m letters IH]; intros others; [now eexists|].
  cbn [fold_left]. destruct (negb (Ascii.eqb (toLowerCase m) (toUpperCase m)));
    [|apply IH].
  unfold Parser.setAdd. destruct (existsb _ (first :: others)); [apply IH|].
  cbn [app]. apply IH.
Qed.

(** X23.  The backend ignores what the input says: whatever the string,
    [parse] returns the equation [2x + 3 = 7] without tokens, errors or
    warnings, and [solve] on it returns the value 2 with a verification
    that holds.  Of the input only the letters survive: the solution is
    named after the first letter, in lower case, or [x] when there is
    none. *)
Theorem backend_parse_solve_constant (input : str) :
  exists a sol,
    Backend.parse input
    = {| ast := Some a; tokens := []; errors := []; warnings := [] |}
    /\ map termContent (termsOf (left a))
       = [ (2%float, Some (lit "x"), None, false); (3%float, None, None, true) ]
    /\ map termContent (termsOf (right a)) = [ (7%float, None, None, true) ]
    /\ Backend.solve a = Ok sol
    /\ value sol = 2%float
    /\ map isValid (verificationsSteps sol) = [true]
    /\ sol_variable sol
       = match filter isLetter input with
         | [] => lit "x"
         | c :: _ => [toLowerCase c]
         end.
Proof.
  exists (Backend.mockAST input). eexists.
  split; [reflexivity|]. split; [reflexivity|]. split; [reflexivity|].
  split; [reflexivity|]. split; [reflexivity|]. split; [reflexivity|].
  cbn [sol_variable Backend.mockAST variables]. unfold Backend.extractSimpleVariables.
  destruct (filter isLetter input) as [|c letters] eqn:Hletters; [reflexivity|].
  assert (Hc : isLetter c = true).
  { assert (Hin : In c (filter isLetter input)) by (rewrite Hletters; now left).
    apply filter_In in Hin. apply Hin. }
  cbn [fold_left]. rewrite (letter_case_differs c Hc). cbn [negb].
  unfold Parser.setAdd at 2. cbn [existsb app].
  destruct (extractSimpleVariables_head letters [toLowerCase c] []) as (others & ->).
  reflexivity.
Qed.

(** ** Equations in two variables *)

Lemma sumTerms_foreign_variable (ts : list Term) (v : str) (x acc : float) (t : Term) :
  In t ts -> isConstant t = false -> opt_str_eqb (variable t) (Some v) = false ->
  exists e, Evaluator.sumTerms ts v x acc = Throw e.
Proof.
  intros Hin Hc Hv. revert acc. induction ts as [|u ts IH]; intros acc; [destruct Hin|].
  cbn [Evaluator.sumTerms].
  destruct (Evaluator.evaluateTerm u v x) as [y|e] eqn:Hu; cbn [bind]; [|now exists e].
  destruct Hin as [-> |Hin]; [|now apply IH].
  unfold Evaluator.evaluateTerm in Hu. rewrite Hc, Hv in Hu. discriminate Hu.
Qed.

Lemma evaluateWithSubstitution_foreign_variable (e : Expression) (v : str) (x : float)
    (t : Term) :
  In t (termsOf e) -> isConstant t = false -> opt_str_eqb (variable t) (Some v) = false ->
  exists err, Evaluator.evaluateWithSubstitution e v x = Throw err.
Proof.
  unfold termsOf, Evaluator.evaluateWithSubstitution. intros Hin Hc Hv.
  destruct (terms e) as [[|u ts]|]; try destruct Hin as [].
  - subst u. apply (sumTerms_foreign_variable (t :: ts) v x _ t); auto. now left.
  - apply (sumTerms_foreign_variable (u :: ts) v x _ t); auto. now right.
Qed.

(** X24.  [solve] never returns a solution for an equation with a term in
    a second variable: as soon as some non-constant term is not in the
    first listed variable, the call raises, either because the first
    variable has no usable coefficient or because the verification cannot
    evaluate that term. *)
Theorem solve_raises_on_second_variable (equation : EquationAST) (v : str) (vs : list str)
    (t : Term) :
  variables equation = v :: vs ->
  In t (termsOf (left equation) ++ termsOf (right equation)) ->
  isConstant t = false -> opt_str_eqb (variable t) (Some v) = false ->
  exists e, Engine.solve equation = Throw (SolveFailed e).
Proof.
  intros Hvars Hin Hc Hv. unfold Engine.solve, Engine.generateSteps.
  destruct (generateOptimalSequence_optimal equation) as (ss & _ & ->). cbn [bind steps].
  unfold Engine.applySolutionSteps. rewrite Hvars.
  destruct (Engine.solveMathematically equation v) as [x|e]; cbn [bind tryCatch];
    [|now exists e].
  unfold Engine.verifySolution. cbn [Engine.ps_variable Engine.ps_value].
  apply in_app_or in Hin. destruct Hin as [Hin|Hin].
  - destruct (evaluateWithSubstitution_foreign_variable (left equation) v x t Hin Hc Hv)
      as (err & ->).
    cbn [bind tryCatch]. now exists err.
  - destruct (Evaluator.evaluateWithSubstitution (left equation) v x) as [l|err];
      cbn [bind tryCatch]; [|now exists err].
    destruct (evaluateWithSubstitution_foreign_variable (right equation) v x t Hin Hc Hv)
      as (err & ->).
    cbn [bind tryCatch]. now exists err.
Qed.

Lemma solve_raises_on_second_variable_witness :
  exists e,
    Engine.solve (equationOf [variableTerm 2 "x" 1; variableTerm 3 "y" 1] [constantTerm 7]
                    standard ["x"; "y"]%string)
    = Throw (SolveFailed e).
Proof.
  refine (solve_raises_on_second_variable
            (equationOf [variableTerm 2 "x" 1; variableTerm 3 "y" 1] [constantTerm 7]
               standard ["x"; "y"]%string)
            (lit "x") [lit "y"] (variableTerm 3 "y" 1) _ _ _ _).
  - reflexivity.
  - right. left. reflexivity.
  - reflexivity.
  - reflexivity.
Defined.

(** ** The cache key of [EquationService] *)

Lemma toInt32_congr (n : Z) :
  (EquationService.toInt32 n mod 4294967296 = n mod 4294967296)%Z.
Proof.
  unfold EquationService.toInt32. rewrite Zminus_mod_idemp_l. f_equal. lia.
Qed.

Lemma toInt32_ext (a b : Z) :
  (a mod 4294967296 = b mod 4294967296)%Z ->
  EquationService.toInt32 a = EquationService.toInt32 b.
Proof.
  intros H. unfold EquationService.toInt32.
  rewrite <- (Zplus_mod_idemp_l a), <- (Zplus_mod_idemp_l b), H. reflexivity.
Qed.

Lemma toInt32_range (n : Z) :
  (-2147483648 <= EquationService.toInt32 n < 2147483648)%Z.
Proof.
  unfold EquationService.toInt32.
  pose proof (Z.mod_pos_bound (n + 2147483648) 4294967296 eq_refl). lia.
Qed.

Lemma hashStep_polynomial (p : Z) (c : ascii) :
  EquationService.hashStep (EquationService.toInt32 p) c
  = EquationService.toInt32 (31 * p + Z.of_nat (code c)).
Proof.
  unfold EquationService.hashStep, EquationService.shiftLeft. apply toInt32_ext.
  rewrite Z.shiftl_mul_pow2 by lia.
  rewrite <- Zplus_mod_idemp_l, Zminus_mod, !toInt32_congr.
  rewrite <- Zmult_mod_idemp_l, !toInt32_congr, Zmult_mod_idemp_l.
  rewrite <- Zminus_mod, Zplus_mod_idemp_l. f_equal. lia.
Qed.

Lemma hashLoop_polynomial (s : str) (p : Z) :
  fold_left EquationService.hashStep s (EquationService.toInt32 p)
  = EquationService.toInt32 (polynomialHash s p).
Proof.
  revert p. induction s as [|c s IH]; intros p; [reflexivity|].
  cbn [fold_left polynomialHash]. rewrite hashStep_polynomial. apply IH.
Qed.

(** X25.  The number behind a cache key is the polynomial hash of the
    string in base 31, reduced once to a signed 32-bit integer and taken
    in absolute value: reducing at every turn of the loop, as the code
    does, gives the same number.  It lies between 0 and 2^31, both
    included. *)
Theorem hashNumber_polynomial (s : str) :
  EquationService.hashNumber s
  = Z.abs (EquationService.toInt32 (polynomialHash s 0))
  /\ (0 <= EquationService.hashNumber s <= 2147483648)%Z.
Proof.
  assert (H : EquationService.hashNumber s
              = Z.abs (EquationService.toInt32 (polynomialHash s 0))).
  { unfold EquationService.hashNumber. f_equal. apply (hashLoop_polynomial s 0). }
  split; [exact H|]. rewrite H.
  pose proof (toInt32_range (polynomialHash s 0)). lia.
Qed.

Lemma toLowerCase_space (c : ascii) : isSpace c = true -> isSpace (toLowerCase c) = true.
Proof.
  destruct c as [[] [] [] [] [] [] [] []]; intros H; try reflexivity; discriminate H.
Qed.

Lemma toLowerCase_idempotent (c : ascii) : toLowerCase (toLowerCase c) = toLowerCase c.
Proof. destruct c as [[] [] [] [] [] [] [] []]; reflexivity. Qed.

(** X26.  On an input written in ASCII and Latin-1 (every code unit below
    256), the cache key does not see white space or letter case: adding a
    white-space character of that range anywhere in the input, or putting
    the input in lower case, leaves the key unchanged.  [processEquation]
    therefore answers such an input from the cache entry of the other.
    (Beyond Latin-1 [toLowerCase] looks at the neighbours of a character,
    a capital sigma for one, and the key can change with a space.) *)
Theorem generateCacheKey_ignores_space_and_case (a b : str) (c : ascii) :
  latin1 (a ++ c :: b) = true ->
  isSpace c = true ->
  EquationService.generateCacheKey (a ++ c :: b) = EquationService.generateCacheKey (a ++ b)
  /\ EquationService.generateCacheKey (map toLowerCase (a ++ b))
     = EquationService.generateCacheKey (a ++ b).
Proof.
  intros _ Hc. unfold EquationService.generateCacheKey. split; f_equal; f_equal.
  - unfold EquationService.normalized. rewrite !map_app, !filter_app. cbn [map filter].
    now rewrite (toLowerCase_space c Hc).
  - unfold EquationService.normalized. rewrite map_map. f_equal.
    apply map_ext. intros x. apply toLowerCase_idempotent.
Qed.

Lemma generateCacheKey_ignores_space_and_case_witness :
  EquationService.generateCacheKey (lit "2X" ++ " "%char :: lit "+3=7")
  = EquationService.generateCacheKey (lit "2X" ++ lit "+3=7")
  /\ EquationService.generateCacheKey (map toLowerCase (lit "2X" ++ lit "+3=7"))
     = EquationService.generateCacheKey (lit "2X" ++ lit "+3=7").
Proof.
  apply (generateCacheKey_ignores_space_and_case (lit "2X") (lit "+3=7") " "%char);
    reflexivity.
Defined.

(** ** The two verifications of a solution *)

(** X27.  The verification that [solve] records agrees with
    [verifyEquationSolution]: for a solution in a variable with a
    non-empty name, evaluating the equation at the object that maps the
    variable to the value returns the [isValid] flag of the recorded
    verification step. *)
Theorem solve_agrees_with_verifyEquationSolution (equation : EquationAST) (sol : Solution) :
  truthy (Some (sol_variable sol)) = true ->
  Engine.solve equation = Ok sol ->
  Evaluator.verifyEquationSolution equation [(sol_variable sol, value sol)]
  = Ok (forallb isValid (verificationsSteps sol)).
Proof.
  intros Hv Hsolve. apply solve_Ok_inv in Hsolve.
  destruct Hsolve as (v & vs & l & r & _ & Hvar & _ & Hl & Hr & Hsteps & _).
  rewrite Hvar in *.
  assert (Hsame : forall e y,
            Evaluator.evaluateWithSubstitution e v (value sol) = Ok y ->
            Evaluator.evaluateWithMultipleSubstitutions e [(v, value sol)] = Ok y).
  { intros e y. unfold Evaluator.evaluateWithSubstitution,
      Evaluator.evaluateWithMultipleSubstitutions.
    destruct (terms e) as [[|t ts]|]; try (intros H; injection H as <-; reflexivity).
    now apply sumTerms_multiple. }
  unfold Evaluator.verifyEquationSolution.
  rewrite (Hsame (left equation) l Hl), (Hsame (right equation) r Hr).
  cbn [bind]. rewrite Hsteps. cbn [forallb isValid]. now rewrite andb_true_r.
Qed.

Lemma solve_agrees_with_verifyEquationSolution_witness :
  exists sol,
    Engine.solve twoXEqualsTen = Ok sol
    /\ Evaluator.verifyEquationSolution twoXEqualsTen [(sol_variable sol, value sol)]
       = Ok (forallb isValid (verificationsSteps sol)).
Proof.
  eexists. split; [vm_compute; reflexivity|].
  refine (solve_agrees_with_verifyEquationSolution twoXEqualsTen _ _ _).
  - reflexivity.
  - vm_compute. reflexivity.
Defined.

(** ** Operators are read as signs *)

Lemma hasType_asPlus (ty : TokenType) (o : option Token) :
  Parser.hasType ty (option_map asPlus o) = Parser.hasType ty o.
Proof.
  destruct o as [tok|]; [|reflexivity]. cbn [option_map Parser.hasType]. unfold asPlus.
  destruct (TokenType_eqb (tok_type tok) OPERATOR) eqn:Hop; [|reflexivity].
  destruct (negb (str_eqb (tok_value tok) (lit "-"))); [|reflexivity].
  cbn [andb tok_type]. destruct (tok_type tok); try discriminate Hop. reflexivity.
Qed.

Lemma valueOf_asPlus (ty : TokenType) (o : option Token) :
  ty <> OPERATOR -> Parser.hasType ty o = true ->
  Parser.valueOf (option_map asPlus o) = Parser.valueOf o.
Proof.
  intros Hty H. destruct o as [tok|]; [|discriminate H].
  cbn [option_map Parser.hasType Parser.valueOf] in *. unfold asPlus.
  destruct (TokenType_eqb (tok_type tok) OPERATOR) eqn:Hop; [|reflexivity].
  exfalso. apply Hty. destruct (tok_type tok), ty; try discriminate Hop;
    try discriminate H; reflexivity.
Qed.

Lemma minus_asPlus (o : option Token) :
  str_eqb (Parser.valueOf (option_map asPlus o)) (lit "-")
  = str_eqb (Parser.valueOf o) (lit "-").
Proof.
  destruct o as [tok|]; [|reflexivity]. cbn [option_map Parser.valueOf]. unfold asPlus.
  destruct (TokenType_eqb (tok_type tok) OPERATOR); [|reflexivity].
  destruct (str_eqb (tok_value tok) (lit "-")) eqn:Hminus; cbn [negb andb tok_value];
    [exact Hminus|reflexivity].
Qed.

Lemma startOf_asPlus (o : option Token) :
  Parser.startOf (option_map asPlus o) = Parser.startOf o.
Proof.
  destruct o as [tok|]; [|reflexivity]. cbn [option_map Parser.startOf].
  unfold asPlus. destruct (_ && _); reflexivity.
Qed.

Lemma endOf_asPlus (o : option Token) :
  Parser.endOf (option_map asPlus o) = Parser.endOf o.
Proof.
  destruct o as [tok|]; [|reflexivity]. cbn [option_map Parser.endOf].
  unfold asPlus. destruct (_ && _); reflexivity.
Qed.

Ltac asPlus_turn :=
  cbv beta iota zeta;
  rewrite ?nth_error_map, ?hasType_asPlus, ?minus_asPlus, ?startOf_asPlus, ?endOf_asPlus.

Lemma parseSingleTerm_asPlus (toks : list Token) (i : nat) :
  Parser.parseSingleTerm (map asPlus toks) i = Parser.parseSingleTerm toks i.
Proof.
  unfold Parser.parseSingleTerm. asPlus_turn.
  destruct (Parser.hasType OPERATOR (nth_error toks i)); asPlus_turn;
    match goal with
    | |- context [Parser.hasType NUMBER ?o] => destruct (Parser.hasType NUMBER o) eqn:Hn
    end; asPlus_turn;
    rewrite ?(valueOf_asPlus NUMBER _ ltac:(discriminate) Hn);
    match goal with
    | |- context [Parser.hasType VARIABLE ?o] => destruct (Parser.hasType VARIABLE o) eqn:Hv
    end; asPlus_turn;
    rewrite ?(valueOf_asPlus VARIABLE _ ltac:(discriminate) Hv);
    reflexivity.
Qed.

Lemma parseTermsFrom_asPlus (fuel : nat) (toks : list Token) (i : nat) :
  Parser.parseTermsFrom fuel (map asPlus toks) i = Parser.parseTermsFrom fuel toks i.
Proof.
  revert i. induction fuel as [|fuel IH]; intros i; [reflexivity|].
  cbn [Parser.parseTermsFrom]. rewrite length_map, parseSingleTerm_asPlus.
  destruct (i <? length toks); [|reflexivity].
  destruct (Parser.parseSingleTerm toks i) as [[term nextIndex] lg]. now rewrite IH.
Qed.

(** X28.  The term parser reads an operator only as a sign: ['*'] and ['/']
    in front of a term count as ['+'].  Replacing every operator token
    other than ['-'] by ['+'] changes neither the expression that
    [parseExpression] builds nor what it logs; no product or quotient is
    ever formed. *)
Theorem parseExpression_reads_operators_as_signs (toks : list Token) :
  Parser.parseExpression (map asPlus toks) = Parser.parseExpression toks.
Proof.
  destruct toks as [|tok toks]; [reflexivity|].
  change (map asPlus (tok :: toks)) with (asPlus tok :: map asPlus toks).
  unfold Parser.parseExpression, Parser.parseTerms.
  change (asPlus tok :: map asPlus toks) with (map asPlus (tok :: toks)).
  now rewrite length_map, parseTermsFrom_asPlus.
Qed.

(** For instance [2*x = 6] is read as [2 + x = 6] and solved by [x = 4]. *)
Lemma parse_times_example :
  solveString "2*x = 6" = solveString "2+x = 6"
  /\ option_map (fun r => snd (fst r)) (solveString "2*x = 6") = Some 4%float.
Proof. split; vm_compute; reflexivity. Qed.

(** ** Every character is accounted for *)

Lemma filter_space_token (p : ascii -> bool) (n : nat) (rest : str) :
  (forall c, p c = true -> isSpace c = false) ->
  forallb p (firstn n rest) = true ->
  filter isSpace rest = filter isSpace (skipn n rest).
Proof.
  intros Hp Hall. rewrite <- (firstn_skipn n rest) at 1. rewrite filter_app.
  rewrite (filter_none isSpace (firstn n rest)); [reflexivity|].
  rewrite forallb_forall in Hall. intros c Hc. apply Hp. now apply Hall.
Qed.

(** X29.  The tokenizer accounts for every character of the input exactly
    once: a character is white space, or belongs to one token, or is
    reported by one error.  Every error of the tokenizer is an
    [invalid_character] error of severity [medium]. *)
Theorem tokenize_accounts_for_every_character (config : EngineConfig) (input : str) :
  length input
  = length (filter isSpace input)
    + length (concat (map tok_value (fst (Parser.tokenize config input))))
    + length (log_errors (snd (Parser.tokenize config input)))
  /\ forall e, In e (log_errors (snd (Parser.tokenize config input))) ->
       err_type e = invalid_character /\ err_severity e = medium.
Proof.
  rewrite tokenize_tokensFrom. generalize 0 as position. revert input.
  apply (tokensFrom_turns config
           (fun rest position r =>
              length rest
              = length (filter isSpace rest)
                + length (concat (map tok_value (fst r)))
                + length (log_errors (snd r))
              /\ forall e, In e (log_errors (snd r)) ->
                   err_type e = invalid_character /\ err_severity e = medium));
    cbn [fst snd map concat mkToken tok_value].
  - intros _. split; [reflexivity|intros e []].
  - intros c rest position Hs [IH Herr]. split; [|exact Herr].
    cbn [filter length]. rewrite Hs. cbn [length]. lia.
  - intros c rest position n _ _ -> Hn [IH Herr]. split; [|exact Herr].
    rewrite (filter_space_token numeralChar (Parser.scanNumber config (c :: rest) false)
               (c :: rest) numeralChar_not_space (scanNumber_chars _ _ _)).
    rewrite length_app, length_firstn. rewrite length_skipn in IH. lia.
  - intros c rest position n _ _ -> Hn [IH Herr].
    assert (Hlog : log_errors
                     (appLog (if isSupportedVariable
                                   (firstn (Parser.scanLetters (c :: rest)) (c :: rest))
                              then noLog else addWarning unusual_format)
                        (snd (tokensFrom config
                                (skipn (Parser.scanLetters (c :: rest)) (c :: rest))
                                (position + Parser.scanLetters (c :: rest)))))
                   = log_errors
                       (snd (tokensFrom config
                               (skipn (Parser.scanLetters (c :: rest)) (c :: rest))
                               (position + Parser.scanLetters (c :: rest))))).
    { destruct (isSupportedVariable _); reflexivity. }
    rewrite Hlog. split; [|exact Herr].
    rewrite (filter_space_token isLetter (Parser.scanLetters (c :: rest)) (c :: rest)
               (fun c' Hc' => proj1 (letter_not_space_not_digit c' Hc'))
               (scanLetters_chars _)).
    rewrite length_app, length_firstn. rewrite length_skipn in IH. lia.
  - intros c ty rest position Hs _ _ _ [IH Herr]. split; [|exact Herr].
    cbn [filter length app]. rewrite Hs. cbn [length]. lia.
  - intros c rest position Hs _ _ _ [IH Herr]. split.
    + cbn [filter length appLog log_errors addError app]. rewrite Hs. cbn [length]. lia.
    + cbn [appLog log_errors addError app]. intros e [<- |He]; [split; reflexivity|].
      now apply Herr.
Qed.

(** ** Degree zero *)

Lemma getDegree_fold_zero (ts : list Term) (acc : nat) :
  forallb (fun t => isConstant t || (1 <=? Evaluator.exponentOf t)) ts = true ->
  fold_left
    (fun maxDegree term =>
       if isConstant term then maxDegree
       else if truthy None && negb (opt_str_eqb (variable term) None) then maxDegree
            else Nat.max maxDegree (Evaluator.exponentOf term))
    ts acc = 0
  <-> acc = 0 /\ forallb (fun term => isConstant term) ts = true.
Proof.
  revert acc. induction ts as [|t ts IH]; intros acc Hexp; cbn [fold_left forallb].
  - intuition.
  - cbn [forallb] in Hexp. apply andb_prop in Hexp. destruct Hexp as [Ht Hts].
    rewrite (IH _ Hts). destruct (isConstant t); cbn [truthy andb orb] in *; [intuition|].
    apply Nat.leb_le in Ht.
    split; [intros [H _]; lia|intros [_ H]; discriminate H].
Qed.

(** X30.  Provided no term has a negative exponent, an expression has
    degree 0 over all variables exactly when [isConstantExpression] accepts
    it.  (A term [x^-1] has degree [Math.max(0, -1) = 0] without being a
    constant, which is why the proviso is needed.) *)
Theorem getDegree_zero_iff_constant (e : Expression) :
  noNegativeExponent e = true ->
  (Evaluator.getDegree e None = 0 <-> Evaluator.isConstantExpression e = true).
Proof.
  unfold noNegativeExponent, termsOf, Evaluator.getDegree, Evaluator.isConstantExpression.
  destruct (terms e) as [[|t ts]|]; try (intros _; split; reflexivity).
  intros Hexp. rewrite (getDegree_fold_zero _ _ Hexp). intuition.
Qed.

Lemma getDegree_zero_iff_constant_witness :
  let e := expressionOf [constantTerm 3; variableTerm 2 "x" 1] in
  Evaluator.getDegree e None = 0 <-> Evaluator.isConstantExpression e = true.
Proof.
  cbv zeta.
  apply (getDegree_zero_iff_constant (expressionOf [constantTerm 3; variableTerm 2 "x" 1])).
  reflexivity.
Defined.
